(** * s3_bulk_copy: the bulk transfer engine and the size formatter

    A shallow embedding of [S3_copy/s3_bulk_transfer.py] and of
    [format_size], [load_progress] and [show_summary] from
    [S3_copy/monitor_transfer.py].

    - Python [str] is [string], [int] is [Z], [bytes] is [list byte],
      a [dict] used as a map is a [gmap].
    - The two boto3 clients, the clock and the local file system are an
      [Environment] over an abstract world [W]: every call takes the world
      and gives back an answer and the next world, so the services may
      answer differently at every call.
    - A method of [S3BulkTransfer] is a function [process -> result A *
      process]: the object [self], the progress file, the world and the
      record of the S3 calls made so far are threaded through, and an
      exception keeps the state reached when it was raised.
    - The thread pool of [run_transfer] runs the submitted transfers one
      after the other in submission order, which is the schedule of
      [--max-workers 1]; the interleavings of several workers are outside the
      model.  Logging is output only and is left out.
    - The progress file, when it can be read, holds a ledger in the format
      [save_progress] writes; a timestamp is the clock reading, an integer
      number of microseconds. *)

From Stdlib Require Import ZArith QArith Lia String Ascii List.
From Stdlib.Strings Require Import Byte.
From stdpp Require Import base gmap strings list pretty.

Local Open Scope string_scope.
Local Open Scope list_scope.
Local Open Scope Z_scope.

(** ** Python strings *)

Module Str.

(** [s.lstrip(c)] for a single character [c]. *)
Fixpoint lstrip (c : ascii) (s : string) : string :=
  match s with
  | EmptyString => EmptyString
  | String a s' => if Ascii.eqb a c then lstrip c s' else s
  end.

(** [s.rstrip(c)] for a single character [c]. *)
Fixpoint rstrip (c : ascii) (s : string) : string :=
  match s with
  | EmptyString => EmptyString
  | String a s' =>
      match rstrip c s' with
      | EmptyString => if Ascii.eqb a c then EmptyString else String a EmptyString
      | r => String a r
      end
  end.

(** The slice [s[n:]]. *)
Fixpoint skip (n : nat) (s : string) : string :=
  match n, s with
  | O, _ => s
  | S n', String _ s' => skip n' s'
  | S _, EmptyString => EmptyString
  end.

(** Truth value of a string: [if s:]. *)
Definition truthy (s : string) : bool :=
  match s with EmptyString => false | String _ _ => true end.

(** [n] copies of the character [c]. *)
Fixpoint replicate (n : nat) (c : ascii) : string :=
  match n with
  | O => EmptyString
  | S n' => String c (replicate n' c)
  end.

(** [s.startswith(p)]. *)
Definition startswith (p s : string) : bool := String.prefix p s.

(** The last character of [s] is not [c] (true of the empty string). *)
Fixpoint not_ending_with (c : ascii) (s : string) : Prop :=
  match s with
  | EmptyString => True
  | String a EmptyString => a <> c
  | String _ s' => not_ending_with c s'
  end.

(** The first character of [s] is not [c] (true of the empty string). *)
Definition not_starting_with (c : ascii) (s : string) : Prop :=
  match s with
  | EmptyString => True
  | String a _ => a <> c
  end.

End Str.

(** ** Exceptions and results *)

(** The code tells [botocore.exceptions.ClientError] from every other
    exception ([except ClientError] against [except Exception] and a bare
    [except]). *)
Inductive exn : Type :=
| ClientError
| OtherException.

Inductive result (A : Type) : Type :=
| Returned (a : A)
| Raised (e : exn).
Arguments Returned {A} a.
Arguments Raised {A} e.

Definition is_ClientError (e : exn) : bool :=
  match e with ClientError => true | OtherException => false end.

(** ** Data *)

(** An entry of [response['Contents']]. *)
Record object_summary : Type := mk_summary {
  Key : string;
  Size : Z;
  LastModified : Z
}.

(** A page of [list_objects_v2]: ['Contents'] is absent when nothing matches. *)
Definition page : Type := option (list object_summary).

(** The dict [{'key', 'size', 'last_modified'}] built by [list_source_objects]. *)
Record obj : Type := mk_obj {
  obj_key : string;
  obj_size : Z;
  obj_last_modified : Z
}.

(** A value of the progress ledger: [{'size', 'timestamp'}]. *)
Record transfer_record : Type := mk_record {
  rec_size : Z;
  rec_timestamp : Z
}.

(** An element of the [Parts] list of a multipart upload. *)
Record part : Type := mk_part {
  ETag : string;
  PartNumber : Z
}.

(** [self.stats]. *)
Record stats : Type := mk_stats {
  total_files : Z;
  transferred_files : Z;
  failed_files : Z;
  total_size : Z;
  transferred_size : Z;
  start_time : option Z;
  end_time : option Z
}.

(** The fields of [self] that the methods read or write. *)
Record S3BulkTransfer : Type := mk_self {
  source_bucket : string;
  destination_bucket : string;
  source_prefix : string;
  destination_prefix : string;
  max_workers : Z;
  chunk_size : Z;
  self_stats : stats;
  completed_transfers : gmap string transfer_record
}.

(** A file of the local disk holding a JSON document of type [A]:
    absent, present but impossible to open or to parse, or readable. *)
Inductive file (A : Type) : Type :=
| Missing
| Unreadable
| Stored (a : A).
Arguments Missing {A}.
Arguments Unreadable {A}.
Arguments Stored {A} a.

(** What an attempt to rewrite the progress file does: it succeeds, [open]
    fails and leaves the file as it was, or [json.dump] fails after [open]
    truncated the file. *)
Inductive write_outcome : Type :=
| WriteOk
| OpenFails
| DumpFails.

(** ** The S3 calls a process makes, with their outcome *)

Inductive call : Type :=
| HeadBucket (Bucket : string) (r : result unit)
| ListObjectsV2 (Bucket : string) (MaxKeys : Z) (Prefix : string) (r : result page)
| PaginateListObjectsV2 (Bucket Prefix : string) (pages : list page) (err : option exn)
| GetObject (Bucket Key : string) (r : result (list byte))
| HeadObject (Bucket Key : string) (r : result Z)
| PutObject (Bucket Key : string) (Body : list byte) (r : result unit)
| CreateMultipartUpload (Bucket Key : string) (r : result string)
| UploadPart (Bucket Key : string) (PartNumber : Z) (UploadId : string)
    (Body : list byte) (r : result string)
| CompleteMultipartUpload (Bucket Key UploadId : string) (Parts : list part)
    (r : result unit)
| AbortMultipartUpload (Bucket Key UploadId : string) (r : result unit).

(** The bytes a call sends to the destination. *)
Definition uploaded_bytes (c : call) : Z :=
  match c with
  | PutObject _ _ body _ => Z.of_nat (length body)
  | UploadPart _ _ _ _ body _ => Z.of_nat (length body)
  | _ => 0
  end.

(** A call that moves object data: a download or an upload. *)
Definition moves_data (c : call) : bool :=
  match c with
  | GetObject _ _ _ | PutObject _ _ _ _ | CreateMultipartUpload _ _ _
  | UploadPart _ _ _ _ _ _ | CompleteMultipartUpload _ _ _ _ _ => true
  | _ => false
  end.

Definition is_abort (c : call) : bool :=
  match c with AbortMultipartUpload _ _ _ _ => true | _ => false end.

(** ** The environment *)

(** [source_s3] (prefix [src_]), [destination_s3] (prefix [dst_]),
    [datetime.now()] and the write of the progress file.  [src_paginate]
    gives the pages the paginator yields and the exception that ends the
    iteration, if any; [body_read] tells whether a read of a streaming body
    fails. *)
Class Environment (W : Type) : Type := {
  src_head_bucket : string -> W -> result unit * W;
  src_list_objects_v2 : string -> Z -> string -> W -> result page * W;
  src_paginate : string -> string -> W -> (list page * option exn) * W;
  src_get_object : string -> string -> W -> result (list byte) * W;
  body_read : W -> option exn * W;
  dst_head_object : string -> string -> W -> result Z * W;
  dst_put_object : string -> string -> list byte -> W -> result unit * W;
  dst_create_multipart_upload : string -> string -> W -> result string * W;
  dst_upload_part :
    string -> string -> Z -> string -> list byte -> W -> result string * W;
  dst_complete_multipart_upload :
    string -> string -> string -> list part -> W -> result unit * W;
  dst_abort_multipart_upload : string -> string -> string -> W -> result unit * W;
  datetime_now : W -> Z * W;
  file_write : W -> write_outcome * W
}.

(** ** Processes *)

Record process (W : Type) : Type := mk_process {
  self : S3BulkTransfer;
  progress_file : file (gmap string transfer_record);
  world : W;
  calls : list call
}.
Arguments mk_process {W}.
Arguments self {W}.
Arguments progress_file {W}.
Arguments world {W}.
Arguments calls {W}.

Definition M (W A : Type) : Type := process W -> result A * process W.

Definition ret {W A} (a : A) : M W A := fun p => (Returned a, p).

Definition raise {W A} (e : exn) : M W A := fun p => (Raised e, p).

Definition bind {W A B} (m : M W A) (k : A -> M W B) : M W B :=
  fun p =>
    match m p with
    | (Returned a, p') => k a p'
    | (Raised e, p') => (Raised e, p')
    end.

(** [try: body / except <catches>: handler]. *)
Definition try_except {W A} (body : M W A) (catches : exn -> bool)
    (handler : M W A) : M W A :=
  fun p =>
    match body p with
    | (Raised e, p') => if catches e then handler p' else (Raised e, p')
    | done => done
    end.

(** [except Exception] and a bare [except] catch both kinds. *)
Definition any_exception (e : exn) : bool := true.

Declare Scope py_scope.
Delimit Scope py_scope with py.
Notation "x <- m ;; k" := (bind m (fun x => k))
  (at level 100, m at next level, right associativity) : py_scope.
Notation "m ;; k" := (bind m (fun _ => k))
  (at level 100, right associativity) : py_scope.
Local Open Scope py_scope.

(** ** State access *)

Section Engine.

Context {W : Type} `{Environment W}.

Definition set_self (s : S3BulkTransfer) (p : process W) : process W :=
  mk_process s (progress_file p) (world p) (calls p).

Definition set_progress_file (f : file (gmap string transfer_record))
    (p : process W) : process W :=
  mk_process (self p) f (world p) (calls p).

Definition set_world (w : W) (p : process W) : process W :=
  mk_process (self p) (progress_file p) w (calls p).

Definition log_call (c : call) (p : process W) : process W :=
  mk_process (self p) (progress_file p) (world p) (calls p ++ [c]).

Definition set_stats (st : stats) (s : S3BulkTransfer) : S3BulkTransfer :=
  mk_self (source_bucket s) (destination_bucket s) (source_prefix s)
    (destination_prefix s) (max_workers s) (chunk_size s) st
    (completed_transfers s).

Definition set_completed_transfers (m : gmap string transfer_record)
    (s : S3BulkTransfer) : S3BulkTransfer :=
  mk_self (source_bucket s) (destination_bucket s) (source_prefix s)
    (destination_prefix s) (max_workers s) (chunk_size s) (self_stats s) m.

Definition get_self : M W S3BulkTransfer := fun p => (Returned (self p), p).

Definition update_stats (f : stats -> stats) : M W unit :=
  fun p => (Returned tt, set_self (set_stats (f (self_stats (self p))) (self p)) p).

(** A call of an S3 client: the world answers and the call is recorded. *)
Definition invoke {A} (op : W -> result A * W) (entry : result A -> call) : M W A :=
  fun p => let (r, w) := op (world p) in (r, log_call (entry r) (set_world w p)).

Definition head_bucket (Bucket : string) : M W unit :=
  invoke (src_head_bucket Bucket) (HeadBucket Bucket).

Definition list_objects_v2 (Bucket : string) (MaxKeys : Z) (Prefix : string) : M W page :=
  invoke (src_list_objects_v2 Bucket MaxKeys Prefix) (ListObjectsV2 Bucket MaxKeys Prefix).

Definition paginate (Bucket Prefix : string) : M W (list page * option exn) :=
  fun p =>
    let (r, w) := src_paginate Bucket Prefix (world p) in
    (Returned r, log_call (PaginateListObjectsV2 Bucket Prefix (fst r) (snd r))
                   (set_world w p)).

Definition get_object (Bucket Key : string) : M W (list byte) :=
  invoke (src_get_object Bucket Key) (GetObject Bucket Key).

Definition head_object (Bucket Key : string) : M W Z :=
  invoke (dst_head_object Bucket Key) (HeadObject Bucket Key).

Definition put_object (Bucket Key : string) (Body : list byte) : M W unit :=
  invoke (dst_put_object Bucket Key Body) (PutObject Bucket Key Body).

Definition create_multipart_upload (Bucket Key : string) : M W string :=
  invoke (dst_create_multipart_upload Bucket Key) (CreateMultipartUpload Bucket Key).

Definition upload_part (Bucket Key : string) (PartNumber : Z) (UploadId : string)
    (Body : list byte) : M W string :=
  invoke (dst_upload_part Bucket Key PartNumber UploadId Body)
         (UploadPart Bucket Key PartNumber UploadId Body).

Definition complete_multipart_upload (Bucket Key UploadId : string)
    (Parts : list part) : M W unit :=
  invoke (dst_complete_multipart_upload Bucket Key UploadId Parts)
         (CompleteMultipartUpload Bucket Key UploadId Parts).

Definition abort_multipart_upload (Bucket Key UploadId : string) : M W unit :=
  invoke (dst_abort_multipart_upload Bucket Key UploadId)
         (AbortMultipartUpload Bucket Key UploadId).

(** [datetime.now()], in microseconds. *)
Definition now : M W Z :=
  fun p => let (t, w) := datetime_now (world p) in (Returned t, set_world w p).

(** [stream.read(amt)] on a streaming body whose unread bytes are [stream]:
    the chunk read and the bytes left.  A negative [amt] reads to the end,
    as [read()] does. *)
Definition stream_read (amt : Z) (stream : list byte) : M W (list byte * list byte) :=
  fun p =>
    let (fault, w) := body_read (world p) in
    match fault with
    | Some e => (Raised e, set_world w p)
    | None =>
        let n := if amt <? 0 then length stream else Z.to_nat amt in
        (Returned (take n stream, drop n stream), set_world w p)
    end.

(** ** The progress ledger (lines 87-107) *)

Definition os_path_exists : M W bool :=
  fun p => (Returned (match progress_file p with Missing => false | _ => true end), p).

(** [with open(file, 'r') as f: json.load(f)]. *)
Definition open_json_load : M W (gmap string transfer_record) :=
  fun p =>
    match progress_file p with
    | Stored m => (Returned m, p)
    | _ => (Raised OtherException, p)
    end.

(** [with open(file, 'w') as f: json.dump(m, f, indent=2)]. *)
Definition open_json_dump (m : gmap string transfer_record) : M W unit :=
  fun p =>
    let (o, w) := file_write (world p) in
    match o with
    | WriteOk => (Returned tt, set_progress_file (Stored m) (set_world w p))
    | OpenFails => (Raised OtherException, set_world w p)
    | DumpFails => (Raised OtherException, set_progress_file Unreadable (set_world w p))
    end.

Definition load_progress : M W (gmap string transfer_record) :=
  loaded <- try_except
              (there <- os_path_exists ;;
               if (there : bool)
               then (m <- open_json_load ;; ret (Some m))
               else ret None)
              any_exception
              (ret None) ;;
  match loaded with
  | Some m => ret m
  | None => ret ∅
  end.

Definition save_progress (key : string) (size : Z) : M W unit :=
  t <- now ;;
  (fun p => (Returned tt,
             set_self (set_completed_transfers
                         (<[key := mk_record size t]> (completed_transfers (self p)))
                         (self p)) p)) ;;
  try_except
    (s <- get_self ;; open_json_dump (completed_transfers s))
    any_exception
    (ret tt).

(** ** The constructor (lines 32-85) *)

Definition fresh_stats : stats := mk_stats 0 0 0 0 0 None None.

Definition S3BulkTransfer_init (source_bucket destination_bucket
    source_prefix destination_prefix : string) (max_workers chunk_size : Z)
    (disk : file (gmap string transfer_record)) (w : W)
    : result unit * process W :=
  let s := mk_self source_bucket destination_bucket
             (Str.rstrip "/" source_prefix) (Str.rstrip "/" destination_prefix)
             max_workers chunk_size fresh_stats ∅ in
  (m <- load_progress ;;
   fun p => (Returned tt, set_self (set_completed_transfers m (self p)) p))
    (mk_process s disk w []).

(** ** Access test (lines 109-155) *)

Definition test_source_access : M W bool :=
  try_except
    (s <- get_self ;;
     reachable <- try_except (head_bucket (source_bucket s) ;; ret true)
                    is_ClientError (ret false) ;;
     if (reachable : bool)
     then try_except
            (list_objects_v2 (source_bucket s) 5 (source_prefix s) ;; ret true)
            is_ClientError (ret false)
     else ret false)
    any_exception
    (ret false).

(** ** Listing (lines 157-189) *)

Definition summary_to_obj (o : object_summary) : obj :=
  mk_obj (Key o) (Size o) (LastModified o).

(** The objects appended while iterating over the pages. *)
Fixpoint collect (pages : list page) : list obj :=
  match pages with
  | [] => []
  | Some contents :: rest => map summary_to_obj contents ++ collect rest
  | None :: rest => collect rest
  end.

Definition list_source_objects : M W (list obj) :=
  s <- get_self ;;
  listing <- paginate (source_bucket s) (source_prefix s) ;;
  match snd listing with
  | None => ret (collect (fst listing))
  | Some ClientError => ret []
  | Some e => raise e
  end.

(** ** Planning (lines 199-229) *)

Definition get_destination_key (s : S3BulkTransfer) (source_key : string) : string :=
  let relative_key :=
    if Str.truthy (source_prefix s)
    then Str.lstrip "/" (Str.skip (String.length (source_prefix s)) source_key)
    else source_key in
  if Str.truthy (destination_prefix s)
  then destination_prefix s +:+ "/" +:+ relative_key
  else relative_key.

(** [source_key in completed_transfers and
     completed_transfers[source_key]['size'] == source_size]. *)
Definition in_ledger (m : gmap string transfer_record) (source_key : string)
    (source_size : Z) : bool :=
  match m !! source_key with
  | Some r => rec_size r =? source_size
  | None => false
  end.

Definition should_skip_transfer (source_key : string) (source_size : Z) : M W bool :=
  s <- get_self ;;
  let dest_key := get_destination_key s source_key in
  if in_ledger (completed_transfers s) source_key source_size
  then ret true
  else
    found <- try_except
               (ContentLength <- head_object (destination_bucket s) dest_key ;;
                ret (ContentLength =? source_size))
               is_ClientError
               (ret false) ;;
    if (found : bool) then ret true else ret false.

(** ** Copying one object (lines 231-308) *)

(** [response['Body'].read()] reads the whole body. *)
Definition transfer_small_file (source_key dest_key : string) (size : Z) : M W bool :=
  s <- get_self ;;
  try_except
    (stream <- get_object (source_bucket s) source_key ;;
     body <- stream_read (-1) stream ;;
     put_object (destination_bucket s) dest_key (fst body) ;;
     ret true)
    is_ClientError
    (ret false).

(** The [while True] loop of lines 265-284, started with the unread bytes
    [stream], the list [parts] and the counter [part_number].  [None]: the
    loop has not left within [fuel] iterations. *)
Fixpoint upload_parts (fuel : nat) (s : S3BulkTransfer) (dest_key upload_id : string)
    (stream : list byte) (parts : list part) (part_number : Z) (p : process W)
    : option (result (list part) * process W) :=
  match fuel with
  | O => None
  | S fuel' =>
      match stream_read (chunk_size s) stream p with
      | (Raised e, p1) => Some (Raised e, p1)
      | (Returned (chunk, stream'), p1) =>
          match chunk with
          | [] => Some (Returned parts, p1)
          | _ :: _ =>
              match upload_part (destination_bucket s) dest_key part_number
                      upload_id chunk p1 with
              | (Raised e, p2) => Some (Raised e, p2)
              | (Returned etag, p2) =>
                  upload_parts fuel' s dest_key upload_id stream'
                    (parts ++ [mk_part etag part_number]) (part_number + 1) p2
              end
          end
      end
  end.

(** The loop run from [parts = []] and [part_number = 1].  One iteration
    more than the body has bytes always suffices
    ([upload_parts_terminates]), so the last branch is never taken. *)
Definition upload_all_parts (s : S3BulkTransfer) (dest_key upload_id : string)
    (stream : list byte) : M W (list part) :=
  fun p =>
    match upload_parts (S (length stream)) s dest_key upload_id stream [] 1 p with
    | Some done => done
    | None => (Raised OtherException, p)
    end.

(** The [except ClientError] block of lines 297-308.  When
    [create_multipart_upload] itself raised, [upload_id] is unbound: the
    abort raises [NameError] before any request is sent, and the bare
    [except] swallows it. *)
Definition abort_and_report (s : S3BulkTransfer) (dest_key : string)
    (upload_id : option string) : M W bool :=
  try_except
    (match upload_id with
     | Some u => abort_multipart_upload (destination_bucket s) dest_key u
     | None => raise OtherException
     end)
    any_exception
    (ret tt) ;;
  ret false.

Definition transfer_large_file (source_key dest_key : string) (size : Z) : M W bool :=
  s <- get_self ;;
  created <- try_except
               (u <- create_multipart_upload (destination_bucket s) dest_key ;;
                ret (Some u))
               is_ClientError
               (ret None) ;;
  match created with
  | None => abort_and_report s dest_key None
  | Some upload_id =>
      try_except
        (stream <- get_object (source_bucket s) source_key ;;
         parts <- upload_all_parts s dest_key upload_id stream ;;
         complete_multipart_upload (destination_bucket s) dest_key upload_id parts ;;
         ret true)
        is_ClientError
        (abort_and_report s dest_key (Some upload_id))
  end.

(** ** One transfer (lines 310-337) *)

(** The test of line 325, [size > 100 * 1024 * 1024], names the copy used. *)
Inductive method : Type :=
| Simple
| Multipart.

Definition transfer_method (size : Z) : method :=
  if size >? 100 * 1024 * 1024 then Multipart else Simple.

Definition count_transferred (size : Z) (st : stats) : stats :=
  mk_stats (total_files st) (transferred_files st + 1) (failed_files st)
    (total_size st) (transferred_size st + size) (start_time st) (end_time st).

Definition count_failed (st : stats) : stats :=
  mk_stats (total_files st) (transferred_files st) (failed_files st + 1)
    (total_size st) (transferred_size st) (start_time st) (end_time st).

(** Lines 330-337: what follows the copy. *)
Definition settle (source_key : string) (size : Z) (success : bool) : M W bool :=
  (if success
   then update_stats (count_transferred size) ;; save_progress source_key size
   else update_stats count_failed) ;;
  ret success.

Definition copy_with (m : method) (source_key dest_key : string) (size : Z) : M W bool :=
  match m with
  | Multipart => transfer_large_file source_key dest_key size
  | Simple => transfer_small_file source_key dest_key size
  end.

Definition transfer_file (o : obj) : M W bool :=
  let source_key := obj_key o in
  let size := obj_size o in
  s <- get_self ;;
  let dest_key := get_destination_key s source_key in
  skip <- should_skip_transfer source_key size ;;
  if (skip : bool)
  then update_stats (count_transferred size) ;; ret true
  else
    success <- copy_with (transfer_method size) source_key dest_key size ;;
    settle source_key size success.

(** ** The run (lines 339-385) *)

Definition set_start_time (t : Z) (st : stats) : stats :=
  mk_stats (total_files st) (transferred_files st) (failed_files st)
    (total_size st) (transferred_size st) (Some t) (end_time st).

Definition set_end_time (t : Z) (st : stats) : stats :=
  mk_stats (total_files st) (transferred_files st) (failed_files st)
    (total_size st) (transferred_size st) (start_time st) (Some t).

Definition sum_sizes (objects : list obj) : Z :=
  foldr (fun o acc => obj_size o + acc) 0 objects.

Definition set_totals (objects : list obj) (st : stats) : stats :=
  mk_stats (Z.of_nat (length objects)) (transferred_files st) (failed_files st)
    (sum_sizes objects) (transferred_size st) (start_time st) (end_time st).

(** The pool with one worker: each submitted [transfer_file] runs to its
    end before the next starts; an exception it raises is held by its
    future and counted by the [as_completed] loop (lines 360-365). *)
Fixpoint run_pool (objects : list obj) : M W unit :=
  match objects with
  | [] => ret tt
  | o :: rest =>
      try_except (transfer_file o ;; ret tt) any_exception (update_stats count_failed) ;;
      run_pool rest
  end.

(** Line 384 divides by [duration.total_seconds()]: [ZeroDivisionError]
    when the two clock readings are equal. *)
Definition print_summary : M W unit :=
  s <- get_self ;;
  match start_time (self_stats s), end_time (self_stats s) with
  | Some t0, Some t1 => if t1 - t0 =? 0 then raise OtherException else ret tt
  | _, _ => raise OtherException
  end.

(** [ThreadPoolExecutor(max_workers=self.max_workers)] raises [ValueError]
    when [max_workers] is not positive. *)
Definition thread_pool_executor : M W unit :=
  s <- get_self ;;
  if max_workers s <=? 0 then raise OtherException else ret tt.

Definition run_transfer : M W bool :=
  t0 <- now ;;
  update_stats (set_start_time t0) ;;
  objects <- list_source_objects ;;
  match objects with
  | [] => ret false
  | _ :: _ =>
      update_stats (set_totals objects) ;;
      thread_pool_executor ;;
      run_pool objects ;;
      t1 <- now ;;
      update_stats (set_end_time t1) ;;
      print_summary ;;
      s <- get_self ;;
      ret (failed_files (self_stats s) =? 0)
  end.

(** ** The command line program (lines 387-468) *)

Record Args : Type := mk_args {
  arg_dest_region : string;
  arg_source_bucket : string;
  arg_dest_bucket : string;
  arg_source_prefix : string;
  arg_dest_prefix : string;
  arg_max_workers : Z;
  arg_chunk_size : Z;
  arg_test_access : bool
}.

(** The credentials file is a JSON object of strings. *)
Definition load_credentials_from_file (f : file (gmap string string))
    : option (gmap string string) :=
  match f with
  | Stored creds => Some creds
  | _ => None
  end.

Definition validate_source_credentials (credentials : gmap string string) : bool :=
  forallb (fun key => bool_decide (is_Some (credentials !! key)))
    ["access_key"; "secret_key"].

(** Truth value of a dict: [if not source_creds]. *)
Definition dict_truthy (d : gmap string string) : bool :=
  negb (bool_decide (d = ∅)).

(** The exit status of the interpreter: the argument of [sys.exit], and 1
    when an exception reaches the top level. *)
Definition exit_status (r : result Z) : Z :=
  match r with
  | Returned code => code
  | Raised _ => 1
  end.

Definition construct (args : Args) (disk : file (gmap string transfer_record)) (w : W)
    : result unit * process W :=
  S3BulkTransfer_init (arg_source_bucket args) (arg_dest_bucket args)
    (arg_source_prefix args) (arg_dest_prefix args)
    (arg_max_workers args) (arg_chunk_size args) disk w.

(** Lines 452-468, run on the constructed object. *)
Definition test_and_run (args : Args) : M W Z :=
  passed <- (if arg_test_access args then test_source_access else ret true) ;;
  if (passed : bool)
  then success <- run_transfer ;; ret (if (success : bool) then 0 else 1)
  else ret 1.

(** [main] after [parser.parse_args()]: the exit status of the process. *)
Definition main (args : Args) (credentials_file : file (gmap string string))
    (disk : file (gmap string transfer_record)) (w : W) : Z :=
  match load_credentials_from_file credentials_file with
  | None => 1
  | Some source_creds =>
      if negb (dict_truthy source_creds) then 1
      else if negb (validate_source_credentials source_creds) then 1
      else
        match construct args disk w with
        | (Raised _, _) => 1
        | (Returned _, p) => exit_status (fst (test_and_run args p))
        end
  end.

End Engine.

(** ** [format_size] of monitor_transfer.py (lines 23-34) *)

Module Monitor.

Definition size_names : list string := ["B"; "KB"; "MB"; "GB"; "TB"].

(** The integer nearest to [n / d], ties to the even one, for [d > 0]. *)
Definition round_div (n d : Z) : Z :=
  let q := n / d in
  let r := n mod d in
  if 2 * r <? d then q
  else if d <? 2 * r then q + 1
  else if Z.even q then q else q + 1.

(** The float an [int] converts to, as a rational: the integer rounded to 53
    significant bits, ties to even.  [None] is the [OverflowError] of an
    integer too large for a float. *)
Definition float_of_int (n : Z) : option Q :=
  let a := Z.abs n in
  let e := Z.log2 a - 52 in
  let m := if e <=? 0 then a else round_div a (2 ^ e) * 2 ^ e in
  if 2 ^ 1024 <=? m then None else Some (inject_Z (Z.sgn n * m)).

(** The [while] loop of lines 30-32, entered with the value [size_bytes]
    and the index [i].  [remaining] is [len(size_names) - 1 - i], so the
    test [i < len(size_names) - 1] is [remaining <> 0].  The value is the
    rational a float stands for: dividing a float by [1024.0] only changes
    its exponent, and the comparison of the byte count with 1024 has the same
    answer before and after its conversion to a float. *)
Fixpoint scale (remaining : nat) (size_bytes : Q) (i : nat) : Q * nat :=
  match remaining with
  | O => (size_bytes, i)
  | S remaining' =>
      if Qle_bool (inject_Z 1024) size_bytes
      then scale remaining' (size_bytes / inject_Z 1024)%Q (S i)
      else (size_bytes, i)
  end.

Definition two_digits (n : Z) : string :=
  if n <? 10 then "0" +:+ pretty n else pretty n.

(** [f"{x:.2f}"] for [x >= 0]: the decimal nearest to the value of the
    float, ties to even. *)
Definition format_2f (x : Q) : string :=
  let cents := round_div (Qnum x * 100) (Z.pos (Qden x)) in
  pretty (cents / 100) +:+ "." +:+ two_digits (cents mod 100).

(** The value and the index [i] when the loop is left; [None] when the
    conversion of the byte count to a float overflows. *)
Definition scaled (size_bytes : Z) : option (Q * nat) :=
  match float_of_int size_bytes with
  | Some x => Some (scale (length size_names - 1) x 0)
  | None => None
  end.

Definition unit_index (size_bytes : Z) : option nat :=
  match scaled size_bytes with
  | Some (_, i) => Some i
  | None => None
  end.

Definition format_size (size_bytes : Z) : result string :=
  if size_bytes =? 0 then Returned "0B"
  else
    match scaled size_bytes with
    | Some (x, i) => Returned (format_2f x +:+ " " +:+ nth i size_names "")
    | None => Raised OtherException
    end.

End Monitor.

(** ** Scripted environments

    The world is the number of calls answered so far, and each answer is a
    function of that number and of the arguments of the call. *)

Record answers : Type := mk_answers {
  on_head_bucket : nat -> string -> result unit;
  on_list_objects_v2 : nat -> string -> Z -> string -> result page;
  on_paginate : nat -> string -> string -> list page * option exn;
  on_get_object : nat -> string -> string -> result (list byte);
  on_body_read : nat -> option exn;
  on_head_object : nat -> string -> string -> result Z;
  on_put_object : nat -> string -> string -> list byte -> result unit;
  on_create_multipart_upload : nat -> string -> string -> result string;
  on_upload_part : nat -> string -> string -> Z -> string -> list byte -> result string;
  on_complete_multipart_upload :
    nat -> string -> string -> string -> list part -> result unit;
  on_abort_multipart_upload : nat -> string -> string -> string -> result unit;
  on_datetime_now : nat -> Z;
  on_file_write : nat -> write_outcome
}.

Definition scripted (a : answers) : Environment nat := {|
  src_head_bucket b n := (on_head_bucket a n b, S n);
  src_list_objects_v2 b k pfx n := (on_list_objects_v2 a n b k pfx, S n);
  src_paginate b pfx n := (on_paginate a n b pfx, S n);
  src_get_object b k n := (on_get_object a n b k, S n);
  body_read n := (on_body_read a n, S n);
  dst_head_object b k n := (on_head_object a n b k, S n);
  dst_put_object b k body n := (on_put_object a n b k body, S n);
  dst_create_multipart_upload b k n := (on_create_multipart_upload a n b k, S n);
  dst_upload_part b k pn u body n := (on_upload_part a n b k pn u body, S n);
  dst_complete_multipart_upload b k u ps n :=
    (on_complete_multipart_upload a n b k u ps, S n);
  dst_abort_multipart_upload b k u n := (on_abort_multipart_upload a n b k u, S n);
  datetime_now n := (on_datetime_now a n, S n);
  file_write n := (on_file_write a n, S n)
|}.

(** ** Statements of the specification, for comparison with the code *)

(** [relative_key] with the destination prefix in front, as lines 226-229
    put it. *)
Definition with_destination_prefix (destination_prefix relative_key : string) : string :=
  if Str.truthy destination_prefix
  then destination_prefix +:+ "/" +:+ relative_key
  else relative_key.

(** Removes one leading [c], if there is one. *)
Definition trim_one (c : ascii) (s : string) : string :=
  match s with
  | String a s' => if Ascii.eqb a c then s' else s
  | EmptyString => s
  end.

(** The key mapping in the words of the specification: the source prefix
    is stripped when configured, a single leading separator is trimmed, the
    destination prefix and ['/'] are put in front when configured. *)
Definition destination_key_single_trim (s : S3BulkTransfer) (source_key : string) : string :=
  let stripped :=
    if Str.truthy (source_prefix s)
    then Str.skip (String.length (source_prefix s)) source_key
    else source_key in
  with_destination_prefix (destination_prefix s) (trim_one "/" stripped).

(** The key mapping that strips the leading ['/'] characters whatever the
    source prefix is. *)
Definition destination_key_always_stripped (s : S3BulkTransfer) (source_key : string) : string :=
  with_destination_prefix (destination_prefix s)
    (Str.lstrip "/" (Str.skip (String.length (source_prefix s)) source_key)).

(** The [Prefix] parameter of [list_objects_v2] as the S3 API documents it:
    the listing is limited to the keys that begin with [Prefix]. *)
Definition keys_with_prefix (Prefix : string) (bucket : list object_summary)
    : list object_summary :=
  filter (fun o => Is_true (Str.startswith Prefix (Key o))) bucket.

(** ** Vocabulary of the statements about multipart copies *)

(** The successive reads of [n] bytes from a body, up to the empty read that
    ends the loop. *)
Inductive chunking (n : nat) : list byte -> list (list byte) -> Prop :=
| chunking_end : chunking n [] []
| chunking_read (stream : list byte) (chunks : list (list byte)) :
    stream <> [] ->
    chunking n (drop n stream) chunks ->
    chunking n stream (take n stream :: chunks).

(** The parts numbered from [first] on, one per etag. *)
Fixpoint numbered_parts (first : Z) (etags : list string) : list part :=
  match etags with
  | [] => []
  | etag :: rest => mk_part etag first :: numbered_parts (first + 1) rest
  end.

(** The [upload_part] calls that send [chunks] as the parts numbered from
    [first] on and are answered by [etags]. *)
Fixpoint upload_calls (Bucket Key UploadId : string) (first : Z)
    (chunks : list (list byte)) (etags : list string) : list call :=
  match chunks, etags with
  | chunk :: chunks', etag :: etags' =>
      UploadPart Bucket Key first UploadId chunk (Returned etag)
      :: upload_calls Bucket Key UploadId (first + 1) chunks' etags'
  | _, _ => []
  end.

Definition failure_of {A} (r : result A) : option exn :=
  match r with
  | Returned _ => None
  | Raised e => Some e
  end.

(** The exception a call of the multipart copy raised, if it raised one:
    the download, a part upload or the completion. *)
Definition copy_failure (c : call) : option exn :=
  match c with
  | GetObject _ _ r => failure_of r
  | UploadPart _ _ _ _ _ r => failure_of r
  | CompleteMultipartUpload _ _ _ _ r => failure_of r
  | _ => None
  end.

Definition is_upload_part (c : call) : bool :=
  match c with UploadPart _ _ _ _ _ _ => true | _ => false end.

Definition total_uploaded (cs : list call) : Z :=
  foldr (fun c acc => uploaded_bytes c + acc) 0 cs.

(** A computation that changes neither [self] nor the progress file, and
    only adds to the record of calls. *)
Definition framed {W A} (m : M W A) : Prop :=
  forall p r p', m p = (r, p') ->
    self p' = self p /\ progress_file p' = progress_file p
    /\ exists new, calls p' = calls p ++ new.

(** The settings of a run: the configuration of [self] and the statistics
    that transfers do not touch. *)
Definition same_settings (s s' : S3BulkTransfer) : Prop :=
  source_bucket s' = source_bucket s
  /\ destination_bucket s' = destination_bucket s
  /\ source_prefix s' = source_prefix s
  /\ destination_prefix s' = destination_prefix s
  /\ chunk_size s' = chunk_size s
  /\ total_files (self_stats s') = total_files (self_stats s)
  /\ total_size (self_stats s') = total_size (self_stats s)
  /\ start_time (self_stats s') = start_time (self_stats s)
  /\ end_time (self_stats s') = end_time (self_stats s).

(** The state in which the pool leaves a transfer that ended with [r] in
    the state [p]: an exception is counted as a failed file. *)
Definition collected {W} (r : result bool) (p : process W) : process W :=
  match r with
  | Returned _ => p
  | Raised _ => set_self (set_stats (count_failed (self_stats (self p))) (self p)) p
  end.

(** ** Vocabulary of the statements about successive runs *)

(** What [load_progress] makes of the progress file. *)
Definition ledger_of_file (f : file (gmap string transfer_record))
    : gmap string transfer_record :=
  match f with
  | Stored m => m
  | _ => ∅
  end.

(** The ledger in memory is the one a new process would load. *)
Definition synced {W} (p : process W) : Prop :=
  ledger_of_file (progress_file p) = completed_transfers (self p).

(** Each object of the list is answered skip by [should_skip_transfer] when
    the pool, started in [p], comes to it. *)
Fixpoint pool_skips_all {W} `{Environment W} (objects : list obj) (p : process W) : Prop :=
  match objects with
  | [] => True
  | o :: rest =>
      fst (should_skip_transfer (obj_key o) (obj_size o) p) = Returned true
      /\ pool_skips_all rest (snd (run_pool [o] p))
  end.

(** The statistics after [n] more files and [bytes] more bytes were counted
    as transferred. *)
Definition add_transferred (n bytes : Z) (st : stats) : stats :=
  mk_stats (total_files st) (transferred_files st + n) (failed_files st)
    (total_size st) (transferred_size st + bytes) (start_time st) (end_time st).

(** ** Fixtures *)

Definition example_self (source_prefix destination_prefix : string) (chunk_size : Z)
    (ledger : gmap string transfer_record) : S3BulkTransfer :=
  mk_self "src-bucket" "dst-bucket" source_prefix destination_prefix 1 chunk_size
    (mk_stats 0 0 0 0 0 None None) ledger.

Definition example_args (source_prefix destination_prefix : string) : Args :=
  mk_args "eu-west-1" "src-bucket" "dst-bucket" source_prefix destination_prefix
    1 2 false.

Definition example_bucket : list object_summary :=
  [mk_summary "data/2024/file.csv" 5 10;
   mk_summary "database/x" 5 11;
   mk_summary "logs/a" 5 12].

Definition example_body : list byte := [x01; x02; x03; x04; x05].

(** A script in which the source holds [example_bucket], every body is
    [example_body], the clock advances with every call, and the head checks,
    the uploads, the abort and the writes of the progress file are answered
    as given. *)
Definition script (head : nat -> string -> string -> result Z)
    (put : nat -> result unit) (upload : nat -> Z -> result string)
    (abort : result unit) (write : nat -> write_outcome) : answers := {|
  on_head_bucket _ _ := Returned tt;
  on_list_objects_v2 _ _ _ pfx := Returned (Some (keys_with_prefix pfx example_bucket));
  on_paginate _ _ pfx := ([Some (keys_with_prefix pfx example_bucket)], None);
  on_get_object _ _ _ := Returned example_body;
  on_body_read _ := None;
  on_head_object := head;
  on_put_object n _ _ _ := put n;
  on_create_multipart_upload _ _ _ := Returned "upload-1";
  on_upload_part n _ _ pn _ _ := upload n pn;
  on_complete_multipart_upload _ _ _ _ _ := Returned tt;
  on_abort_multipart_upload _ _ _ _ := abort;
  on_datetime_now n := Z.of_nat n;
  on_file_write := write
|}.

Definition etag_of (n : nat) (PartNumber : Z) : result string :=
  Returned ("etag-" +:+ pretty PartNumber).

(** Every call succeeds and the destination is empty: a head check raises
    [ClientError]. *)
Definition quiet : answers :=
  script (fun _ _ _ => Raised ClientError) (fun _ => Returned tt) etag_of
    (Returned tt) (fun _ => WriteOk).

(** The destination already holds every object, with 5 bytes. *)
Definition mirrored : answers :=
  script (fun _ _ _ => Returned 5) (fun _ => Returned tt) etag_of
    (Returned tt) (fun _ => WriteOk).

(** The first [put_object] of the process history fails with [ClientError];
    later ones succeed. *)
Definition flaky_put : answers :=
  script (fun _ _ _ => Raised ClientError)
    (fun n => if (n <=? 5)%nat then Raised ClientError else Returned tt) etag_of
    (Returned tt) (fun _ => WriteOk).

(** The upload of a part fails with an exception that is not [ClientError],
    a connection error for instance. *)
Definition broken_upload : answers :=
  script (fun _ _ _ => Raised ClientError) (fun _ => Returned tt)
    (fun _ _ => Raised OtherException) (Returned tt) (fun _ => WriteOk).

(** The destination refuses part 2 with [ClientError], and the abort fails
    too. *)
Definition rejected_upload : answers :=
  script (fun _ _ _ => Raised ClientError) (fun _ => Returned tt)
    (fun n pn => if pn =? 2 then Raised ClientError else etag_of n pn)
    (Raised OtherException) (fun _ => WriteOk).

(** The progress file cannot be opened for writing. *)
Definition readonly_disk : answers :=
  script (fun _ _ _ => Raised ClientError) (fun _ => Returned tt) etag_of
    (Returned tt) (fun _ => OpenFails).

Definition example_process (s : S3BulkTransfer)
    (disk : file (gmap string transfer_record)) : process nat :=
  mk_process s disk O [].

Definition example_credentials : gmap string string :=
  {[ "access_key" := "AKIA"; "secret_key" := "secret" ]}.

Definition small_obj : obj := mk_obj "data/2024/file.csv" 5 10.

Definition ledger_with_small_obj : gmap string transfer_record :=
  {[ "data/2024/file.csv" := mk_record 5 0 ]}.

(** A process with an empty ledger, and one whose ledger records
    [small_obj]; the prefixes are ["data"] and ["backup"], the chunk size is
    2 bytes. *)
Definition fresh_process : process nat :=
  example_process (example_self "data" "backup" 2 ∅) Missing.

Definition resumed_process : process nat :=
  example_process (example_self "data" "backup" 2 ledger_with_small_obj)
    (Stored ledger_with_small_obj).

(** [transfer_large_file] run on [fresh_process] under [a]. *)
Definition large_copy (a : answers) : result bool * process nat :=
  @transfer_large_file nat (scripted a) "data/2024/file.csv" "backup/2024/file.csv" 5
    fresh_process.

(** Two runs in succession under [a]: the state run 1 ends in, and the
    state run 2 ends in when it starts on the progress file and in the world
    run 1 left. *)
Definition first_run (a : answers) (args : Args) : process nat :=
  snd (@run_transfer nat (scripted a)
         (snd (@construct nat args Missing O))).

Definition second_run (a : answers) (args : Args) : process nat :=
  snd (@run_transfer nat (scripted a)
         (snd (@construct nat args
                 (progress_file (first_run a args)) (world (first_run a args))))).

(** ** Vocabulary of the further properties *)

(** A computation that no [ClientError] leaves. *)
Definition contains_ClientError {W A} (m : M W A) : Prop :=
  forall p, fst (m p) <> Raised ClientError.

(** [ceil(n / d)] for a positive [d]. *)
Definition ceil_div (n d : nat) : nat := ((n + d - 1) / d)%nat.

(** ** The summary of monitor_transfer.py (lines 13-21 and 102-132) *)

Module Summary.

(** [load_progress] of the monitor: the content of the progress file, the
    empty dict when the file is missing or cannot be read. *)
Definition load_progress (f : file (gmap string transfer_record))
    : gmap string transfer_record :=
  match f with
  | Stored progress => progress
  | _ => ∅
  end.

(** The lines [show_summary] prints.  A duration is in microseconds; the
    line of the average speed is kept as the two operands of its division. *)
Inductive line : Type :=
| NoProgressFound
| Heading
| Rule
| TotalFiles (total_files : nat)
| TotalSize (rendered : string)
| Duration (duration : Z)
| AverageSpeed (total_size duration : Z).

(** [progress.values()]. *)
Definition values (progress : gmap string transfer_record) : list transfer_record :=
  (map_to_list progress).*2.

(** [sum(item['size'] for item in progress.values())]. *)
Definition total_size (progress : gmap string transfer_record) : Z :=
  foldr (fun item acc => rec_size item + acc) 0 (values progress).

(** [max(timestamps) - min(timestamps)], and [timedelta(0)] for no
    timestamp. *)
Definition duration (timestamps : list Z) : Z :=
  match timestamps with
  | [] => 0
  | t :: rest => foldr Z.max t rest - foldr Z.min t rest
  end.

(** The lines printed and how the function ends: [format_size] raises for
    a total too large for a float, after the first three lines. *)
Definition show_summary (f : file (gmap string transfer_record))
    : list line * result unit :=
  let progress := load_progress f in
  if bool_decide (progress = ∅) then ([NoProgressFound], Returned tt)
  else
    let total_files := size progress in
    let total := total_size progress in
    let d := duration (rec_timestamp <$> values progress) in
    match Monitor.format_size total with
    | Raised e => ([Heading; Rule; TotalFiles total_files], Raised e)
    | Returned rendered =>
        ([Heading; Rule; TotalFiles total_files; TotalSize rendered; Duration d]
           ++ (if 0 <? d then [AverageSpeed total d] else [])
           ++ [Rule],
         Returned tt)
    end.

End Summary.

(** ** Fixtures of the further properties *)

(** The destination refuses to create a multipart upload. *)
Definition refused_creation : answers := {|
  on_head_bucket _ _ := Returned tt;
  on_list_objects_v2 _ _ _ pfx := Returned (Some (keys_with_prefix pfx example_bucket));
  on_paginate _ _ pfx := ([Some (keys_with_prefix pfx example_bucket)], None);
  on_get_object _ _ _ := Returned example_body;
  on_body_read _ := None;
  on_head_object _ _ _ := Raised ClientError;
  on_put_object _ _ _ _ := Returned tt;
  on_create_multipart_upload _ _ _ := Raised ClientError;
  on_upload_part n _ _ pn _ _ := etag_of n pn;
  on_complete_multipart_upload _ _ _ _ _ := Returned tt;
  on_abort_multipart_upload _ _ _ _ := Returned tt;
  on_datetime_now n := Z.of_nat n;
  on_file_write _ := WriteOk
|}.

(** A process configured with a chunk size of 0, and one configured with no
    worker. *)
Definition zero_chunk_process : process nat :=
  example_process (example_self "data" "backup" 0 ∅) Missing.

Definition idle_process : process nat :=
  example_process
    (mk_self "src-bucket" "dst-bucket" "data" "backup" 0 2 (mk_stats 0 0 0 0 0 None None) ∅)
    Missing.

(** * Theorems *)

(** ** Strings *)

Lemma skip_length_app (p s : string) : Str.skip (String.length p) (p +:+ s) = s.
Proof. induction p as [|a p IH]; simpl; [reflexivity | exact IH]. Qed.

Lemma lstrip_replicate (c : ascii) (n : nat) (rest : string) :
  Str.not_starting_with c rest ->
  Str.lstrip c (Str.replicate n c +:+ rest) = rest.
Proof.
  intros Hrest. induction n as [|n IH]; simpl.
  - destruct rest as [|a rest]; simpl; [reflexivity|].
    simpl in Hrest. destruct (Ascii.eqb_spec a c); [contradiction | reflexivity].
  - rewrite Ascii.eqb_refl. exact IH.
Qed.

Lemma rstrip_replicate (c : ascii) (n : nat) : Str.rstrip c (Str.replicate n c) = "".
Proof.
  induction n as [|n IH]; simpl; [reflexivity|].
  rewrite IH, Ascii.eqb_refl. reflexivity.
Qed.

Lemma append_nil (s : string) : "" +:+ s = s.
Proof. reflexivity. Qed.

Lemma append_cons (a : ascii) (s t : string) : String a s +:+ t = String a (s +:+ t).
Proof. reflexivity. Qed.

Lemma rstrip_app_replicate (c : ascii) (base : string) (n : nat) :
  Str.not_ending_with c base ->
  Str.rstrip c (base +:+ Str.replicate n c) = base.
Proof.
  induction base as [|a base IH]; intros Hbase.
  - apply rstrip_replicate.
  - rewrite append_cons. cbn [Str.rstrip]. destruct base as [|b base].
    + simpl in Hbase. rewrite append_nil, rstrip_replicate.
      destruct (Ascii.eqb_spec a c); [contradiction | reflexivity].
    + rewrite IH by exact Hbase. reflexivity.
Qed.

Lemma rstrip_not_ending_with (c : ascii) (s : string) :
  Str.not_ending_with c (Str.rstrip c s).
Proof.
  induction s as [|a s IH]; simpl; [exact I|].
  destruct (Str.rstrip c s) as [|b r] eqn:E.
  - destruct (Ascii.eqb_spec a c); simpl; [exact I | assumption].
  - exact IH.
Qed.

Lemma lstrip_not_starting_with (c : ascii) (s : string) :
  Str.not_starting_with c (Str.lstrip c s).
Proof.
  induction s as [|a s IH]; simpl; [exact I|].
  destruct (Ascii.eqb_spec a c); [exact IH | simpl; assumption].
Qed.

(** ** Destination keys *)

Lemma get_destination_key_unfold (s : S3BulkTransfer) (source_key : string) :
  get_destination_key s source_key =
  with_destination_prefix (destination_prefix s)
    (if Str.truthy (source_prefix s)
     then Str.lstrip "/" (Str.skip (String.length (source_prefix s)) source_key)
     else source_key).
Proof. reflexivity. Qed.

(** The destination key of a key made of the source prefix, [n] separators
    and a remainder that does not begin with a separator. *)
Lemma get_destination_key_under_prefix (s : S3BulkTransfer) (n : nat) (rest : string) :
  Str.not_starting_with "/" rest ->
  get_destination_key s (source_prefix s +:+ Str.replicate n "/" +:+ rest) =
    with_destination_prefix (destination_prefix s)
      (if Str.truthy (source_prefix s) then rest else Str.replicate n "/" +:+ rest).
Proof.
  intros Hrest. rewrite get_destination_key_unfold.
  destruct (Str.truthy (source_prefix s)) eqn:Hp.
  - rewrite skip_length_app, lstrip_replicate by exact Hrest. reflexivity.
  - destruct (source_prefix s); [reflexivity | discriminate].
Qed.

(** C6, as the code has it: for a key that begins with the configured source
    prefix, the prefix is removed and then every leading ['/'] of what is
    left, not only one; with no source prefix the key is kept as it is.  The
    destination prefix and ['/'] are put in front when a destination prefix is
    configured.  ["data/2024/file.csv"] with prefixes ["data"] and ["backup"]
    maps to ["backup/2024/file.csv"]. *)
Theorem get_destination_key_strips_every_separator
    (s : S3BulkTransfer) (n : nat) (rest : string) :
  Str.not_starting_with "/" rest ->
  get_destination_key s (source_prefix s +:+ Str.replicate n "/" +:+ rest) =
    with_destination_prefix (destination_prefix s)
      (if Str.truthy (source_prefix s) then rest else Str.replicate n "/" +:+ rest)
  /\ get_destination_key (example_self "data" "backup" 2 ∅) "data/2024/file.csv"
     = "backup/2024/file.csv".
Proof.
  intros Hrest. split; [|reflexivity].
  apply get_destination_key_under_prefix. exact Hrest.
Qed.

Lemma get_destination_key_strips_every_separator_witness :
  get_destination_key (example_self "data" "backup" 2 ∅) "data///2024/file.csv"
    = "backup/2024/file.csv".
Proof.
  exact (proj1 (get_destination_key_strips_every_separator
                  (example_self "data" "backup" 2 ∅) 3 "2024/file.csv"
                  ltac:(simpl; discriminate))).
Defined.

(** C6, as stated, fails: the key ["data//x"] under the source prefix ["data"]
    maps to ["x"], where trimming a single separator would give ["/x"]. *)
Lemma single_trim_differs :
  get_destination_key (example_self "data" "" 2 ∅) "data//x" = "x"
  /\ destination_key_single_trim (example_self "data" "" 2 ∅) "data//x" = "/x"
  /\ get_destination_key (example_self "data" "" 2 ∅) "data//x"
     <> destination_key_single_trim (example_self "data" "" 2 ∅) "data//x".
Proof. repeat split; try reflexivity. discriminate. Qed.

(** ** Size formatting *)

Lemma scale_index_ge (remaining : nat) (x : Q) (i : nat) :
  (i <= snd (Monitor.scale remaining x i))%nat.
Proof.
  revert x i. induction remaining as [|r IH]; intros x i; simpl; [lia|].
  destruct (Qle_bool (inject_Z 1024) x); simpl; [|lia].
  specialize (IH (x / inject_Z 1024)%Q (S i)). lia.
Qed.

Lemma scale_index_le (remaining : nat) (x : Q) (i : nat) :
  (snd (Monitor.scale remaining x i) <= i + remaining)%nat.
Proof.
  revert x i. induction remaining as [|r IH]; intros x i; simpl; [lia|].
  destruct (Qle_bool (inject_Z 1024) x); simpl; [|lia].
  specialize (IH (x / inject_Z 1024)%Q (S i)). lia.
Qed.

Lemma scale_index_monotone (remaining : nat) (x y : Q) (i : nat) :
  (x <= y)%Q ->
  (snd (Monitor.scale remaining x i) <= snd (Monitor.scale remaining y i))%nat.
Proof.
  revert x y i. induction remaining as [|r IH]; intros x y i Hxy; simpl; [lia|].
  destruct (Qle_bool (inject_Z 1024) x) eqn:Hx.
  - apply Qle_bool_iff in Hx.
    assert (Hy : Qle_bool (inject_Z 1024) y = true).
    { apply Qle_bool_iff. eapply Qle_trans; eassumption. }
    rewrite Hy. apply IH.
    unfold Qdiv. apply Qmult_le_compat_r; [exact Hxy|].
    unfold Qle. simpl. lia.
  - simpl. destruct (Qle_bool (inject_Z 1024) y); simpl; [|lia].
    pose proof (scale_index_ge r (y / inject_Z 1024)%Q (S i)). lia.
Qed.

(** A value of at least [1024 ^ remaining] is divided [remaining] times. *)
Lemma scale_index_full (remaining : nat) (x : Q) (i : nat) :
  (inject_Z (1024 ^ Z.of_nat remaining) <= x)%Q ->
  snd (Monitor.scale remaining x i) = (i + remaining)%nat.
Proof.
  revert x i. induction remaining as [|r IH]; intros x i Hx; simpl; [lia|].
  assert (Hpow : 1024 ^ Z.of_nat (S r) = 1024 * 1024 ^ Z.of_nat r).
  { rewrite Nat2Z.inj_succ, Z.pow_succ_r by lia. reflexivity. }
  rewrite Hpow in Hx.
  assert (Hr : 0 < 1024 ^ Z.of_nat r) by (apply Z.pow_pos_nonneg; lia).
  assert (H1024 : Qle_bool (inject_Z 1024) x = true).
  { apply Qle_bool_iff. eapply Qle_trans; [|exact Hx].
    rewrite <- Zle_Qle. nia. }
  rewrite H1024, IH; [lia|].
  apply Qle_shift_div_l; [reflexivity|].
  eapply Qle_trans; [|exact Hx].
  rewrite <- inject_Z_mult, <- Zle_Qle. lia.
Qed.

Lemma round_div_ge (n d : Z) : 0 < d -> n / d <= Monitor.round_div n d.
Proof.
  intros Hd. unfold Monitor.round_div.
  destruct (2 * (n mod d) <? d); [lia|].
  destruct (d <? 2 * (n mod d)); [lia|].
  destruct (Z.even (n / d)); lia.
Qed.

(** Below [2^53] the conversion to a float is exact. *)
Lemma float_of_int_exact (n : Z) :
  0 <= n < 2 ^ 53 -> Monitor.float_of_int n = Some (inject_Z n).
Proof.
  intros [Hn Hlt]. unfold Monitor.float_of_int.
  rewrite Z.abs_eq by exact Hn.
  assert (He : Z.log2 n - 52 <= 0).
  { destruct (Z.eq_dec n 0) as [->|Hnz]; [simpl; lia|].
    assert (Z.log2 n < 53) by (apply Z.log2_lt_pow2; lia). lia. }
  destruct (Z.leb_spec (Z.log2 n - 52) 0) as [_|]; [|lia].
  destruct (Z.leb_spec (2 ^ 1024) n) as [Hbig|_].
  - assert (2 ^ 53 < 2 ^ 1024) by (apply Z.pow_lt_mono_r; lia). lia.
  - destruct (Z.eq_dec n 0) as [->|Hnz]; [reflexivity|].
    rewrite Z.sgn_pos by lia. rewrite Z.mul_1_l. reflexivity.
Qed.

(** From [2^53] on the float is at least [2^53]. *)
Lemma float_of_int_large (n : Z) (x : Q) :
  2 ^ 53 <= n -> Monitor.float_of_int n = Some x -> (inject_Z (2 ^ 53) <= x)%Q.
Proof.
  intros Hn. unfold Monitor.float_of_int.
  assert (Hpos : 0 < n) by (pose proof (Z.pow_pos_nonneg 2 53); lia).
  rewrite Z.abs_eq, Z.sgn_pos, Z.mul_1_l by lia.
  assert (Hlog : 53 <= Z.log2 n) by (apply Z.log2_le_pow2; lia).
  set (e := Z.log2 n - 52).
  destruct (Z.leb_spec e 0) as [|He]; [lia|].
  destruct (2 ^ 1024 <=? _); [discriminate|]. intros [= <-].
  rewrite <- Zle_Qle.
  assert (H2e : 0 < 2 ^ e) by (apply Z.pow_pos_nonneg; lia).
  pose proof (round_div_ge n (2 ^ e) H2e) as Hround.
  assert (Hfloor : 2 ^ 52 <= n / 2 ^ e).
  { apply Z.div_le_lower_bound; [exact H2e|].
    rewrite <- Z.pow_add_r by lia. replace (e + 52) with (Z.log2 n) by lia.
    apply Z.log2_spec. exact Hpos. }
  assert (H53 : 2 ^ 53 = 2 ^ 52 * 2 ^ 1) by reflexivity.
  assert (H21 : 2 ^ 1 <= 2 ^ e) by (apply Z.pow_le_mono_r; lia).
  assert (0 < 2 ^ 52) by reflexivity.
  rewrite H53. apply Z.mul_le_mono_nonneg; lia.
Qed.

(** C9: a byte count of 0 renders as ["0B"]; 1536 renders in the unit one
    step up from bytes, as ["1.50 KB"]; the index of the chosen unit never
    decreases as the byte count grows; a unit is chosen for every byte count
    below [2^53]; and the rendering of a byte count other than 0 ends with the
    name of the chosen unit. *)
Theorem format_size_units :
  Monitor.format_size 0 = Returned "0B"
  /\ Monitor.format_size 1536 = Returned "1.50 KB"
  /\ Monitor.unit_index 1536 = Some 1%nat
  /\ (forall (a b : Z) (i j : nat),
        0 <= a -> a <= b ->
        Monitor.unit_index a = Some i -> Monitor.unit_index b = Some j ->
        (i <= j)%nat)
  /\ (forall n : Z, 0 <= n < 2 ^ 53 -> exists i, Monitor.unit_index n = Some i)
  /\ (forall (n : Z) (rendered : string),
        n <> 0 -> Monitor.format_size n = Returned rendered ->
        exists (digits : string) (i : nat),
          Monitor.unit_index n = Some i
          /\ rendered = digits +:+ " " +:+ nth i Monitor.size_names "").
Proof.
  split; [reflexivity|]. split; [vm_compute; reflexivity|].
  split; [vm_compute; reflexivity|]. split; [|split].
  - intros a b i j Ha Hab. unfold Monitor.unit_index, Monitor.scaled.
    destruct (Monitor.float_of_int a) as [x|] eqn:Hx; [|discriminate].
    destruct (Monitor.float_of_int b) as [y|] eqn:Hy; [|discriminate].
    destruct (Monitor.scale _ x 0) as [vx ix] eqn:Hsx.
    destruct (Monitor.scale _ y 0) as [vy iy] eqn:Hsy.
    intros [= <-] [= <-].
    change ix with (snd (vx, ix)). change iy with (snd (vy, iy)).
    rewrite <- Hsx, <- Hsy.
    destruct (Z_lt_le_dec b (2 ^ 53)) as [Hsmall | Hlarge].
    + rewrite float_of_int_exact in Hx, Hy by lia.
      injection Hx as <-. injection Hy as <-.
      apply scale_index_monotone. rewrite <- Zle_Qle. exact Hab.
    + pose proof (float_of_int_large b y Hlarge Hy) as Hbig.
      rewrite (scale_index_full _ y 0).
      * apply (scale_index_le _ x 0).
      * eapply Qle_trans; [|exact Hbig]. rewrite <- Zle_Qle. simpl. lia.
  - intros n Hn. unfold Monitor.unit_index, Monitor.scaled.
    rewrite float_of_int_exact by exact Hn.
    destruct (Monitor.scale _ _ 0) as [v i]. eauto.
  - intros n rendered Hn. unfold Monitor.format_size, Monitor.unit_index.
    destruct (n =? 0) eqn:E; [apply Z.eqb_eq in E; contradiction|].
    destruct (Monitor.scaled n) as [[x i]|]; [|discriminate].
    intros [= <-]. exists (Monitor.format_2f x), i. split; reflexivity.
Qed.

(** The unit steps at the powers of 1024 and stays at the last name; an
    integer that no float can hold makes the conversion fail. *)
Example format_size_samples :
  Monitor.format_size 1023 = Returned "1023.00 B"
  /\ Monitor.format_size 1024 = Returned "1.00 KB"
  /\ Monitor.format_size (1024 * 1024 * 1024) = Returned "1.00 GB"
  /\ Monitor.format_size (2 ^ 60) = Returned "1048576.00 TB"
  /\ Monitor.format_size (2 ^ 60 + 1) = Returned "1048576.00 TB"
  /\ Monitor.format_size (2 ^ 1024) = Raised OtherException.
Proof. repeat split; vm_compute; reflexivity. Qed.

(** ** The engine *)

Section EngineFacts.

Context {W : Type} `{Environment W}.

Lemma in_ledger_true (m : gmap string transfer_record) (key : string) (size : Z) :
  in_ledger m key size = true <-> exists r, m !! key = Some r /\ rec_size r = size.
Proof.
  unfold in_ledger. destruct (m !! key) as [r|].
  - rewrite Z.eqb_eq. split; [eauto|]. intros (r' & Hr & Hs). congruence.
  - split; [discriminate|]. intros (r' & Hr & _). discriminate.
Qed.

Lemma in_ledger_false (m : gmap string transfer_record) (key : string) (size : Z) :
  in_ledger m key size = false <-> forall r, m !! key = Some r -> rec_size r <> size.
Proof.
  unfold in_ledger. destruct (m !! key) as [r|].
  - rewrite Z.eqb_neq. split; [intros Hne r' Hr'; congruence | eauto].
  - split; [intros _ r' Hr'; discriminate | reflexivity].
Qed.

(** What [should_skip_transfer] does, by cases on the ledger and on the
    answer to the head check. *)
Lemma should_skip_transfer_cases (p : process W) (source_key : string) (source_size : Z) :
  let s := self p in
  let dest_key := get_destination_key s source_key in
  should_skip_transfer source_key source_size p =
    if in_ledger (completed_transfers s) source_key source_size
    then (Returned true, p)
    else
      let (r, w) := dst_head_object (destination_bucket s) dest_key (world p) in
      let p' := log_call (HeadObject (destination_bucket s) dest_key r) (set_world w p) in
      match r with
      | Returned ContentLength => (Returned (ContentLength =? source_size), p')
      | Raised ClientError => (Returned false, p')
      | Raised OtherException => (Raised OtherException, p')
      end.
Proof.
  unfold should_skip_transfer, bind, get_self, try_except, head_object, invoke, ret.
  cbn zeta. destruct (in_ledger _ _ _); [reflexivity|].
  destruct (dst_head_object _ _ _) as [[n|[|]] w]; simpl; try reflexivity.
  destruct (n =? source_size); reflexivity.
Qed.

(** C1: a ledger record for the key with the live source size makes
    [should_skip_transfer] answer skip at once, with no request to the
    destination, so also when the destination object is absent.  Without such a
    record one head check is made, at the mapped destination key, and skip is
    answered exactly when it reports a [ContentLength] equal to the source
    size. *)
Theorem should_skip_transfer_ledger_first
    (p : process W) (source_key : string) (source_size : Z) :
  (forall r, completed_transfers (self p) !! source_key = Some r ->
             rec_size r = source_size ->
             should_skip_transfer source_key source_size p = (Returned true, p))
  /\ ((forall r, completed_transfers (self p) !! source_key = Some r ->
                 rec_size r <> source_size) ->
      let dest_key := get_destination_key (self p) source_key in
      let head := dst_head_object (destination_bucket (self p)) dest_key (world p) in
      (fst (should_skip_transfer source_key source_size p) = Returned true
       <-> fst head = Returned source_size)
      /\ calls (snd (should_skip_transfer source_key source_size p)) =
         calls p ++ [HeadObject (destination_bucket (self p)) dest_key (fst head)]).
Proof.
  pose proof (should_skip_transfer_cases p source_key source_size) as Hc.
  cbn zeta in Hc. split.
  - intros r Hr Hs. rewrite Hc.
    rewrite (proj2 (in_ledger_true _ _ _)) by eauto. reflexivity.
  - intros Hno. cbn zeta. rewrite Hc.
    rewrite (proj2 (in_ledger_false _ _ _)) by exact Hno.
    destruct (dst_head_object _ _ _) as [[n|[|]] w]; simpl; split;
      try reflexivity; try (split; discriminate).
    destruct (Z.eqb_spec n source_size) as [->|Hne]; split; try reflexivity;
      intros Heq; congruence.
Qed.

(** C2: an object that is not skipped is copied by [transfer_small_file]
    exactly when its size is at most 100 MiB and by [transfer_large_file]
    exactly when its size is greater; a size of exactly 100 MiB is a simple
    copy. *)
Theorem transfer_method_threshold (p p1 : process W) (o : obj) :
  should_skip_transfer (obj_key o) (obj_size o) p = (Returned false, p1) ->
  (transfer_method (obj_size o) = Simple <-> obj_size o <= 104857600)
  /\ (transfer_method (obj_size o) = Multipart <-> obj_size o > 104857600)
  /\ transfer_method 104857600 = Simple
  /\ transfer_method (104857600 + 1) = Multipart
  /\ transfer_file o p =
     (let dest_key := get_destination_key (self p) (obj_key o) in
      success <- (if obj_size o <=? 104857600
                  then transfer_small_file (obj_key o) dest_key (obj_size o)
                  else transfer_large_file (obj_key o) dest_key (obj_size o)) ;;
      settle (obj_key o) (obj_size o) success) p1.
Proof.
  intros Hskip.
  assert (Hm : transfer_method (obj_size o) =
               if obj_size o <=? 104857600 then Simple else Multipart).
  { unfold transfer_method. change (100 * 1024 * 1024) with 104857600.
    destruct (Z.leb_spec (obj_size o) 104857600), (Z.gtb_spec (obj_size o) 104857600);
      try reflexivity; lia. }
  repeat split; try reflexivity.
  - rewrite Hm. destruct (Z.leb_spec (obj_size o) 104857600); [lia | discriminate].
  - rewrite Hm. destruct (Z.leb_spec (obj_size o) 104857600); [reflexivity | lia].
  - rewrite Hm. destruct (Z.leb_spec (obj_size o) 104857600); [discriminate | lia].
  - rewrite Hm. destruct (Z.leb_spec (obj_size o) 104857600); [lia | reflexivity].
  - unfold transfer_file. cbn zeta. unfold bind at 1. unfold get_self at 1.
    unfold bind at 1. rewrite Hskip. cbn iota. rewrite Hm.
    destruct (obj_size o <=? 104857600); reflexivity.
Qed.

(** ** Multipart copies *)

Lemma take_nil_inv {A} (n : nat) (l : list A) : (0 < n)%nat -> take n l = [] -> l = [].
Proof. destruct n, l; simpl; intros; try lia; try reflexivity; discriminate. Qed.

Lemma stream_read_inv (amt : Z) (stream : list byte) (p : process W)
    (r : result (list byte * list byte)) (p' : process W) :
  stream_read amt stream p = (r, p') ->
  self p' = self p /\ progress_file p' = progress_file p /\ calls p' = calls p
  /\ (exists e, r = Raised e) \/
     (let n := if amt <? 0 then length stream else Z.to_nat amt in
      r = Returned (take n stream, drop n stream)
      /\ self p' = self p /\ progress_file p' = progress_file p /\ calls p' = calls p).
Proof.
  unfold stream_read. destruct (body_read (world p)) as [[e|] w]; intros [= <- <-]; simpl.
  - left. eauto.
  - right. auto.
Qed.

Lemma upload_parts_returned (fuel : nat) (s : S3BulkTransfer) (dest_key upload_id : string) :
  0 < chunk_size s ->
  forall (stream : list byte) (parts : list part) (n : Z) (p : process W)
         (parts' : list part) (p' : process W),
    upload_parts fuel s dest_key upload_id stream parts n p = Some (Returned parts', p') ->
    exists chunks etags,
      chunking (Z.to_nat (chunk_size s)) stream chunks
      /\ length etags = length chunks
      /\ parts' = parts ++ numbered_parts n etags
      /\ calls p' = calls p ++ upload_calls (destination_bucket s) dest_key upload_id n
                                chunks etags
      /\ self p' = self p /\ progress_file p' = progress_file p.
Proof.
  intros Hpos. induction fuel as [|fuel IH]; intros stream parts n p parts' p' Hrun;
    [discriminate|].
  cbn [upload_parts] in Hrun.
  destruct (stream_read (chunk_size s) stream p) as [r p1] eqn:Hread.
  apply stream_read_inv in Hread.
  destruct Hread as [(_ & _ & _ & e & ->) | Hread]; [discriminate|].
  cbn zeta in Hread. destruct (Z.ltb_spec (chunk_size s) 0) as [|_]; [lia|].
  destruct Hread as (-> & Hs1 & Hf1 & Hc1).
  destruct (take (Z.to_nat (chunk_size s)) stream) as [|b chunk] eqn:Hchunk.
  - injection Hrun as <- <-. apply take_nil_inv in Hchunk; [|lia]. subst stream.
    exists [], []. rewrite !app_nil_r. repeat split; auto. constructor.
  - unfold upload_part, invoke in Hrun.
    destruct (dst_upload_part _ _ _ _ _ (world p1)) as [[etag|e] w]; [|discriminate].
    apply IH in Hrun. destruct Hrun as (chunks & etags & Hch & Hlen & -> & Hcalls & Hs & Hf).
    exists ((b :: chunk) :: chunks), (etag :: etags). simpl in Hcalls, Hs, Hf.
    repeat split.
    + rewrite <- Hchunk. constructor; [|exact Hch].
      intros ->. rewrite take_nil in Hchunk. discriminate.
    + simpl. congruence.
    + simpl. rewrite <- app_assoc. reflexivity.
    + rewrite Hcalls, Hc1, <- app_assoc. reflexivity.
    + congruence.
    + congruence.
Qed.

(** Whatever the outcome of the loop, it only makes [upload_part] calls, and
    it stops at the first of them that raises, with its exception. *)
Lemma upload_parts_calls (fuel : nat) (s : S3BulkTransfer) (dest_key upload_id : string) :
  forall (stream : list byte) (parts : list part) (n : Z) (p : process W)
         (res : result (list part)) (p' : process W),
    upload_parts fuel s dest_key upload_id stream parts n p = Some (res, p') ->
    exists new,
      calls p' = calls p ++ new
      /\ Forall (fun c => is_upload_part c = true) new
      /\ (forall c e, In c new -> copy_failure c = Some e -> res = Raised e)
      /\ self p' = self p /\ progress_file p' = progress_file p.
Proof.
  induction fuel as [|fuel IH]; intros stream parts n p res p' Hrun; [discriminate|].
  cbn [upload_parts] in Hrun.
  destruct (stream_read (chunk_size s) stream p) as [r p1] eqn:Hread.
  apply stream_read_inv in Hread.
  destruct Hread as [(Hs1 & Hf1 & Hc1 & e & ->) | Hread].
  - injection Hrun as <- <-. exists []. rewrite app_nil_r.
    repeat split; auto. intros c e' [].
  - cbn zeta in Hread. destruct Hread as (-> & Hs1 & Hf1 & Hc1).
    destruct (take _ stream) as [|b chunk].
    + injection Hrun as <- <-. exists []. rewrite app_nil_r.
      repeat split; auto. intros c e' [].
    + unfold upload_part, invoke in Hrun.
      destruct (dst_upload_part _ _ _ _ _ (world p1)) as [[etag|e] w].
      * apply IH in Hrun. destruct Hrun as (new & Hcalls & Hall & Hfail & Hs & Hf).
        simpl in Hcalls, Hs, Hf.
        exists (UploadPart (destination_bucket s) dest_key n upload_id (b :: chunk)
                  (Returned etag) :: new).
        repeat split.
        -- rewrite Hcalls, Hc1, <- app_assoc. reflexivity.
        -- constructor; [reflexivity | exact Hall].
        -- intros c e [<- | Hin] Hc; [discriminate | eauto].
        -- congruence.
        -- congruence.
      * injection Hrun as <- <-.
        exists [UploadPart (destination_bucket s) dest_key n upload_id (b :: chunk)
                  (Raised e)].
        simpl. repeat split; try congruence.
        -- repeat constructor.
        -- intros c e' [<- | []] [= ->]. reflexivity.
Qed.

(** One iteration more than the body has bytes is enough for the loop to
    leave, whatever the chunk size and whatever the services answer. *)
Lemma upload_parts_terminates (fuel : nat) (s : S3BulkTransfer)
    (dest_key upload_id : string) :
  forall (stream : list byte) (parts : list part) (n : Z) (p : process W),
    (length stream < fuel)%nat ->
    exists done, upload_parts fuel s dest_key upload_id stream parts n p = Some done.
Proof.
  induction fuel as [|fuel IH]; intros stream parts n p Hfuel; [lia|].
  cbn [upload_parts].
  destruct (stream_read (chunk_size s) stream p) as [r p1] eqn:Hread.
  apply stream_read_inv in Hread.
  destruct Hread as [(_ & _ & _ & e & ->) | Hread]; [eauto|].
  cbn zeta in Hread. destruct Hread as (-> & _).
  set (k := if chunk_size s <? 0 then length stream else Z.to_nat (chunk_size s)).
  destruct (take k stream) as [|b chunk] eqn:Hchunk; [eauto|].
  destruct (upload_part _ _ _ _ _ p1) as [[etag|e] p2]; [|eauto].
  apply IH.
  assert (k <> 0%nat) by (intros Hk; rewrite Hk in Hchunk; discriminate).
  assert (stream <> []) by (intros ->; rewrite take_nil in Hchunk; discriminate).
  rewrite length_drop. destruct stream; [contradiction | simpl in *; lia].
Qed.

Lemma upload_all_parts_run (s : S3BulkTransfer) (dest_key upload_id : string)
    (stream : list byte) (p : process W) :
  upload_parts (S (length stream)) s dest_key upload_id stream [] 1 p =
  Some (upload_all_parts s dest_key upload_id stream p).
Proof.
  unfold upload_all_parts.
  destruct (upload_parts_terminates (S (length stream)) s dest_key upload_id stream [] 1 p)
    as [done ->]; [lia | reflexivity].
Qed.

Lemma abort_and_report_bound (s : S3BulkTransfer) (dest_key upload_id : string)
    (p : process W) :
  abort_and_report s dest_key (Some upload_id) p =
  let (ra, w) := dst_abort_multipart_upload (destination_bucket s) dest_key upload_id
                   (world p) in
  (Returned false,
   log_call (AbortMultipartUpload (destination_bucket s) dest_key upload_id ra)
     (set_world w p)).
Proof.
  unfold abort_and_report, bind, try_except, abort_multipart_upload, invoke, ret.
  destruct (dst_abort_multipart_upload _ _ _ _) as [[[]|e] w]; reflexivity.
Qed.

Lemma abort_and_report_unbound (s : S3BulkTransfer) (dest_key : string) (p : process W) :
  abort_and_report s dest_key None p = (Returned false, p).
Proof. reflexivity. Qed.

(** [transfer_large_file], call by call. *)
Lemma transfer_large_file_unfold (source_key dest_key : string) (size : Z) (p : process W) :
  transfer_large_file source_key dest_key size p =
  let s := self p in
  let on_error (upload_id : option string) (e : exn) (q : process W) :=
    if is_ClientError e then abort_and_report s dest_key upload_id q else (Raised e, q) in
  match create_multipart_upload (destination_bucket s) dest_key p with
  | (Raised e, p1) => on_error None e p1
  | (Returned upload_id, p1) =>
      match get_object (source_bucket s) source_key p1 with
      | (Raised e, p2) => on_error (Some upload_id) e p2
      | (Returned stream, p2) =>
          match upload_all_parts s dest_key upload_id stream p2 with
          | (Raised e, p3) => on_error (Some upload_id) e p3
          | (Returned parts, p3) =>
              match complete_multipart_upload (destination_bucket s) dest_key
                      upload_id parts p3 with
              | (Raised e, p4) => on_error (Some upload_id) e p4
              | (Returned _, p4) => (Returned true, p4)
              end
          end
      end
  end.
Proof.
  unfold transfer_large_file, bind, get_self, try_except, ret. cbn zeta.
  destruct (create_multipart_upload _ _ p) as [[upload_id|[|]] p1]; try reflexivity.
  destruct (get_object _ _ p1) as [[stream|[|]] p2]; try reflexivity.
  destruct (upload_all_parts _ _ _ _ p2) as [[parts|[|]] p3]; try reflexivity.
  destruct (complete_multipart_upload _ _ _ _ p3) as [[[]|[|]] p4]; reflexivity.
Qed.

Lemma invoke_inv {A} (op : W -> result A * W) (entry : result A -> call)
    (p : process W) (r : result A) (p' : process W) :
  invoke op entry p = (r, p') ->
  calls p' = calls p ++ [entry r] /\ self p' = self p
  /\ progress_file p' = progress_file p /\ op (world p) = (r, world p').
Proof.
  unfold invoke. destruct (op (world p)) as [r0 w]. intros [= <- <-]. auto.
Qed.

Lemma numbered_parts_numbers (first : Z) (etags : list string) :
  PartNumber <$> numbered_parts first etags = seqZ first (Z.of_nat (length etags)).
Proof.
  revert first. induction etags as [|etag etags IH]; intros first; [reflexivity|].
  cbn [numbered_parts fmap list_fmap length]. rewrite seqZ_cons by lia.
  f_equal. change (list_fmap _ _ PartNumber ?l) with (PartNumber <$> l).
  rewrite IH. f_equal; lia.
Qed.

Lemma chunking_concat (n : nat) (stream : list byte) (chunks : list (list byte)) :
  chunking n stream chunks -> concat chunks = stream.
Proof.
  induction 1 as [|stream chunks _ _ IH]; [reflexivity|].
  simpl. rewrite IH. apply take_drop.
Qed.

Lemma chunking_nonempty (n : nat) (stream : list byte) (chunks : list (list byte)) :
  (0 < n)%nat -> chunking n stream chunks ->
  Forall (fun c => c <> [] /\ (length c <= n)%nat) chunks.
Proof.
  intros Hn. induction 1 as [|stream chunks Hne _ IH]; constructor; [|exact IH].
  split.
  - intros Hnil. apply take_nil_inv in Hnil; [contradiction | exact Hn].
  - rewrite length_take. lia.
Qed.

Lemma total_uploaded_app (cs ds : list call) :
  total_uploaded (cs ++ ds) = total_uploaded cs + total_uploaded ds.
Proof.
  unfold total_uploaded. induction cs as [|c cs IH]; simpl; [reflexivity|].
  rewrite IH. lia.
Qed.

Lemma total_uploaded_upload_calls (b k u : string) (first : Z)
    (chunks : list (list byte)) (etags : list string) :
  length etags = length chunks ->
  total_uploaded (upload_calls b k u first chunks etags) = Z.of_nat (length (concat chunks)).
Proof.
  revert first etags. induction chunks as [|c chunks IH]; intros first [|e etags] Hlen;
    try discriminate; [reflexivity|].
  simpl in Hlen. injection Hlen as Hlen. cbn [upload_calls concat].
  change (total_uploaded (?x :: ?l)) with (uploaded_bytes x + total_uploaded l).
  rewrite IH by exact Hlen. rewrite length_app. simpl. lia.
Qed.

(** C3: when [transfer_large_file] succeeds with a positive chunk size, its
    calls are one [create_multipart_upload], one [get_object], one
    [upload_part] per non-empty chunk read from the body, in order, and one
    [complete_multipart_upload]; the chunks are the successive reads of
    [chunk_size] bytes; the part list of the completion pairs the parts
    numbered 1..N, in increasing order without duplicate or gap, with the etag
    returned for each; and the bytes uploaded add up to the length of the
    body. *)
Theorem transfer_large_file_parts
    (source_key dest_key : string) (size : Z) (p p' : process W) :
  0 < chunk_size (self p) ->
  transfer_large_file source_key dest_key size p = (Returned true, p') ->
  exists (upload_id : string) (body : list byte) (chunks : list (list byte))
         (etags : list string),
    let bucket := destination_bucket (self p) in
    let parts := numbered_parts 1 etags in
    let new :=
      [CreateMultipartUpload bucket dest_key (Returned upload_id);
       GetObject (source_bucket (self p)) source_key (Returned body)]
      ++ upload_calls bucket dest_key upload_id 1 chunks etags
      ++ [CompleteMultipartUpload bucket dest_key upload_id parts (Returned tt)] in
    chunking (Z.to_nat (chunk_size (self p))) body chunks
    /\ Forall (fun c => c <> [] /\ (length c <= Z.to_nat (chunk_size (self p)))%nat) chunks
    /\ length etags = length chunks
    /\ calls p' = calls p ++ new
    /\ PartNumber <$> parts = seqZ 1 (Z.of_nat (length chunks))
    /\ NoDup (PartNumber <$> parts)
    /\ (forall i : nat, (i < length chunks)%nat ->
          (PartNumber <$> parts) !! i = Some (1 + Z.of_nat i))
    /\ total_uploaded new = Z.of_nat (length body).
Proof.
  intros Hpos Hrun. rewrite transfer_large_file_unfold in Hrun. cbn zeta in Hrun.
  destruct (create_multipart_upload _ _ p) as [[upload_id|e] p1] eqn:Hcreate.
  2: { destruct e; simpl in Hrun; [|discriminate].
       rewrite abort_and_report_unbound in Hrun. discriminate. }
  destruct (get_object _ _ p1) as [[body|e] p2] eqn:Hget.
  2: { destruct e; simpl in Hrun; [|discriminate].
       rewrite abort_and_report_bound in Hrun.
       destruct (dst_abort_multipart_upload _ _ _ _); discriminate. }
  destruct (upload_all_parts _ _ _ _ p2) as [[parts|e] p3] eqn:Hloop.
  2: { destruct e; simpl in Hrun; [|discriminate].
       rewrite abort_and_report_bound in Hrun.
       destruct (dst_abort_multipart_upload _ _ _ _); discriminate. }
  destruct (complete_multipart_upload _ _ _ _ p3) as [[[]|e] p4] eqn:Hcomplete.
  2: { destruct e; simpl in Hrun; [|discriminate].
       rewrite abort_and_report_bound in Hrun.
       destruct (dst_abort_multipart_upload _ _ _ _); discriminate. }
  injection Hrun as <-.
  apply invoke_inv in Hcreate as (Hc1 & Hs1 & _).
  apply invoke_inv in Hget as (Hc2 & Hs2 & _).
  apply invoke_inv in Hcomplete as (Hc4 & _).
  pose proof (upload_all_parts_run (self p) dest_key upload_id body p2) as Hfuel.
  rewrite Hloop in Hfuel.
  apply (upload_parts_returned _ _ _ _ Hpos) in Hfuel.
  destruct Hfuel as (chunks & etags & Hch & Hlen & -> & Hc3 & _).
  exists upload_id, body, chunks, etags. cbn zeta.
  split; [exact Hch|].
  split; [apply (chunking_nonempty _ body); [lia | exact Hch]|].
  split; [exact Hlen|].
  split; [rewrite Hc4, Hc3, Hc2, Hc1, <- !app_assoc; reflexivity|].
  rewrite numbered_parts_numbers, Hlen.
  split; [reflexivity|].
  split; [apply NoDup_seqZ|].
  split; [intros i Hi; apply lookup_seqZ_lt; lia|].
  rewrite !total_uploaded_app, total_uploaded_upload_calls by exact Hlen.
  rewrite (chunking_concat _ _ _ Hch). unfold total_uploaded. simpl. lia.
Qed.

(** Copies change neither [self] nor the progress file. *)

Lemma framed_ret {A} (a : A) : framed (@ret W A a).
Proof. intros p r p' [= <- <-]. repeat split; auto. exists []. apply eq_sym, app_nil_r. Qed.

Lemma framed_raise {A} (e : exn) : framed (@raise W A e).
Proof. intros p r p' [= <- <-]. repeat split; auto. exists []. apply eq_sym, app_nil_r. Qed.

Lemma framed_bind {A B} (m : M W A) (k : A -> M W B) :
  framed m -> (forall a, framed (k a)) -> framed (bind m k).
Proof.
  intros Hm Hk p r p' Hrun. unfold bind in Hrun.
  destruct (m p) as [[a|e] p1] eqn:E1.
  - destruct (Hm _ _ _ E1) as (Hs1 & Hf1 & new1 & Hc1).
    destruct (Hk a _ _ _ Hrun) as (Hs2 & Hf2 & new2 & Hc2).
    repeat split; try congruence. exists (new1 ++ new2).
    rewrite Hc2, Hc1, app_assoc. reflexivity.
  - injection Hrun as <- <-. eauto.
Qed.

Lemma framed_try_except {A} (body handler : M W A) (catches : exn -> bool) :
  framed body -> framed handler -> framed (try_except body catches handler).
Proof.
  intros Hb Hh p r p' Hrun. unfold try_except in Hrun.
  destruct (body p) as [[a|e] p1] eqn:E1.
  - injection Hrun as <- <-. eauto.
  - destruct (catches e).
    + destruct (Hb _ _ _ E1) as (Hs1 & Hf1 & new1 & Hc1).
      destruct (Hh _ _ _ Hrun) as (Hs2 & Hf2 & new2 & Hc2).
      repeat split; try congruence. exists (new1 ++ new2).
      rewrite Hc2, Hc1, app_assoc. reflexivity.
    + injection Hrun as <- <-. eauto.
Qed.

Lemma framed_invoke {A} (op : W -> result A * W) (entry : result A -> call) :
  framed (invoke op entry).
Proof. intros p r p' Hrun. apply invoke_inv in Hrun as (Hc & Hs & Hf & _). eauto. Qed.

Lemma framed_get_self : framed (W:=W) get_self.
Proof. intros p r p' [= <- <-]. repeat split; auto. exists []. apply eq_sym, app_nil_r. Qed.

Lemma framed_stream_read (amt : Z) (stream : list byte) : framed (stream_read amt stream).
Proof.
  intros p r p' Hrun. apply stream_read_inv in Hrun.
  destruct Hrun as [(Hs & Hf & Hc & _) | (_ & Hs & Hf & Hc)];
    repeat split; auto; exists []; rewrite app_nil_r; exact Hc.
Qed.

Lemma framed_upload_all_parts (s : S3BulkTransfer) (dest_key upload_id : string)
    (stream : list byte) : framed (upload_all_parts s dest_key upload_id stream).
Proof.
  intros p r p' Hrun.
  pose proof (upload_all_parts_run s dest_key upload_id stream p) as Hfuel.
  rewrite Hrun in Hfuel. apply upload_parts_calls in Hfuel.
  destruct Hfuel as (new & Hc & _ & _ & Hs & Hf). eauto.
Qed.

Lemma framed_abort_and_report (s : S3BulkTransfer) (dest_key : string)
    (upload_id : option string) : framed (abort_and_report s dest_key upload_id).
Proof.
  unfold abort_and_report. apply framed_bind; [|intros; apply framed_ret].
  apply framed_try_except; [|apply framed_ret].
  destruct upload_id; [apply framed_invoke | apply framed_raise].
Qed.

Lemma framed_transfer_small_file (source_key dest_key : string) (size : Z) :
  framed (transfer_small_file source_key dest_key size).
Proof.
  unfold transfer_small_file. apply framed_bind; [apply framed_get_self|]. intros s.
  apply framed_try_except; [|apply framed_ret].
  apply framed_bind; [apply framed_invoke|]. intros stream.
  apply framed_bind; [apply framed_stream_read|]. intros body.
  apply framed_bind; [apply framed_invoke|]. intros _. apply framed_ret.
Qed.

Lemma framed_transfer_large_file (source_key dest_key : string) (size : Z) :
  framed (transfer_large_file source_key dest_key size).
Proof.
  unfold transfer_large_file. apply framed_bind; [apply framed_get_self|]. intros s.
  apply framed_bind.
  - apply framed_try_except; [|apply framed_ret].
    apply framed_bind; [apply framed_invoke|]. intros u. apply framed_ret.
  - intros [upload_id|]; [|apply framed_abort_and_report].
    apply framed_try_except; [|apply framed_abort_and_report].
    apply framed_bind; [apply framed_invoke|]. intros stream.
    apply framed_bind; [apply framed_upload_all_parts|]. intros parts.
    apply framed_bind; [apply framed_invoke|]. intros _. apply framed_ret.
Qed.

(** C7, as the code has it: [transfer_large_file] never lets a [ClientError]
    escape.  When the download, a part upload or the completion raises
    [ClientError], exactly one abort of the upload is requested, as the last
    call, whatever it answers or raises the function returns [False], and
    nothing is retried.  An exception of another kind raised by one of these
    calls leaves the function as it is, and no abort is requested. *)
Theorem transfer_large_file_aborts_on_ClientError
    (source_key dest_key : string) (size : Z) (p p' : process W) (r : result bool) :
  transfer_large_file source_key dest_key size p = (r, p') ->
  exists new,
    calls p' = calls p ++ new
    /\ r <> Raised ClientError
    /\ (forall c, In c new -> copy_failure c = Some ClientError ->
          r = Returned false
          /\ exists before upload_id ra,
               new = before ++ [AbortMultipartUpload (destination_bucket (self p))
                                  dest_key upload_id ra]
               /\ In (CreateMultipartUpload (destination_bucket (self p)) dest_key
                        (Returned upload_id)) before
               /\ Forall (fun c => is_abort c = false) before)
    /\ (forall c, In c new -> copy_failure c = Some OtherException ->
          r = Raised OtherException /\ Forall (fun c => is_abort c = false) new).
Proof.
  intros Hrun. rewrite transfer_large_file_unfold in Hrun. cbn zeta in Hrun.
  set (bucket := destination_bucket (self p)) in *.
  destruct (create_multipart_upload _ _ p) as [[upload_id|e] p1] eqn:Hcreate;
    apply invoke_inv in Hcreate as (Hc1 & Hs1 & _).
  2: { exists [CreateMultipartUpload bucket dest_key (Raised e)].
       destruct e; simpl in Hrun.
       - rewrite abort_and_report_unbound in Hrun. injection Hrun as <- <-.
         refine (conj Hc1 (conj _ (conj _ _))); [discriminate | |];
           intros c [<- | []]; discriminate.
       - injection Hrun as <- <-.
         refine (conj Hc1 (conj _ (conj _ _))); [discriminate | |];
           intros c [<- | []]; discriminate. }
  set (create := CreateMultipartUpload bucket dest_key (Returned upload_id)) in *.
  assert (Habort : forall (q : process W) (done : list call),
             calls q = calls p ++ create :: done ->
             abort_and_report (self p) dest_key (Some upload_id) q = (r, p') ->
             r = Returned false
             /\ exists ra, calls p' = calls p ++ (create :: done)
                             ++ [AbortMultipartUpload bucket dest_key upload_id ra]).
  { intros q done Hq Ha. rewrite abort_and_report_bound in Ha.
    destruct (dst_abort_multipart_upload _ _ _ _) as [ra w].
    injection Ha as <- <-. split; [reflexivity|]. exists ra. simpl.
    rewrite Hq, <- app_assoc. reflexivity. }
  destruct (get_object _ _ p1) as [[body|e] p2] eqn:Hget;
    apply invoke_inv in Hget as (Hc2 & Hs2 & _).
  2: { set (get := GetObject (source_bucket (self p)) source_key (Raised e)) in *.
       assert (Hq : calls p2 = calls p ++ create :: [get]).
       { rewrite Hc2, Hc1, <- app_assoc. reflexivity. }
       destruct e; simpl in Hrun.
       - destruct (Habort _ _ Hq Hrun) as (-> & ra & Hcalls).
         eexists. split; [exact Hcalls|]. split; [discriminate|]. split.
         + intros c _ _. split; [reflexivity|].
           exists [create; get], upload_id, ra. repeat split; [left; reflexivity|].
           repeat constructor.
         + intros c [<- | [<- | [<- | []]]]; discriminate.
       - injection Hrun as <- <-. eexists. split; [exact Hq|].
         split; [discriminate|]. split.
         + intros c [<- | [<- | []]]; discriminate.
         + intros c _ _. split; [reflexivity | repeat constructor]. }
  set (get := GetObject (source_bucket (self p)) source_key (Returned body)) in *.
  pose proof (upload_all_parts_run (self p) dest_key upload_id body p2) as Hfuel.
  destruct (upload_all_parts _ _ _ _ p2) as [res p3].
  apply upload_parts_calls in Hfuel.
  destruct Hfuel as (ups & Hc3 & Hups & Hfirst & _ & _).
  assert (Hups' : Forall (fun c => is_abort c = false) ups).
  { rewrite Forall_forall in Hups |- *. intros c Hc. specialize (Hups c Hc).
    destruct c; simpl in *; congruence. }
  assert (Hq3 : calls p3 = calls p ++ create :: get :: ups).
  { rewrite Hc3, Hc2, Hc1, <- !app_assoc. reflexivity. }
  destruct res as [parts|e].
  2: { destruct e; simpl in Hrun.
       - destruct (Habort _ _ Hq3 Hrun) as (-> & ra & Hcalls).
         eexists. split; [exact Hcalls|]. split; [discriminate|]. split.
         + intros c _ _. split; [reflexivity|].
           exists (create :: get :: ups), upload_id, ra.
           repeat split; [left; reflexivity|]. repeat constructor. exact Hups'.
         + intros c Hin Hc. exfalso.
           apply in_app_or in Hin as [[<- | [<- | Hin]] | [<- | []]]; try discriminate.
           specialize (Hfirst c _ Hin Hc). discriminate.
       - injection Hrun as <- <-. eexists. split; [exact Hq3|].
         split; [discriminate|]. split.
         + intros c [<- | [<- | Hin]] Hc; try discriminate.
           specialize (Hfirst c _ Hin Hc). discriminate.
         + intros c _ _. split; [reflexivity|]. repeat constructor. exact Hups'. }
  assert (Hclean : forall c e, In c ups -> copy_failure c = Some e -> False).
  { intros c e Hin Hc. specialize (Hfirst c e Hin Hc). discriminate. }
  destruct (complete_multipart_upload _ _ _ _ p3) as [[[]|e] p4] eqn:Hcomplete;
    apply invoke_inv in Hcomplete as (Hc4 & _).
  - injection Hrun as <- <-. eexists. split.
    { rewrite Hc4, Hq3, <- app_assoc. reflexivity. }
    split; [discriminate|].
    split; intros c Hin Hc; exfalso;
      apply in_app_or in Hin as [[<- | [<- | Hin]] | [<- | []]]; try discriminate;
      eapply Hclean; eassumption.
  - set (complete := CompleteMultipartUpload bucket dest_key upload_id parts (Raised e)) in *.
    assert (Hq4 : calls p4 = calls p ++ create :: get :: ups ++ [complete]).
    { rewrite Hc4, Hq3, <- app_assoc. reflexivity. }
    assert (Hno : Forall (fun c => is_abort c = false) (create :: get :: ups ++ [complete])).
    { repeat constructor. apply Forall_app. split; [exact Hups' | repeat constructor]. }
    destruct e; simpl in Hrun.
    + destruct (Habort _ _ Hq4 Hrun) as (-> & ra & Hcalls).
      eexists. split; [exact Hcalls|]. split; [discriminate|]. split.
      * intros c _ _. split; [reflexivity|].
        exists (create :: get :: ups ++ [complete]), upload_id, ra.
        repeat split; [left; reflexivity | exact Hno].
      * intros c Hin Hc. exfalso.
        apply in_app_or in Hin as [[<- | [<- | Hin]] | [<- | []]]; try discriminate.
        apply in_app_or in Hin as [Hin | [<- | []]]; try discriminate.
        eapply Hclean; eassumption.
    + injection Hrun as <- <-. eexists. split; [exact Hq4|].
      split; [discriminate|]. split.
      * intros c [<- | [<- | Hin]] Hc; try discriminate.
        apply in_app_or in Hin as [Hin | [<- | []]]; try discriminate.
        exfalso. eapply Hclean; eassumption.
      * intros c _ _. split; [reflexivity | exact Hno].
Qed.

(** ** The progress ledger *)

Lemma framed_should_skip_transfer (source_key : string) (source_size : Z) :
  framed (should_skip_transfer source_key source_size).
Proof.
  unfold should_skip_transfer. apply framed_bind; [apply framed_get_self|]. intros s.
  destruct (in_ledger _ _ _); [apply framed_ret|].
  apply framed_bind.
  - apply framed_try_except; [|apply framed_ret].
    apply framed_bind; [apply framed_invoke | intros; apply framed_ret].
  - intros [|]; apply framed_ret.
Qed.

Lemma framed_copy_with (m : method) (source_key dest_key : string) (size : Z) :
  framed (copy_with m source_key dest_key size).
Proof.
  destruct m; [apply framed_transfer_small_file | apply framed_transfer_large_file].
Qed.

Lemma load_progress_run (p : process W) :
  load_progress p =
  (Returned (match progress_file p with Stored m => m | _ => ∅ end), p).
Proof.
  destruct p as [s [| |m] w cs]; reflexivity.
Qed.

Lemma save_progress_run (key : string) (size : Z) (p : process W) :
  save_progress key size p =
  let (t, w1) := datetime_now (world p) in
  let (o, w2) := file_write w1 in
  let m := <[key := mk_record size t]> (completed_transfers (self p)) in
  (Returned tt,
   mk_process (set_completed_transfers m (self p))
     (match o with
      | WriteOk => Stored m
      | OpenFails => progress_file p
      | DumpFails => Unreadable
      end)
     w2 (calls p)).
Proof.
  unfold save_progress, bind, now, try_except, get_self, open_json_dump, ret.
  destruct (datetime_now (world p)) as [t w1]. simpl.
  destruct (file_write w1) as [[| |] w2]; reflexivity.
Qed.

Lemma settle_success_run (key : string) (size : Z) (p : process W) :
  settle key size true p =
  let (out, p') :=
    save_progress key size
      (set_self (set_stats (count_transferred size (self_stats (self p))) (self p)) p) in
  (Returned true, p').
Proof.
  unfold settle, bind, update_stats, ret.
  rewrite save_progress_run. simpl.
  destruct (datetime_now (world p)) as [t w1].
  destruct (file_write w1) as [o w2]. reflexivity.
Qed.

Lemma transfer_file_not_skipped (o : obj) (p p1 : process W) :
  should_skip_transfer (obj_key o) (obj_size o) p = (Returned false, p1) ->
  transfer_file o p =
  (success <- copy_with (transfer_method (obj_size o)) (obj_key o)
                (get_destination_key (self p) (obj_key o)) (obj_size o) ;;
   settle (obj_key o) (obj_size o) success) p1.
Proof.
  intros Hskip. unfold transfer_file. cbn zeta. unfold bind at 1. unfold get_self at 1.
  unfold bind at 1. rewrite Hskip. reflexivity.
Qed.

(** A transfer whose copy succeeded. *)
Lemma transfer_file_copied (o : obj) (p p1 pc : process W) :
  should_skip_transfer (obj_key o) (obj_size o) p = (Returned false, p1) ->
  copy_with (transfer_method (obj_size o)) (obj_key o)
    (get_destination_key (self p) (obj_key o)) (obj_size o) p1 = (Returned true, pc) ->
  transfer_file o p =
  let (t, w1) := datetime_now (world pc) in
  let (out, w2) := file_write w1 in
  let m := <[obj_key o := mk_record (obj_size o) t]> (completed_transfers (self pc)) in
  (Returned true,
   mk_process
     (set_completed_transfers m
        (set_stats (count_transferred (obj_size o) (self_stats (self pc))) (self pc)))
     (match out with
      | WriteOk => Stored m
      | OpenFails => progress_file pc
      | DumpFails => Unreadable
      end)
     w2 (calls pc)).
Proof.
  intros Hskip Hcopy. rewrite (transfer_file_not_skipped _ _ _ Hskip).
  unfold bind at 1. rewrite Hcopy, settle_success_run, save_progress_run.
  cbn [world set_self].
  destruct (datetime_now (world pc)) as [t w1].
  destruct (file_write w1) as [out w2]. reflexivity.
Qed.

(** C8: [load_progress] never raises and gives the empty mapping when the
    progress file is missing or unreadable; [save_progress] never raises,
    whatever the write does; and when the copy of an object succeeded,
    [transfer_file] returns [True] and counts the object as transferred
    whether the ledger was persisted or not (the record is in the ledger in
    memory either way, and the file holds it only when the write succeeded). *)
Theorem progress_errors_are_not_fatal (p : process W) :
  load_progress p =
    (Returned (match progress_file p with Stored m => m | _ => ∅ end), p)
  /\ (forall key size, fst (save_progress key size p) = Returned tt)
  /\ (forall (o : obj) (p1 pc : process W),
        should_skip_transfer (obj_key o) (obj_size o) p = (Returned false, p1) ->
        copy_with (transfer_method (obj_size o)) (obj_key o)
          (get_destination_key (self p) (obj_key o)) (obj_size o) p1
          = (Returned true, pc) ->
        let done := transfer_file o p in
        let st := self_stats (self p) in
        let st' := self_stats (self (snd done)) in
        let (t, w1) := datetime_now (world pc) in
        let m := <[obj_key o := mk_record (obj_size o) t]> (completed_transfers (self p)) in
        fst done = Returned true
        /\ transferred_files st' = transferred_files st + 1
        /\ transferred_size st' = transferred_size st + obj_size o
        /\ failed_files st' = failed_files st
        /\ completed_transfers (self (snd done)) = m
        /\ progress_file (snd done) =
           match fst (file_write w1) with
           | WriteOk => Stored m
           | OpenFails => progress_file p
           | DumpFails => Unreadable
           end).
Proof.
  split; [apply load_progress_run|]. split.
  - intros key size. rewrite save_progress_run.
    destruct (datetime_now (world p)) as [t w1]. destruct (file_write w1). reflexivity.
  - intros o p1 pc Hskip Hcopy. cbn zeta.
    rewrite (transfer_file_copied _ _ _ _ Hskip Hcopy).
    destruct (framed_should_skip_transfer _ _ _ _ _ Hskip) as (Hs1 & Hf1 & _).
    destruct (framed_copy_with _ _ _ _ _ _ _ Hcopy) as (Hs2 & Hf2 & _).
    destruct (datetime_now (world pc)) as [t w1].
    destruct (file_write w1) as [out w2]. simpl.
    rewrite Hs2, Hs1, Hf2, Hf1. repeat split; reflexivity.
Qed.

(** ** One transfer, by outcome *)

Lemma settle_failure_run (key : string) (size : Z) (p : process W) :
  settle key size false p =
  (Returned false, set_self (set_stats (count_failed (self_stats (self p))) (self p)) p).
Proof. reflexivity. Qed.

(** The four ways a transfer ends: the object is skipped, copied, its copy
    reports a failure, or an exception leaves [transfer_file]. *)
Lemma transfer_file_effect (o : obj) (p : process W) (r : result bool) (p' : process W) :
  transfer_file o p = (r, p') ->
  let s := self p in
  let counted := set_stats (count_transferred (obj_size o) (self_stats s)) s in
  exists new,
    calls p' = calls p ++ new
    /\ ((r = Returned true /\ self p' = counted /\ progress_file p' = progress_file p
         /\ Forall (fun c => moves_data c = false) new
         /\ (in_ledger (completed_transfers s) (obj_key o) (obj_size o) = true
             \/ In (HeadObject (destination_bucket s) (get_destination_key s (obj_key o))
                      (Returned (obj_size o))) new))
        \/ (r = Returned true
            /\ exists t w1,
                 let m := <[obj_key o := mk_record (obj_size o) t]> (completed_transfers s) in
                 self p' = set_completed_transfers m counted
                 /\ progress_file p' =
                    match fst (file_write w1) with
                    | WriteOk => Stored m
                    | OpenFails => progress_file p
                    | DumpFails => Unreadable
                    end)
        \/ (r = Returned false
            /\ self p' = set_stats (count_failed (self_stats s)) s
            /\ progress_file p' = progress_file p)
        \/ (exists e, r = Raised e /\ self p' = s /\ progress_file p' = progress_file p)).
Proof.
  intros Hrun. cbn zeta.
  destruct (should_skip_transfer (obj_key o) (obj_size o) p) as [[[|]|e] p1] eqn:Hskip.
  - (* skipped *)
    assert (Hrun' : transfer_file o p =
                    (Returned true,
                     set_self (set_stats (count_transferred (obj_size o)
                                            (self_stats (self p1))) (self p1)) p1)).
    { unfold transfer_file. cbn zeta. unfold bind at 1. unfold get_self at 1.
      unfold bind at 1. rewrite Hskip. reflexivity. }
    rewrite Hrun' in Hrun. injection Hrun as <- <-.
    pose proof (should_skip_transfer_cases p (obj_key o) (obj_size o)) as Hc.
    cbn zeta in Hc. rewrite Hskip in Hc.
    destruct (in_ledger _ _ _) eqn:Hin.
    + injection Hc as ->. exists []. rewrite app_nil_r. split; [reflexivity|].
      left. repeat split; auto.
    + destruct (dst_head_object _ _ _) as [[n|[|]] w]; try discriminate.
      injection Hc as Hn ->. symmetry in Hn. apply Z.eqb_eq in Hn. subst n.
      eexists. split; [reflexivity|]. left. simpl.
      repeat split; auto.
  - (* not skipped *)
    destruct (framed_should_skip_transfer _ _ _ _ _ Hskip) as (Hs1 & Hf1 & new1 & Hc1).
    destruct (copy_with (transfer_method (obj_size o)) (obj_key o)
                (get_destination_key (self p) (obj_key o)) (obj_size o) p1)
      as [[[|]|e] pc] eqn:Hcopy;
      destruct (framed_copy_with _ _ _ _ _ _ _ Hcopy) as (Hs2 & Hf2 & new2 & Hc2);
      exists (new1 ++ new2);
      (split; [rewrite app_assoc, <- Hc1; simpl; try exact Hc2|]).
    + rewrite (transfer_file_copied _ _ _ _ Hskip Hcopy) in Hrun.
      destruct (datetime_now (world pc)) as [t w1] eqn:Hnow.
      destruct (file_write w1) as [out w2] eqn:Hwrite.
      injection Hrun as <- <-. simpl. exact Hc2.
    + rewrite (transfer_file_copied _ _ _ _ Hskip Hcopy) in Hrun.
      destruct (datetime_now (world pc)) as [t w1] eqn:Hnow.
      destruct (file_write w1) as [out w2] eqn:Hwrite.
      injection Hrun as <- <-. right. left. split; [reflexivity|].
      exists t, w1. rewrite Hwrite. simpl. rewrite Hs2, Hs1, Hf2, Hf1. split; reflexivity.
    + rewrite (transfer_file_not_skipped _ _ _ Hskip) in Hrun.
      unfold bind at 1 in Hrun. rewrite Hcopy, settle_failure_run in Hrun.
      injection Hrun as <- <-. simpl. exact Hc2.
    + rewrite (transfer_file_not_skipped _ _ _ Hskip) in Hrun.
      unfold bind at 1 in Hrun. rewrite Hcopy, settle_failure_run in Hrun.
      injection Hrun as <- <-. right. right. left. simpl.
      rewrite Hs2, Hs1, Hf2, Hf1. repeat split; reflexivity.
    + rewrite (transfer_file_not_skipped _ _ _ Hskip) in Hrun.
      unfold bind at 1 in Hrun. rewrite Hcopy in Hrun.
      injection Hrun as <- <-. exact Hc2.
    + rewrite (transfer_file_not_skipped _ _ _ Hskip) in Hrun.
      unfold bind at 1 in Hrun. rewrite Hcopy in Hrun.
      injection Hrun as <- <-. right. right. right. exists e.
      rewrite Hs2, Hs1, Hf2, Hf1. repeat split; reflexivity.
  - (* the head check raised *)
    destruct (framed_should_skip_transfer _ _ _ _ _ Hskip) as (Hs1 & Hf1 & new1 & Hc1).
    assert (Hrun' : transfer_file o p = (Raised e, p1)).
    { unfold transfer_file. cbn zeta. unfold bind at 1. unfold get_self at 1.
      unfold bind at 1. rewrite Hskip. reflexivity. }
    rewrite Hrun' in Hrun. injection Hrun as <- <-.
    exists new1. split; [exact Hc1|]. right. right. right. exists e. auto.
Qed.

(** ** The pool *)

Lemma run_pool_cons (o : obj) (rest : list obj) (p : process W) :
  run_pool (o :: rest) p =
  let (r, p') := transfer_file o p in run_pool rest (collected r p').
Proof.
  cbn [run_pool]. unfold bind, try_except, ret.
  destruct (transfer_file o p) as [[b|e] p']; reflexivity.
Qed.

Lemma run_pool_returns (objects : list obj) (p : process W) :
  fst (run_pool objects p) = Returned tt.
Proof.
  revert p. induction objects as [|o rest IH]; intros p; [reflexivity|].
  rewrite run_pool_cons. destruct (transfer_file o p) as [r p']. apply IH.
Qed.

(** An invariant of single transfers is an invariant of the pool. *)
Lemma run_pool_invariant (P : process W -> Prop) (objects : list obj) :
  (forall o p r p', In o objects -> P p -> transfer_file o p = (r, p') ->
                    P (collected r p')) ->
  forall p, P p -> P (snd (run_pool objects p)).
Proof.
  induction objects as [|o rest IH]; intros Hstep p Hp; [exact Hp|].
  rewrite run_pool_cons. destruct (transfer_file o p) as [r p'] eqn:Hrun.
  apply IH.
  - intros o' q r' q' Hin. apply Hstep. right. exact Hin.
  - eapply Hstep; [left; reflexivity | exact Hp | exact Hrun].
Qed.

Lemma same_settings_refl (s : S3BulkTransfer) : same_settings s s.
Proof. repeat split. Qed.

Lemma same_settings_trans (s1 s2 s3 : S3BulkTransfer) :
  same_settings s1 s2 -> same_settings s2 s3 -> same_settings s1 s3.
Proof. unfold same_settings. intuition congruence. Qed.

Lemma transfer_file_settings (o : obj) (p : process W) (r : result bool) (p' : process W) :
  transfer_file o p = (r, p') ->
  same_settings (self p) (self (collected r p'))
  /\ failed_files (self_stats (self p)) <= failed_files (self_stats (self (collected r p'))).
Proof.
  intros Hrun. apply transfer_file_effect in Hrun. cbn zeta in Hrun.
  destruct Hrun as (new & _ & [(-> & Hs & _) | [(-> & t & w1 & Hs & _)
                                    | [(-> & Hs & _) | (e & -> & Hs & _)]]]);
    simpl; rewrite Hs; simpl; (split; [repeat split | lia]).
Qed.

Lemma run_pool_settings (objects : list obj) (p : process W) :
  same_settings (self p) (self (snd (run_pool objects p)))
  /\ failed_files (self_stats (self p))
     <= failed_files (self_stats (self (snd (run_pool objects p)))).
Proof.
  apply (run_pool_invariant
           (fun q => same_settings (self p) (self q)
                     /\ failed_files (self_stats (self p))
                        <= failed_files (self_stats (self q)))).
  - intros o q r q' _ [Hs Hf] Hrun.
    destruct (transfer_file_settings _ _ _ _ Hrun) as [Hs' Hf'].
    split; [eapply same_settings_trans; eassumption | lia].
  - split; [apply same_settings_refl | lia].
Qed.

(** ** The run *)

Lemma list_source_objects_run (p : process W) :
  list_source_objects p =
  let (listing, w) := src_paginate (source_bucket (self p)) (source_prefix (self p))
                        (world p) in
  let p' := log_call (PaginateListObjectsV2 (source_bucket (self p))
                        (source_prefix (self p)) (fst listing) (snd listing))
              (set_world w p) in
  match snd listing with
  | None => (Returned (collect (fst listing)), p')
  | Some ClientError => (Returned [], p')
  | Some OtherException => (Raised OtherException, p')
  end.
Proof.
  unfold list_source_objects, bind, get_self, paginate, ret, raise.
  destruct (src_paginate _ _ _) as [[pages [[|]|]] w]; reflexivity.
Qed.

Lemma framed_list_source_objects : framed (W:=W) list_source_objects.
Proof.
  intros p r p' Hrun. rewrite list_source_objects_run in Hrun.
  destruct (src_paginate _ _ _) as [[pages [[|]|]] w]; injection Hrun as <- <-;
    simpl; repeat split; eauto.
Qed.

Lemma print_summary_state (p : process W) : snd (print_summary p) = p.
Proof.
  destruct p as [[sb db sp dp mw cs [tf trf ff ts trs [t0|] [t1|]] m] f w c];
    try reflexivity.
  unfold print_summary, bind, get_self, raise, ret. simpl.
  destruct (t1 - t0 =? 0); reflexivity.
Qed.

(** [run_transfer], step by step. *)
Lemma run_transfer_unfold (p : process W) :
  run_transfer p =
  let (t0, w0) := datetime_now (world p) in
  let p1 := set_self (set_stats (set_start_time t0 (self_stats (self p))) (self p))
              (set_world w0 p) in
  match list_source_objects p1 with
  | (Raised e, p2) => (Raised e, p2)
  | (Returned [], p2) => (Returned false, p2)
  | (Returned (o :: rest), p2) =>
      let p3 := set_self (set_stats (set_totals (o :: rest) (self_stats (self p2)))
                            (self p2)) p2 in
      if max_workers (self p2) <=? 0 then (Raised OtherException, p3)
      else
        let p4 := snd (run_pool (o :: rest) p3) in
        let (t1, w1) := datetime_now (world p4) in
        let p5 := set_self (set_stats (set_end_time t1 (self_stats (self p4))) (self p4))
                    (set_world w1 p4) in
        match fst (print_summary p5) with
        | Raised e => (Raised e, p5)
        | Returned _ => (Returned (failed_files (self_stats (self p5)) =? 0), p5)
        end
  end.
Proof.
  unfold run_transfer. unfold bind at 1. unfold now at 1.
  destruct (datetime_now (world p)) as [t0 w0]. unfold bind at 1. unfold update_stats at 1.
  unfold bind at 1. cbn [self world set_world].
  destruct (list_source_objects _) as [[[|o rest]|e] p2]; try reflexivity.
  unfold bind at 1. unfold update_stats at 1. unfold bind at 1.
  unfold thread_pool_executor at 1. unfold bind at 1. unfold get_self at 1.
  cbn [self set_self set_stats max_workers].
  destruct (max_workers (self p2) <=? 0); [reflexivity|]. unfold ret at 1.
  cbn beta iota. unfold bind at 1.
  pose proof (run_pool_returns (o :: rest)
                (set_self (set_stats (set_totals (o :: rest) (self_stats (self p2)))
                             (self p2)) p2)) as Hpool.
  cbn zeta. destruct (run_pool (o :: rest) _) as [rp p4]. simpl in Hpool. subst rp.
  cbn [snd]. unfold bind at 1. unfold now at 1.
  destruct (datetime_now (world p4)) as [t1 w1]. unfold bind at 1.
  unfold update_stats at 1. unfold bind at 1.
  pose proof (print_summary_state
                (set_self (set_stats (set_end_time t1 (self_stats (self p4))) (self p4))
                   (set_world w1 p4))) as Hps.
  cbn [self world set_world set_self] in *.
  destruct (print_summary _) as [[[]|e] p6]; simpl in Hps; subst p6; reflexivity.
Qed.

Lemma run_transfer_success (p : process W) (r : result bool) (p' : process W) :
  run_transfer p = (r, p') ->
  total_files (self_stats (self p)) = 0 ->
  (r = Returned true
   <-> (exists b, r = Returned b)
       /\ 0 < total_files (self_stats (self p'))
       /\ failed_files (self_stats (self p')) = 0).
Proof.
  intros Hrun Hfresh. rewrite run_transfer_unfold in Hrun.
  destruct (datetime_now (world p)) as [t0 w0]. cbn zeta in Hrun.
  destruct (list_source_objects _) as [[[|o rest]|e] p2] eqn:Hlist;
    apply framed_list_source_objects in Hlist as (Hs2 & _).
  - injection Hrun as <- <-. rewrite Hs2. simpl. rewrite Hfresh.
    split; [discriminate | intros (_ & Hlt & _); lia].
  - set (p3 := set_self _ p2) in Hrun.
    destruct (max_workers (self p2) <=? 0).
    { injection Hrun as <- <-.
      split; [discriminate | intros ((b & Hb) & _); discriminate]. }
    destruct (run_pool_settings (o :: rest) p3) as [Hset _].
    destruct Hset as (_ & _ & _ & _ & _ & Htotal & _).
    set (p4 := snd (run_pool (o :: rest) p3)) in *.
    destruct (datetime_now (world p4)) as [t1 w1].
    assert (Hpos : 0 < total_files (self_stats (self p4))).
    { rewrite Htotal. subst p3. simpl. lia. }
    destruct (fst (print_summary _)) as [[]|e]; injection Hrun as <- <-; simpl.
    + destruct (Z.eqb_spec (failed_files (self_stats (self p4))) 0) as [Hz|Hnz].
      * split; [intros _; eauto | reflexivity].
      * split; [discriminate | intros (_ & _ & Hf); contradiction].
    + split; [discriminate | intros ((b & Hb) & _); discriminate].
  - injection Hrun as <- <-.
    split; [discriminate | intros ((b & Hb) & _); discriminate].
Qed.

Lemma construct_run (args : Args) (disk : file (gmap string transfer_record)) (w : W) :
  construct args disk w =
  (Returned tt,
   mk_process
     (mk_self (arg_source_bucket args) (arg_dest_bucket args)
        (Str.rstrip "/" (arg_source_prefix args)) (Str.rstrip "/" (arg_dest_prefix args))
        (arg_max_workers args) (arg_chunk_size args) fresh_stats
        (match disk with Stored m => m | _ => ∅ end))
     disk w []).
Proof.
  unfold construct, S3BulkTransfer_init. unfold bind at 1.
  rewrite load_progress_run. reflexivity.
Qed.

Lemma framed_test_source_access : framed (W:=W) test_source_access.
Proof.
  unfold test_source_access. apply framed_try_except; [|apply framed_ret].
  apply framed_bind; [apply framed_get_self|]. intros s.
  apply framed_bind.
  - apply framed_try_except; [|apply framed_ret].
    apply framed_bind; [apply framed_invoke | intros; apply framed_ret].
  - intros [|]; [|apply framed_ret].
    apply framed_try_except; [|apply framed_ret].
    apply framed_bind; [apply framed_invoke | intros; apply framed_ret].
Qed.

Lemma test_source_access_returns (p : process W) :
  exists b, fst (test_source_access p) = Returned b.
Proof.
  unfold test_source_access, try_except, bind, get_self, head_bucket, list_objects_v2,
    invoke, ret.
  destruct (src_head_bucket _ _) as [[[]|[|]] w1]; simpl; eauto.
  destruct (src_list_objects_v2 _ _ _ _) as [[pg|[|]] w2]; simpl; eauto.
Qed.

Lemma validate_source_credentials_true (credentials : gmap string string) :
  validate_source_credentials credentials = true
  <-> is_Some (credentials !! "access_key") /\ is_Some (credentials !! "secret_key").
Proof.
  unfold validate_source_credentials. cbn [forallb].
  rewrite !andb_true_iff, !bool_decide_eq_true. tauto.
Qed.

(** C4, as the code has it: the exit status is 0 or 1, and it is 0 exactly
    when the credentials file loads as a non-empty object holding both keys,
    the access test passes if it was requested, [run_transfer] returns without
    an exception, the listing was not empty ([total_files] is positive) and no
    object failed.  A run that lists no object exits with 1 although no object
    failed.  (A command line that [argparse] refuses ends the process before
    these lines, with the status [argparse] chooses.) *)
Theorem main_exit_status (args : Args) (credentials_file : file (gmap string string))
    (disk : file (gmap string transfer_record)) (w : W) :
  let code := main args credentials_file disk w in
  (code = 0 \/ code = 1)
  /\ (code = 0 <->
      exists (creds : gmap string string) (p q : process W) (b : bool) (q' : process W),
        credentials_file = Stored creds
        /\ creds <> ∅
        /\ is_Some (creds !! "access_key") /\ is_Some (creds !! "secret_key")
        /\ construct args disk w = (Returned tt, p)
        /\ (if arg_test_access args
            then test_source_access p = (Returned true, q)
            else q = p)
        /\ run_transfer q = (Returned b, q')
        /\ 0 < total_files (self_stats (self q'))
        /\ failed_files (self_stats (self q')) = 0).
Proof.
  cbn zeta. remember (main args credentials_file disk w) as code eqn:Hcode.
  unfold main, load_credentials_from_file in Hcode.
  destruct credentials_file as [| |creds].
  1,2: subst code;
    (split; [auto | split; [discriminate | intros (c & ? & ? & ? & ? & [=] & _)]]).
  unfold dict_truthy in Hcode. destruct (decide (creds = ∅)) as [Hempty|Hfull].
  { rewrite bool_decide_eq_true_2 in Hcode by exact Hempty. simpl in Hcode. subst code.
    split; [auto | split; [discriminate|]].
    intros (c & ? & ? & ? & ? & [= <-] & Hne & _). contradiction. }
  rewrite bool_decide_eq_false_2 in Hcode by exact Hfull. simpl in Hcode.
  destruct (validate_source_credentials creds) eqn:Hvalid; simpl in Hcode.
  2: { subst code. split; [auto | split; [discriminate|]].
       intros (c & ? & ? & ? & ? & [= <-] & _ & Ha & Hs & _).
       rewrite (proj2 (validate_source_credentials_true creds)) in Hvalid by auto.
       discriminate. }
  apply validate_source_credentials_true in Hvalid as [Ha Hs].
  rewrite construct_run in *. set (p := mk_process _ disk w []) in *.
  assert (Hfresh : total_files (self_stats (self p)) = 0) by reflexivity.
  unfold test_and_run in Hcode. unfold bind at 1 in Hcode.
  destruct (arg_test_access args) eqn:Htest.
  - destruct (test_source_access p) as [rt q] eqn:Hq.
    destruct (test_source_access_returns p) as [bt Hbt]. rewrite Hq in Hbt.
    simpl in Hbt. subst rt.
    destruct (framed_test_source_access _ _ _ Hq) as (Hsq & _).
    destruct bt.
    + unfold bind at 1 in Hcode. destruct (run_transfer q) as [r q'] eqn:Hrun.
      pose proof (run_transfer_success q r q' Hrun) as Hiff.
      rewrite Hsq in Hiff. specialize (Hiff Hfresh).
      destruct r as [[|]|e]; simpl in Hcode; subst code.
      * split; [auto|]. split; [intros _ | intros _; reflexivity].
        destruct (proj1 Hiff eq_refl) as (_ & Hpos & Hzero).
        exists creds, p, q, true, q'. repeat split; auto.
      * split; [auto|]. split; [discriminate|].
        intros (c & p0 & q0 & b & q0' & _ & _ & _ & _ & [= <-] & Hq0 & Hrun0 & Hpos & Hz).
        rewrite Hq in Hq0. injection Hq0 as <-. rewrite Hrun in Hrun0.
        injection Hrun0 as <- <-.
        assert (Returned false = Returned true) by (apply Hiff; eauto). discriminate.
      * split; [auto|]. split; [discriminate|].
        intros (c & p0 & q0 & b & q0' & _ & _ & _ & _ & [= <-] & Hq0 & Hrun0 & _).
        rewrite Hq in Hq0. injection Hq0 as <-. rewrite Hrun in Hrun0. discriminate.
    + simpl in Hcode. subst code. split; [auto|]. split; [discriminate|].
      intros (c & p0 & q0 & b & q0' & _ & _ & _ & _ & [= <-] & Hq0 & _).
      rewrite Hq in Hq0. discriminate.
  - unfold ret at 1 in Hcode. unfold bind at 1 in Hcode.
    destruct (run_transfer p) as [r q'] eqn:Hrun.
    pose proof (run_transfer_success p r q' Hrun Hfresh) as Hiff.
    destruct r as [[|]|e]; simpl in Hcode; subst code.
    + split; [auto|]. split; [intros _ | intros _; reflexivity].
      destruct (proj1 Hiff eq_refl) as (_ & Hpos & Hzero).
      exists creds, p, p, true, q'. repeat split; auto.
    + split; [auto|]. split; [discriminate|].
      intros (c & p0 & q0 & b & q0' & _ & _ & _ & _ & [= <-] & -> & Hrun0 & Hpos & Hz).
      rewrite Hrun in Hrun0. injection Hrun0 as <- <-.
      assert (Returned false = Returned true) by (apply Hiff; eauto). discriminate.
    + split; [auto|]. split; [discriminate|].
      intros (c & p0 & q0 & b & q0' & _ & _ & _ & _ & [= <-] & -> & Hrun0 & _).
      rewrite Hrun in Hrun0. discriminate.
Qed.

(** ** Successive runs *)

Lemma get_destination_key_settings (s s' : S3BulkTransfer) (key : string) :
  same_settings s s' -> get_destination_key s' key = get_destination_key s key.
Proof.
  intros (_ & _ & Hsp & Hdp & _). unfold get_destination_key. rewrite Hsp, Hdp. reflexivity.
Qed.

Lemma run_pool_single (o : obj) (p : process W) :
  snd (run_pool [o] p) = collected (fst (transfer_file o p)) (snd (transfer_file o p)).
Proof. rewrite run_pool_cons. destruct (transfer_file o p) as [r q]. reflexivity. Qed.

Lemma run_pool_step (o : obj) (rest : list obj) (p : process W) :
  snd (run_pool (o :: rest) p) = snd (run_pool rest (snd (run_pool [o] p))).
Proof.
  rewrite run_pool_single, run_pool_cons. destruct (transfer_file o p) as [r q]. reflexivity.
Qed.

(** A pool in which every object has a matching ledger record, or a head
    check that reports its size whenever it is made, skips every object. *)
Lemma run_pool_all_skipped (objects : list obj) :
  forall p : process W,
    (forall o, In o objects ->
       in_ledger (completed_transfers (self p)) (obj_key o) (obj_size o) = true
       \/ forall w0, fst (dst_head_object (destination_bucket (self p))
                            (get_destination_key (self p) (obj_key o)) w0)
                     = Returned (obj_size o)) ->
    let p' := snd (run_pool objects p) in
    pool_skips_all objects p
    /\ self p' = set_stats (add_transferred (Z.of_nat (length objects)) (sum_sizes objects)
                              (self_stats (self p))) (self p)
    /\ progress_file p' = progress_file p
    /\ exists new, calls p' = calls p ++ new
                   /\ Forall (fun c => moves_data c = false) new.
Proof.
  induction objects as [|o rest IH]; intros p Hcover; cbn zeta.
  - simpl. split; [exact I|]. split.
    + destruct p as [[sb db sp dp mw cs [tf trf ff ts trs t0 t1] m] f w c].
      unfold set_stats, add_transferred. simpl. rewrite !Z.add_0_r. reflexivity.
    + split; [reflexivity|]. exists []. rewrite app_nil_r. auto.
  - assert (Hskip : exists p1 new1,
               should_skip_transfer (obj_key o) (obj_size o) p = (Returned true, p1)
               /\ self p1 = self p /\ progress_file p1 = progress_file p
               /\ calls p1 = calls p ++ new1
               /\ Forall (fun c => moves_data c = false) new1).
    { pose proof (should_skip_transfer_cases p (obj_key o) (obj_size o)) as Hc.
      cbn zeta in Hc. rewrite Hc.
      destruct (Hcover o (or_introl eq_refl)) as [Hin | Hhead].
      - rewrite Hin. exists p, []. rewrite app_nil_r. auto.
      - destruct (in_ledger _ _ _); [exists p, []; rewrite app_nil_r; auto|].
        specialize (Hhead (world p)). destruct (dst_head_object _ _ _) as [r w].
        simpl in Hhead. subst r. rewrite Z.eqb_refl.
        eexists _, [_]. repeat split. repeat constructor. }
    destruct Hskip as (p1 & new1 & Hrun & Hs1 & Hf1 & Hc1 & Hd1).
    assert (Hfile : transfer_file o p =
                    (Returned true,
                     set_self (set_stats (count_transferred (obj_size o)
                                            (self_stats (self p1))) (self p1)) p1)).
    { unfold transfer_file. cbn zeta. unfold bind at 1. unfold get_self at 1.
      unfold bind at 1. rewrite Hrun. reflexivity. }
    rewrite run_pool_step. cbn [pool_skips_all]. rewrite run_pool_single, Hfile.
    cbn [fst snd collected]. set (q := set_self _ p1).
    specialize (IH q). cbn zeta in IH.
    destruct IH as (Hall & Hs & Hf & new & Hc & Hd).
    { intros o' Hin'. subst q. simpl. rewrite Hs1.
      apply Hcover. right. exact Hin'. }
    split; [split; [rewrite Hrun; reflexivity | exact Hall]|].
    split.
    { rewrite Hs. subst q. simpl. rewrite Hs1.
      destruct (self p) as [sb db sp dp mw cs [tf trf ff ts trs t0 t1] m].
      unfold set_stats, add_transferred, count_transferred. simpl.
      f_equal. f_equal; lia. }
    split; [rewrite Hf; subst q; simpl; exact Hf1|].
    exists (new1 ++ new). split.
    + rewrite Hc. subst q. simpl. rewrite Hc1, app_assoc. reflexivity.
    + apply Forall_app. split; assumption.
Qed.

Lemma in_ledger_same (m m' : gmap string transfer_record) (key : string) (size : Z) :
  m' !! key = m !! key -> in_ledger m' key size = in_ledger m key size.
Proof. unfold in_ledger. intros ->. reflexivity. Qed.

(** A pool whose ledger writes all succeed and that counts no failure leaves
    every object either with a matching record in the ledger, which the
    progress file holds too, or with a head check that reported its size. *)
Lemma run_pool_covers (objects : list obj) :
  (forall w0, fst (file_write w0) = WriteOk) ->
  NoDup (map obj_key objects) ->
  forall p : process W,
    synced p ->
    let p' := snd (run_pool objects p) in
    synced p'
    /\ (forall k, ~ In k (map obj_key objects) ->
          completed_transfers (self p') !! k = completed_transfers (self p) !! k)
    /\ (exists new, calls p' = calls p ++ new)
    /\ (failed_files (self_stats (self p')) = failed_files (self_stats (self p)) ->
        forall o, In o objects ->
          in_ledger (completed_transfers (self p')) (obj_key o) (obj_size o) = true
          \/ In (HeadObject (destination_bucket (self p))
                   (get_destination_key (self p) (obj_key o)) (Returned (obj_size o)))
                (calls p')).
Proof.
  intros Hwrite. induction objects as [|o rest IH]; intros Hnodup p Hsync; cbn zeta.
  - simpl. split; [exact Hsync|]. split; [reflexivity|].
    split; [exists []; rewrite app_nil_r; reflexivity|]. intros _ o [].
  - simpl in Hnodup. apply NoDup_cons in Hnodup as [Hfresh Hnodup].
    rewrite list_elem_of_In in Hfresh.
    rewrite run_pool_step, run_pool_single.
    destruct (transfer_file o p) as [r q] eqn:Hrun. cbn [fst snd].
    destruct (transfer_file_settings _ _ _ _ Hrun) as [Hset Hmono].
    pose proof (transfer_file_effect _ _ _ _ Hrun) as Heff. cbn zeta in Heff.
    destruct Heff as (new1 & Hc1 & Heff).
    set (q' := collected r q) in *.
    assert (Hcq : calls q' = calls q) by (subst q'; destruct r; reflexivity).
    assert (Hstep : synced q'
                    /\ (forall k, k <> obj_key o ->
                          completed_transfers (self q') !! k
                          = completed_transfers (self p) !! k)
                    /\ (failed_files (self_stats (self q'))
                        = failed_files (self_stats (self p)) ->
                        in_ledger (completed_transfers (self q')) (obj_key o) (obj_size o)
                        = true
                        \/ In (HeadObject (destination_bucket (self p))
                                 (get_destination_key (self p) (obj_key o))
                                 (Returned (obj_size o))) (calls q'))).
    { unfold synced in *. subst q'.
      destruct Heff as [(-> & Hs & Hf & _ & Hwhy) | [(-> & t & w1 & Hs & Hf)
                          | [(-> & Hs & Hf) | (e & -> & Hs & Hf)]]];
        cbn [collected]; cbn zeta in *.
      - rewrite Hs, Hf. simpl. split; [exact Hsync|]. split; [reflexivity|].
        intros _. destruct Hwhy as [Hin | Hin]; [left; exact Hin|].
        right. rewrite Hc1. apply in_or_app. right. exact Hin.
      - rewrite Hs, Hf, Hwrite. simpl. split; [reflexivity|]. split.
        + intros k Hk. apply lookup_insert_ne. congruence.
        + intros _. left. unfold in_ledger. rewrite lookup_insert_eq. simpl.
          apply Z.eqb_refl.
      - rewrite Hs, Hf. simpl. split; [exact Hsync|]. split; [reflexivity|]. lia.
      - simpl. rewrite Hs, Hf. split; [exact Hsync|]. split; [reflexivity|]. lia. }
    destruct Hstep as (Hsync' & Hkeep & Hdone).
    specialize (IH Hnodup q' Hsync'). cbn zeta in IH.
    destruct IH as (Hsync'' & Hkeep' & (new2 & Hc2) & Hrest).
    destruct (run_pool_settings rest q') as [Hset' Hmono'].
    set (p' := snd (run_pool rest q')) in *.
    split; [exact Hsync''|]. split.
    { intros k Hk. simpl in Hk.
      rewrite Hkeep' by (intros Hin; apply Hk; right; exact Hin).
      apply Hkeep. intros ->. apply Hk. left. reflexivity. }
    split.
    { exists (new1 ++ new2). rewrite Hc2, Hcq, Hc1, app_assoc. reflexivity. }
    intros Hfailed o' [<- | Hin'].
    + assert (Hq : failed_files (self_stats (self q'))
                   = failed_files (self_stats (self p))) by lia.
      destruct (Hdone Hq) as [Hin | Hin].
      * left. rewrite (in_ledger_same (completed_transfers (self q'))); [exact Hin|].
        apply Hkeep'. exact Hfresh.
      * right. rewrite Hc2. apply in_or_app. left. exact Hin.
    + assert (Hq : failed_files (self_stats (self p'))
                   = failed_files (self_stats (self q'))) by lia.
      destruct (Hrest Hq o' Hin') as [Hin | Hin]; [left; exact Hin|].
      right. pose proof Hset as (_ & Hdb & _).
      rewrite (get_destination_key_settings _ _ _ Hset) in Hin.
      rewrite Hdb in Hin. exact Hin.
Qed.

(** A run whose listing is answered by the pages [pages], whenever it is
    made: the state in which the pool starts and the state the run ends in. *)
Lemma run_transfer_listed (p : process W) (pages : list page) (r : result bool)
    (p' : process W) :
  (forall w0, fst (src_paginate (source_bucket (self p)) (source_prefix (self p)) w0)
              = (pages, None)) ->
  run_transfer p = (r, p') ->
  exists (t0 : Z) (w3 : W),
    let listed := calls p ++ [PaginateListObjectsV2 (source_bucket (self p))
                                (source_prefix (self p)) pages None] in
    let started := set_stats (set_start_time t0 (self_stats (self p))) (self p) in
    match collect pages with
    | [] => r = Returned false /\ p' = mk_process started (progress_file p) w3 listed
    | objects =>
        let p3 := mk_process (set_stats (set_totals objects (self_stats started)) started)
                    (progress_file p) w3 listed in
        let p4 := snd (run_pool objects p3) in
        if max_workers (self p) <=? 0
        then r = Raised OtherException /\ p' = p3
        else
          exists (t1 : Z) (w5 : W),
            p' = set_self (set_stats (set_end_time t1 (self_stats (self p4))) (self p4))
                   (set_world w5 p4)
            /\ (r = Returned (failed_files (self_stats (self p4)) =? 0)
                \/ r = Raised OtherException)
    end.
Proof.
  intros Hlisting Hrun. rewrite run_transfer_unfold in Hrun.
  destruct (datetime_now (world p)) as [t0 w0]. cbn zeta in Hrun.
  rewrite list_source_objects_run in Hrun. cbn [self set_self world set_world] in Hrun.
  specialize (Hlisting w0).
  destruct (src_paginate _ _ w0) as [listing w3]. simpl in Hlisting. subst listing.
  cbn [fst snd] in Hrun. exists t0, w3. cbn zeta.
  destruct (collect pages) as [|o rest].
  - injection Hrun as <- <-. split; reflexivity.
  - cbn zeta in Hrun.
    cbn [self log_call set_world set_self set_stats max_workers] in Hrun.
    match type of Hrun with
    | context [run_pool (o :: rest) ?q] => set (p3 := q) in *
    end.
    change (mk_process _ (progress_file p) w3 _) with p3.
    destruct (max_workers (self p) <=? 0).
    { injection Hrun as <- <-. split; reflexivity. }
    set (p4 := snd (run_pool (o :: rest) p3)) in *.
    destruct (datetime_now (world p4)) as [t1 w5]. exists t1, w5.
    destruct (fst (print_summary _)) as [[]|e] eqn:Hps; injection Hrun as <- <-.
    + split; [reflexivity | left; reflexivity].
    + split; [reflexivity|]. right.
      unfold print_summary, bind, get_self, raise, ret in Hps. simpl in Hps.
      destruct (start_time _); [|injection Hps as <-; reflexivity].
      destruct (_ =? 0); [injection Hps as <-; reflexivity | discriminate].
Qed.

Lemma total_uploaded_no_data (cs : list call) :
  Forall (fun c => moves_data c = false) cs -> total_uploaded cs = 0.
Proof.
  induction 1 as [|c cs Hc _ IH]; [reflexivity|].
  change (uploaded_bytes c + total_uploaded cs = 0). rewrite IH.
  destruct c; simpl in *; try reflexivity; discriminate.
Qed.

(** C5, as the code has it: let run 1 end without an exception and with no
    failed object, let each of its ledger writes succeed, let the listing give
    the same objects, with distinct keys, whenever it is made, and let every
    head check that reported the size of a listed object in run 1 report it
    again whenever it is made.  Then run 2, started on the progress file run 1
    left, downloads and uploads nothing, answers skip for every object,
    fails none, and ends with [transferred_files] equal to [total_files]; its
    [transferred_size] equals [total_size], since skipped objects are
    counted. *)
Theorem second_run_skips_everything
    (args : Args) (disk : file (gmap string transfer_record)) (w : W)
    (pages : list page) (p1 p1' p2 p2' : process W) (b1 : bool) (r2 : result bool) :
  let objects := collect pages in
  let source := arg_source_bucket args in
  let prefix := Str.rstrip "/" (arg_source_prefix args) in
  let bucket := arg_dest_bucket args in
  (forall w0, fst (src_paginate source prefix w0) = (pages, None)) ->
  NoDup (map obj_key objects) ->
  (forall w0, fst (file_write w0) = WriteOk) ->
  construct args disk w = (Returned tt, p1) ->
  run_transfer p1 = (Returned b1, p1') ->
  failed_files (self_stats (self p1')) = 0 ->
  (forall o w0,
     In o objects ->
     In (HeadObject bucket (get_destination_key (self p1) (obj_key o))
           (Returned (obj_size o))) (calls p1') ->
     fst (dst_head_object bucket (get_destination_key (self p1) (obj_key o)) w0)
     = Returned (obj_size o)) ->
  construct args (progress_file p1') (world p1') = (Returned tt, p2) ->
  run_transfer p2 = (r2, p2') ->
  let st := self_stats (self p2') in
  Forall (fun c => moves_data c = false) (calls p2')
  /\ total_uploaded (calls p2') = 0
  /\ total_files st = Z.of_nat (length objects)
  /\ transferred_files st = total_files st
  /\ transferred_size st = total_size st
  /\ failed_files st = 0
  /\ completed_transfers (self p2') = completed_transfers (self p1')
  /\ (exists (t0 : Z) (w3 : W),
        pool_skips_all objects
          (mk_process
             (set_stats (set_totals objects (set_start_time t0 fresh_stats)) (self p2))
             (progress_file p2) w3 [PaginateListObjectsV2 source prefix pages None]))
  /\ (r2 = Returned (match objects with [] => false | _ => true end)
      \/ r2 = Raised OtherException).
Proof.
  cbn zeta. intros Hlisting Hkeys Hwrite Hc1 Hrun1 Hok1 Hdest Hc2 Hrun2.
  rewrite construct_run in Hc1, Hc2. injection Hc1 as <-. injection Hc2 as <-.
  apply (run_transfer_listed _ pages) in Hrun1; [|exact Hlisting].
  apply (run_transfer_listed _ pages) in Hrun2; [|exact Hlisting].
  cbn [self progress_file calls source_bucket source_prefix self_stats max_workers]
    in Hrun1, Hrun2.
  destruct Hrun1 as (t0 & w3 & Hrun1). destruct Hrun2 as (t0' & w3' & Hrun2).
  cbn zeta in Hrun1, Hrun2. cbn [self].
  destruct (collect pages) as [|o rest] eqn:Hobjects.
  - destruct Hrun2 as [-> ->]. destruct Hrun1 as [_ ->]. simpl.
    split; [repeat constructor|].
    do 6 (split; [reflexivity|]).
    split; [exists t0', w3'; exact I | left; reflexivity].
  - set (objects := o :: rest) in *.
    destruct (arg_max_workers args <=? 0); [destruct Hrun1 as [[=] _]|].
    destruct Hrun1 as (t1 & w5 & -> & _). destruct Hrun2 as (t1' & w5' & -> & Hr2).
    (* run 1 *)
    match type of Hok1 with
    | context [run_pool objects ?q] => set (q1 := q) in *
    end.
    destruct (run_pool_covers objects Hwrite Hkeys q1) as (Hsync & _ & _ & Hcover).
    { unfold synced, ledger_of_file. subst q1. reflexivity. }
    simpl in Hok1. specialize (Hcover Hok1).
    set (q1' := snd (run_pool objects q1)) in *.
    (* run 2 *)
    cbn [progress_file set_self set_world world calls self] in *.
    match goal with
    | |- context [run_pool objects ?q] => set (q2 := q) in *
    end.
    destruct (run_pool_all_skipped objects q2) as (Hskips & Hs & Hf & new & Hc & Hd).
    { intros o' Hin'. subst q2. cbn [self completed_transfers set_stats
                                      destination_bucket].
      unfold synced, ledger_of_file in Hsync. rewrite Hsync.
      destruct (Hcover o' Hin') as [Hin | Hin]; [left; exact Hin|].
      right. intros w0. apply (Hdest o' w0 Hin'). simpl. exact Hin. }
    set (q2' := snd (run_pool objects q2)) in *.
    simpl. rewrite Hs, Hc. subst q2. simpl.
    split.
    { constructor; [reflexivity | exact Hd]. }
    split.
    { apply total_uploaded_no_data.
      first [exact Hd | constructor; [reflexivity | exact Hd]]. }
    repeat split; try lia.
    + apply Hsync.
    + exists t0', w3'. exact Hskips.
    + destruct Hr2 as [-> | ->]; [left | right; reflexivity].
      rewrite Hs. reflexivity.
Qed.

(** ** Prefixes *)

(** C10, as the code has it: the constructor strips the trailing ['/']
    characters of both prefixes; the listing asks for the stripped source
    prefix as [Prefix] and returns every object of every page, so with the
    plain string-prefix matching of S3 every key that begins with the stripped
    prefix is listed, whether or not a ['/'] follows the prefix in it; and
    [get_destination_key] removes [len(source_prefix)] leading characters and
    then every leading ['/'] when the stripped source prefix is not empty, and
    keeps the key as it is when it is empty, before the destination prefix is
    put in front. *)
Theorem prefix_matching_is_textual
    (args : Args) (disk : file (gmap string transfer_record)) (w : W) :
  let p := snd (construct args disk w) in
  let prefix := source_prefix (self p) in
  (prefix = Str.rstrip "/" (arg_source_prefix args)
   /\ destination_prefix (self p) = Str.rstrip "/" (arg_dest_prefix args)
   /\ forall base n, Str.not_ending_with "/" base ->
                     Str.rstrip "/" (base +:+ Str.replicate n "/") = base)
  /\ (forall (bucket : list object_summary) (pages : list page) (w' : W),
        src_paginate (source_bucket (self p)) prefix (world p) = ((pages, None), w') ->
        collect pages = map summary_to_obj (keys_with_prefix prefix bucket) ->
        list_source_objects p =
          (Returned (map summary_to_obj (keys_with_prefix prefix bucket)),
           log_call (PaginateListObjectsV2 (source_bucket (self p)) prefix pages None)
             (set_world w' p))
        /\ forall o, In o bucket -> Str.startswith prefix (Key o) = true ->
                     In (summary_to_obj o)
                        (map summary_to_obj (keys_with_prefix prefix bucket)))
  /\ (forall key,
        get_destination_key (self p) key =
        with_destination_prefix (destination_prefix (self p))
          (if Str.truthy prefix
           then Str.lstrip "/" (Str.skip (String.length prefix) key)
           else key))
  /\ (forall n rest,
        Str.not_starting_with "/" rest ->
        get_destination_key (self p) (prefix +:+ Str.replicate n "/" +:+ rest) =
        with_destination_prefix (destination_prefix (self p))
          (if Str.truthy prefix then rest else Str.replicate n "/" +:+ rest)).
Proof.
  cbn zeta. rewrite construct_run. cbn [snd self source_prefix destination_prefix].
  split; [|split; [|split]].
  - split; [reflexivity|]. split; [reflexivity|].
    intros base n. apply rstrip_app_replicate.
  - intros bucket pages w' Hpages Hcollect. split.
    + rewrite list_source_objects_run. cbn [self source_bucket source_prefix world].
      cbn [world source_bucket] in Hpages. rewrite Hpages. cbn [fst snd].
      rewrite Hcollect. reflexivity.
    + intros o Hin Hstart. apply in_map. apply list_elem_of_In.
      unfold keys_with_prefix. apply list_elem_of_filter. split.
      * rewrite Hstart. exact I.
      * apply list_elem_of_In. exact Hin.
  - intros key. apply get_destination_key_unfold.
  - intros n rest Hrest.
    apply (get_destination_key_under_prefix (mk_self _ _ _ _ _ _ _ _) n rest Hrest).
Qed.

End EngineFacts.

(** * The theorems at concrete runs *)

Lemma should_skip_transfer_ledger_first_witness :
  @should_skip_transfer nat (scripted quiet) "data/2024/file.csv" 5 resumed_process
    = (Returned true, resumed_process)
  /\ (fst (@should_skip_transfer nat (scripted mirrored) "data/2024/file.csv" 5
             fresh_process) = Returned true
      <-> Returned 5 = Returned 5).
Proof.
  split.
  - apply (proj1 (@should_skip_transfer_ledger_first nat (scripted quiet)
                    resumed_process "data/2024/file.csv" 5) (mk_record 5 0));
      vm_compute; reflexivity.
  - apply (proj2 (@should_skip_transfer_ledger_first nat (scripted mirrored)
                    fresh_process "data/2024/file.csv" 5)).
    intros r Hr. vm_compute in Hr. discriminate.
Defined.

Lemma transfer_method_threshold_witness :
  transfer_method 104857600 = Simple
  /\ @transfer_file nat (scripted quiet) small_obj fresh_process =
     (success <- @transfer_small_file nat (scripted quiet) "data/2024/file.csv"
                   "backup/2024/file.csv" 5 ;;
      @settle nat (scripted quiet) "data/2024/file.csv" 5 success)
       (snd (@should_skip_transfer nat (scripted quiet) "data/2024/file.csv" 5
               fresh_process)).
Proof.
  pose proof (@transfer_method_threshold nat (scripted quiet) fresh_process
                (snd (@should_skip_transfer nat (scripted quiet) "data/2024/file.csv" 5
                        fresh_process))
                small_obj ltac:(vm_compute; reflexivity)) as (_ & _ & Hb & _ & Hrun).
  split; [exact Hb | exact Hrun].
Defined.

Lemma transfer_large_file_parts_witness :
  exists (upload_id : string) (body : list byte) (chunks : list (list byte))
         (etags : list string),
    chunking 2 body chunks
    /\ length etags = length chunks
    /\ calls (snd (large_copy quiet)) =
       [CreateMultipartUpload "dst-bucket" "backup/2024/file.csv" (Returned upload_id);
        GetObject "src-bucket" "data/2024/file.csv" (Returned body)]
       ++ upload_calls "dst-bucket" "backup/2024/file.csv" upload_id 1 chunks etags
       ++ [CompleteMultipartUpload "dst-bucket" "backup/2024/file.csv" upload_id
             (numbered_parts 1 etags) (Returned tt)]
    /\ PartNumber <$> numbered_parts 1 etags = seqZ 1 (Z.of_nat (length chunks))
    /\ total_uploaded (calls (snd (large_copy quiet))) = Z.of_nat (length body).
Proof.
  destruct (@transfer_large_file_parts nat (scripted quiet) "data/2024/file.csv"
              "backup/2024/file.csv" 5 fresh_process (snd (large_copy quiet))
              ltac:(vm_compute; reflexivity) ltac:(vm_compute; reflexivity))
    as (upload_id & body & chunks & etags & Hch & _ & Hlen & Hcalls & Hnum & _ & _
        & Hbytes).
  exists upload_id, body, chunks, etags. cbn zeta in Hcalls, Hnum, Hbytes.
  split; [exact Hch|]. split; [exact Hlen|]. split; [exact Hcalls|].
  split; [exact Hnum|]. rewrite Hcalls. exact Hbytes.
Defined.

(** The copy of the five bytes of [example_body] in chunks of two bytes:
    three parts, numbered 1, 2, 3. *)
Example large_copy_of_five_bytes :
  fst (large_copy quiet) = Returned true
  /\ filter (fun c => Is_true (is_upload_part c)) (calls (snd (large_copy quiet))) =
     [UploadPart "dst-bucket" "backup/2024/file.csv" 1 "upload-1" [x01; x02]
        (Returned "etag-1");
      UploadPart "dst-bucket" "backup/2024/file.csv" 2 "upload-1" [x03; x04]
        (Returned "etag-2");
      UploadPart "dst-bucket" "backup/2024/file.csv" 3 "upload-1" [x05]
        (Returned "etag-3")]
  /\ last (calls (snd (large_copy quiet))) =
     Some (CompleteMultipartUpload "dst-bucket" "backup/2024/file.csv" "upload-1"
             [mk_part "etag-1" 1; mk_part "etag-2" 2; mk_part "etag-3" 3] (Returned tt)).
Proof. repeat split; vm_compute; reflexivity. Qed.

Lemma transfer_large_file_aborts_on_ClientError_witness :
  exists new,
    calls (snd (large_copy rejected_upload)) = calls fresh_process ++ new
    /\ fst (large_copy rejected_upload) = Returned false
    /\ last new = Some (AbortMultipartUpload "dst-bucket" "backup/2024/file.csv"
                          "upload-1" (Raised OtherException)).
Proof.
  destruct (@transfer_large_file_aborts_on_ClientError nat (scripted rejected_upload)
              "data/2024/file.csv" "backup/2024/file.csv" 5 fresh_process
              (snd (large_copy rejected_upload)) (fst (large_copy rejected_upload))
              ltac:(vm_compute; reflexivity))
    as (new & Hcalls & _ & Hclient & _).
  exists new. split; [exact Hcalls|].
  assert (Hin : In (UploadPart "dst-bucket" "backup/2024/file.csv" 2 "upload-1"
                      [x03; x04] (Raised ClientError)) new).
  { assert (Hall : calls (snd (large_copy rejected_upload)) =
                   [CreateMultipartUpload "dst-bucket" "backup/2024/file.csv"
                      (Returned "upload-1");
                    GetObject "src-bucket" "data/2024/file.csv" (Returned example_body);
                    UploadPart "dst-bucket" "backup/2024/file.csv" 1 "upload-1"
                      [x01; x02] (Returned "etag-1");
                    UploadPart "dst-bucket" "backup/2024/file.csv" 2 "upload-1"
                      [x03; x04] (Raised ClientError);
                    AbortMultipartUpload "dst-bucket" "backup/2024/file.csv" "upload-1"
                      (Raised OtherException)])
      by (vm_compute; reflexivity).
    rewrite Hall in Hcalls. simpl in Hcalls. subst new. simpl. tauto. }
  destruct (Hclient _ Hin eq_refl) as (Hr & before & upload_id & ra & Hnew & _).
  split; [exact Hr|].
  assert (Hall : calls (snd (large_copy rejected_upload)) =
                 calls fresh_process ++ before
                 ++ [AbortMultipartUpload "dst-bucket" "backup/2024/file.csv" upload_id ra])
    by (rewrite Hcalls, Hnew; reflexivity).
  rewrite Hnew, last_snoc. f_equal.
  apply (f_equal last) in Hall. simpl in Hall. rewrite last_snoc in Hall.
  vm_compute in Hall. injection Hall as <- <-. reflexivity.
Defined.

(** C7, as stated, fails: when [upload_part] raises an exception that is not
    a [ClientError], [transfer_large_file] raises it instead of returning
    [False], and requests no abort. *)
Lemma other_exception_escapes_without_abort :
  fst (large_copy broken_upload) = Raised OtherException
  /\ last (calls (snd (large_copy broken_upload))) =
     Some (UploadPart "dst-bucket" "backup/2024/file.csv" 1 "upload-1" [x01; x02]
             (Raised OtherException))
  /\ fst (large_copy broken_upload) <> Returned false
  /\ Forall (fun c => is_abort c = false) (calls (snd (large_copy broken_upload))).
Proof.
  assert (Hr : fst (large_copy broken_upload) = Raised OtherException)
    by (vm_compute; reflexivity).
  split; [exact Hr|]. split; [vm_compute; reflexivity|].
  split; [rewrite Hr; discriminate|].
  vm_compute. repeat constructor.
Qed.

Lemma main_exit_status_witness :
  @main nat (scripted quiet) (example_args "data" "backup") (Stored example_credentials)
    Missing O = 0
  /\ exists (q' : process nat),
       fst (@run_transfer nat (scripted quiet)
              (snd (@construct nat (example_args "data" "backup") Missing O)))
         = Returned true
       /\ 0 < total_files (self_stats (self q'))
       /\ failed_files (self_stats (self q')) = 0.
Proof.
  assert (Hcode : @main nat (scripted quiet) (example_args "data" "backup")
                    (Stored example_credentials) Missing O = 0)
    by (vm_compute; reflexivity).
  split; [exact Hcode|].
  destruct (proj1 (proj2 (@main_exit_status nat (scripted quiet)
                            (example_args "data" "backup") (Stored example_credentials)
                            Missing O)) Hcode)
    as (creds & p & q & b & q' & _ & _ & _ & _ & Hp & Hq & Hrun & Hpos & Hzero).
  exists q'. split; [vm_compute; reflexivity|]. split; assumption.
Defined.

(** C4, as stated, fails: a run whose listing is empty ends with no failed
    object, and the process exits with 1. *)
Lemma empty_listing_exits_with_1 :
  @main nat (scripted quiet) (example_args "nothing" "") (Stored example_credentials)
    Missing O = 1
  /\ @main nat (scripted quiet) (example_args "nothing" "") (Stored example_credentials)
       Missing O <> 0
  /\ fst (@run_transfer nat (scripted quiet)
            (snd (@construct nat (example_args "nothing" "") Missing O)))
     = Returned false
  /\ failed_files (self_stats (self (first_run quiet (example_args "nothing" "")))) = 0
  /\ calls (first_run quiet (example_args "nothing" "")) =
     [PaginateListObjectsV2 "src-bucket" "nothing" [Some []] None].
Proof.
  assert (Hcode : @main nat (scripted quiet) (example_args "nothing" "")
                    (Stored example_credentials) Missing O = 1)
    by (vm_compute; reflexivity).
  split; [exact Hcode|]. split; [rewrite Hcode; discriminate|].
  repeat split; vm_compute; reflexivity.
Qed.

(** What run 1 does under [quiet] with the prefixes ["data"] and
    ["backup"]: two objects are listed, and each is looked for at the
    destination, downloaded and uploaded. *)
Lemma first_run_quiet_calls :
  calls (first_run quiet (example_args "data" "backup")) =
  [PaginateListObjectsV2 "src-bucket" "data"
     [Some [mk_summary "data/2024/file.csv" 5 10; mk_summary "database/x" 5 11]] None;
   HeadObject "dst-bucket" "backup/2024/file.csv" (Raised ClientError);
   GetObject "src-bucket" "data/2024/file.csv" (Returned example_body);
   PutObject "dst-bucket" "backup/2024/file.csv" example_body (Returned tt);
   HeadObject "dst-bucket" "backup/base/x" (Raised ClientError);
   GetObject "src-bucket" "database/x" (Returned example_body);
   PutObject "dst-bucket" "backup/base/x" example_body (Returned tt)].
Proof. vm_compute. reflexivity. Qed.

Lemma example_listing :
  collect [Some (keys_with_prefix "data" example_bucket)] =
  [mk_obj "data/2024/file.csv" 5 10; mk_obj "database/x" 5 11].
Proof. vm_compute. reflexivity. Qed.

Lemma second_run_skips_everything_witness :
  let args := example_args "data" "backup" in
  Forall (fun c => moves_data c = false) (calls (second_run quiet args))
  /\ total_uploaded (calls (second_run quiet args)) = 0
  /\ total_files (self_stats (self (second_run quiet args))) = 2
  /\ transferred_files (self_stats (self (second_run quiet args))) = 2
  /\ failed_files (self_stats (self (second_run quiet args))) = 0
  /\ total_uploaded (calls (first_run quiet args)) = 10.
Proof.
  cbn zeta.
  pose proof (@second_run_skips_everything nat (scripted quiet)
                (example_args "data" "backup") Missing O
                [Some (keys_with_prefix "data" example_bucket)]
                (snd (@construct nat (example_args "data" "backup") Missing O))
                (first_run quiet (example_args "data" "backup"))
                (snd (@construct nat (example_args "data" "backup")
                        (progress_file (first_run quiet (example_args "data" "backup")))
                        (world (first_run quiet (example_args "data" "backup")))))
                (second_run quiet (example_args "data" "backup"))
                true
                (fst (@run_transfer nat (scripted quiet)
                        (snd (@construct nat (example_args "data" "backup")
                                (progress_file (first_run quiet (example_args "data" "backup")))
                                (world (first_run quiet (example_args "data" "backup"))))))))
    as Hthm.
  cbn zeta in Hthm. rewrite example_listing, first_run_quiet_calls in Hthm.
  destruct Hthm as (Hdata & Hbytes & Htotal & Htransferred & _ & Hfailed & _).
  - intros w0. reflexivity.
  - apply (bool_decide_unpack _). vm_compute. exact I.
  - intros w0. reflexivity.
  - reflexivity.
  - vm_compute. reflexivity.
  - vm_compute. reflexivity.
  - intros o w0 Hin Hcall. exfalso.
    destruct Hin as [<- | [<- | []]];
      repeat (destruct Hcall as [Hcall | Hcall]; [discriminate|]); exact Hcall.
  - vm_compute. reflexivity.
  - vm_compute. reflexivity.
  - split; [exact Hdata|]. split; [exact Hbytes|].
    split; [exact Htotal|].
    split; [rewrite Htransferred; exact Htotal|].
    split; [exact Hfailed | vm_compute; reflexivity].
Defined.

(** C5, as stated, fails: when the upload of an object failed in run 1, the
    ledger of run 1 has no record for it, and run 2 copies it, over an
    unchanged source: its five bytes are uploaded in run 2. *)
Lemma failed_object_is_copied_by_second_run :
  let args := example_args "logs" "" in
  failed_files (self_stats (self (first_run flaky_put args))) = 1
  /\ total_uploaded (calls (second_run flaky_put args)) = 5
  /\ total_uploaded (calls (second_run flaky_put args)) <> 0
  /\ last (calls (second_run flaky_put args)) =
     Some (PutObject "dst-bucket" "a" example_body (Returned tt))
  /\ transferred_files (self_stats (self (second_run flaky_put args))) = 1.
Proof.
  cbn zeta.
  assert (Hbytes : total_uploaded (calls (second_run flaky_put (example_args "logs" "")))
                   = 5) by (vm_compute; reflexivity).
  split; [vm_compute; reflexivity|]. split; [exact Hbytes|].
  split; [rewrite Hbytes; discriminate|].
  split; vm_compute; reflexivity.
Qed.

Lemma progress_errors_are_not_fatal_witness :
  let done := @transfer_file nat (scripted readonly_disk) small_obj fresh_process in
  fst done = Returned true
  /\ transferred_files (self_stats (self (snd done))) = 1
  /\ failed_files (self_stats (self (snd done))) = 0
  /\ in_ledger (completed_transfers (self (snd done))) "data/2024/file.csv" 5 = true
  /\ progress_file (snd done) = Missing
  /\ fst (@load_progress nat (snd done)) = Returned ∅.
Proof.
  cbn zeta.
  pose proof (proj2 (proj2 (@progress_errors_are_not_fatal nat (scripted readonly_disk)
                              fresh_process))
                small_obj
                (snd (@should_skip_transfer nat (scripted readonly_disk)
                        "data/2024/file.csv" 5 fresh_process))
                (snd (@transfer_small_file nat (scripted readonly_disk)
                        "data/2024/file.csv" "backup/2024/file.csv" 5
                        (snd (@should_skip_transfer nat (scripted readonly_disk)
                                "data/2024/file.csv" 5 fresh_process))))
                ltac:(vm_compute; reflexivity) ltac:(vm_compute; reflexivity))
    as Hthm.
  cbn zeta in Hthm.
  destruct (datetime_now _) as [t w1] in Hthm.
  destruct Hthm as (Hret & Htransferred & _ & Hfailed & Hledger & Hfile).
  split; [exact Hret|]. split; [exact Htransferred|]. split; [exact Hfailed|].
  split; [rewrite Hledger; unfold in_ledger; rewrite lookup_insert_eq; reflexivity|].
  split; [rewrite Hfile; reflexivity|].
  rewrite (proj1 (@progress_errors_are_not_fatal nat (scripted readonly_disk) _)).
  rewrite Hfile. reflexivity.
Defined.

Lemma prefix_matching_is_textual_witness :
  let p := snd (@construct nat (example_args "data//" "backup/") Missing O) in
  source_prefix (self p) = "data"
  /\ destination_prefix (self p) = "backup"
  /\ In (mk_obj "database/x" 5 11)
        (map summary_to_obj (keys_with_prefix "data" example_bucket))
  /\ fst (@list_source_objects nat (scripted quiet) p) =
     Returned [mk_obj "data/2024/file.csv" 5 10; mk_obj "database/x" 5 11]
  /\ get_destination_key (self p) "database/x" = "backup/base/x".
Proof.
  cbn zeta.
  destruct (@prefix_matching_is_textual nat (scripted quiet)
              (example_args "data//" "backup/") Missing O)
    as ((Hsp & Hdp & _) & Hlist & Hkey & _).
  cbn zeta in Hsp, Hdp, Hlist, Hkey.
  split; [rewrite Hsp; reflexivity|]. split; [rewrite Hdp; reflexivity|].
  destruct (Hlist example_bucket [Some (keys_with_prefix "data" example_bucket)] 1%nat
              ltac:(vm_compute; reflexivity) ltac:(vm_compute; reflexivity))
    as [Hrun Hall].
  split.
  { apply (Hall (mk_summary "database/x" 5 11)); [right; left; reflexivity|].
    vm_compute. reflexivity. }
  split; [rewrite Hrun; vm_compute; reflexivity|].
  rewrite Hkey. vm_compute. reflexivity.
Defined.

(** C10, as stated, fails: with no source prefix configured, a key that
    begins with ['/'] keeps it, where stripping the leading ['/'] characters
    of every listed key would remove it. *)
Lemma no_prefix_keeps_leading_separator :
  get_destination_key (example_self "" "" 2 ∅) "/a" = "/a"
  /\ destination_key_always_stripped (example_self "" "" 2 ∅) "/a" = "a"
  /\ get_destination_key (example_self "" "" 2 ∅) "/a"
     <> destination_key_always_stripped (example_self "" "" 2 ∅) "/a".
Proof. repeat split; try reflexivity. discriminate. Qed.

(** * Further properties of the engine *)

Section MoreEngineFacts.

Context {W : Type} `{Environment W}.

(** ** The access test *)

(** X1: [test_source_access] never raises.  It asks for the bucket first and
    lists (at most 5 keys under the source prefix) only when that call
    returned; it answers [True] exactly when both calls returned; it makes no
    other call and changes neither [self] nor the progress file.  When the
    test was requested and fails, [test_and_run] ends with status 1 in the
    state the test left: nothing is listed for transfer and nothing is
    copied. *)
Theorem test_source_access_outcome (args : Args) (p : process W) :
  let s := self p in
  let head := src_head_bucket (source_bucket s) (world p) in
  let listing := src_list_objects_v2 (source_bucket s) 5 (source_prefix s) (snd head) in
  let done := test_source_access p in
  (exists b, fst done = Returned b)
  /\ (fst done = Returned true
      <-> (exists u, fst head = Returned u) /\ (exists pg, fst listing = Returned pg))
  /\ self (snd done) = self p
  /\ progress_file (snd done) = progress_file p
  /\ calls (snd done) =
     calls p ++ HeadBucket (source_bucket s) (fst head)
                :: match fst head with
                   | Returned _ =>
                       [ListObjectsV2 (source_bucket s) 5 (source_prefix s) (fst listing)]
                   | Raised _ => []
                   end
  /\ (arg_test_access args = true -> fst done = Returned false ->
      test_and_run args p = (Returned 1, snd done)).
Proof.
  cbn zeta.
  assert (Hrun : test_and_run args p =
                 if arg_test_access args
                 then match test_source_access p with
                      | (Returned true, q) =>
                          (success <- run_transfer ;;
                           ret (if (success : bool) then 0 else 1)) q
                      | (Returned false, q) => (Returned 1, q)
                      | (Raised e, q) => (Raised e, q)
                      end
                 else (success <- run_transfer ;;
                       ret (if (success : bool) then 0 else 1)) p).
  { unfold test_and_run. unfold bind at 1.
    destruct (arg_test_access args); [|reflexivity].
    destruct (test_source_access p) as [[[|]|e] q]; reflexivity. }
  rewrite Hrun. clear Hrun.
  unfold test_source_access, try_except, bind, get_self, head_bucket, list_objects_v2,
    invoke, ret.
  destruct (src_head_bucket _ _) as [[[]|[|]] w1]; cbn [fst snd world set_world log_call].
  2,3: (split; [eauto|]; split; [split; [discriminate | intros [[u [=]] _]]|];
        repeat split; intros ->; reflexivity).
  destruct (src_list_objects_v2 _ _ _ w1) as [[pg|[|]] w2];
    cbn [fst snd world set_world log_call self progress_file calls any_exception
         is_ClientError].
  - split; [eauto|]. split; [split; eauto|]. rewrite <- app_assoc.
    repeat split. intros _ [=].
  - split; [eauto|]. split; [split; [discriminate | intros [_ [pg [=]]]]|].
    rewrite <- app_assoc. repeat split. intros ->. reflexivity.
  - split; [eauto|]. split; [split; [discriminate | intros [_ [pg [=]]]]|].
    rewrite <- app_assoc. repeat split. intros ->. reflexivity.
Qed.

(** ** The listing *)

Lemma collect_app (ps qs : list page) : collect (ps ++ qs) = collect ps ++ collect qs.
Proof.
  induction ps as [|[contents|] ps IH]; simpl; [reflexivity | | exact IH].
  rewrite IH, app_assoc. reflexivity.
Qed.

Lemma in_collect (o : obj) (pages : list page) :
  In o (collect pages)
  <-> exists contents summary,
        In (Some contents) pages /\ In summary contents /\ o = summary_to_obj summary.
Proof.
  induction pages as [|[contents|] pages IH]; simpl.
  - split; [intros [] | intros (c & s & [] & _)].
  - rewrite in_app_iff, in_map_iff, IH. split.
    + intros [(s & <- & Hs) | (c & s & Hc & Hs & ->)]; [|eauto 7].
      exists contents, s. auto.
    + intros (c & s & [[= <-] | Hc] & Hs & ->); [left; eauto | right; eauto].
  - rewrite IH. split.
    + intros (c & s & Hc & Hs & ->). eauto 7.
    + intros (c & s & [[=] | Hc] & Hs & ->). eauto.
Qed.

(** X2: [list_source_objects] makes one paginated listing, of the source
    bucket under the stored source prefix, and changes neither [self] nor the
    progress file.  When the pages end without an exception it returns the
    objects of every page that has [Contents], in page order; a [ClientError]
    raised while paginating makes it return the empty list, whatever the pages
    already read held; another exception leaves the function. *)
Theorem list_source_objects_outcome (p : process W) :
  let s := self p in
  let answer := src_paginate (source_bucket s) (source_prefix s) (world p) in
  let pages := fst (fst answer) in
  let done := list_source_objects p in
  self (snd done) = self p
  /\ progress_file (snd done) = progress_file p
  /\ calls (snd done) =
     calls p ++ [PaginateListObjectsV2 (source_bucket s) (source_prefix s) pages
                   (snd (fst answer))]
  /\ fst done =
     match snd (fst answer) with
     | None => Returned (collect pages)
     | Some ClientError => Returned []
     | Some OtherException => Raised OtherException
     end
  /\ (forall o, In o (collect pages) <->
        exists contents summary,
          In (Some contents) pages /\ In summary contents /\ o = summary_to_obj summary)
  /\ (forall ps qs, collect (ps ++ qs) = collect ps ++ collect qs).
Proof.
  cbn zeta. rewrite list_source_objects_run.
  destruct (src_paginate _ _ _) as [[pages [[|]|]] w]; cbn [fst snd];
    (repeat split; try apply in_collect; try apply collect_app).
Qed.

(** ** Copies *)

(** [transfer_small_file], call by call. *)
Lemma transfer_small_file_unfold (source_key dest_key : string) (size : Z) (p : process W) :
  transfer_small_file source_key dest_key size p =
  let s := self p in
  let on_error (e : exn) (q : process W) : result bool * process W :=
    if is_ClientError e then (Returned false, q) else (Raised e, q) in
  match get_object (source_bucket s) source_key p with
  | (Raised e, p1) => on_error e p1
  | (Returned stream, p1) =>
      match stream_read (-1) stream p1 with
      | (Raised e, p2) => on_error e p2
      | (Returned body, p2) =>
          match put_object (destination_bucket s) dest_key (fst body) p2 with
          | (Raised e, p3) => on_error e p3
          | (Returned _, p3) => (Returned true, p3)
          end
      end
  end.
Proof.
  unfold transfer_small_file, bind, get_self, try_except, ret. cbn zeta.
  destruct (get_object _ _ p) as [[stream|[|]] p1]; try reflexivity.
  destruct (stream_read _ _ p1) as [[body|[|]] p2]; try reflexivity.
  destruct (put_object _ _ _ p2) as [[[]|[|]] p3]; reflexivity.
Qed.

(** X3: [transfer_small_file] never lets a [ClientError] escape: it returns
    [False] for it.  It returns [True] exactly when the download, the read of
    the body and the upload all succeeded, and then its calls are one
    [get_object] and one [put_object] to the destination key whose body is the
    whole body downloaded.  When the download fails nothing is uploaded.
    [self] and the progress file are not touched. *)
Theorem transfer_small_file_outcome
    (source_key dest_key : string) (size : Z) (p p' : process W) (r : result bool) :
  transfer_small_file source_key dest_key size p = (r, p') ->
  let s := self p in
  self p' = s /\ progress_file p' = progress_file p
  /\ r <> Raised ClientError
  /\ exists download,
       let get := GetObject (source_bucket s) source_key download in
       match download with
       | Raised e =>
           calls p' = calls p ++ [get]
           /\ r = if is_ClientError e then Returned false else Raised e
       | Returned body =>
           (r = Returned true ->
            calls p' = calls p ++ [get; PutObject (destination_bucket s) dest_key body
                                          (Returned tt)]
            /\ total_uploaded [get; PutObject (destination_bucket s) dest_key body
                                      (Returned tt)] = Z.of_nat (length body))
           /\ (r <> Returned true ->
               exists e, r = (if is_ClientError e then Returned false else Raised e)
                 /\ (calls p' = calls p ++ [get]
                     \/ calls p' = calls p ++ [get; PutObject (destination_bucket s)
                                                      dest_key body (Raised e)]))
       end.
Proof.
  intros Hrun. cbn zeta.
  destruct (framed_transfer_small_file _ _ _ _ _ _ Hrun) as (Hs & Hf & _).
  split; [exact Hs|]. split; [exact Hf|].
  rewrite transfer_small_file_unfold in Hrun. cbn zeta in Hrun.
  destruct (get_object _ _ p) as [[stream|e] p1] eqn:Hget;
    apply invoke_inv in Hget as (Hc1 & _).
  2: { split; [destruct e; injection Hrun as <- <-; discriminate|].
       exists (Raised e). destruct e; injection Hrun as <- <-; auto. }
  destruct (stream_read _ _ p1) as [[body|e] p2] eqn:Hread;
    apply stream_read_inv in Hread.
  2: { destruct Hread as [(_ & _ & Hc2 & _) | (Hbad & _)]; [|discriminate].
       split; [destruct e; injection Hrun as <- <-; discriminate|].
       exists (Returned stream). split.
       - intros ->. destruct e; discriminate.
       - intros _. exists e. split; [destruct e; injection Hrun as <- <-; reflexivity|].
         left. destruct e; injection Hrun as <- <-; congruence. }
  destruct Hread as [(_ & _ & _ & e & [=]) | Hread]. cbn zeta in Hread.
  change (-1 <? 0) with true in Hread. cbn iota in Hread.
  destruct Hread as (Hbody & _ & _ & Hc2). injection Hbody as ->.
  cbn [fst] in Hrun. rewrite firstn_all in Hrun.
  destruct (put_object _ _ _ p2) as [[[]|e] p3] eqn:Hput;
    apply invoke_inv in Hput as (Hc3 & _).
  - injection Hrun as <- <-. split; [discriminate|]. exists (Returned stream). split.
    + intros _. split.
      * rewrite Hc3, Hc2, Hc1, <- app_assoc. reflexivity.
      * unfold total_uploaded. simpl. lia.
    + intros Hne. contradiction.
  - split; [destruct e; injection Hrun as <- <-; discriminate|].
    exists (Returned stream). split.
    + intros ->. destruct e; discriminate.
    + intros _. exists e. split; [destruct e; injection Hrun as <- <-; reflexivity|].
      right. destruct e; injection Hrun as <- <-;
        rewrite Hc3, Hc2, Hc1, <- app_assoc; reflexivity.
Qed.

(** X4: when [create_multipart_upload] raises [ClientError],
    [transfer_large_file] returns [False] after that single call: [upload_id]
    was never bound, so the abort raises before a request is sent and nothing
    is downloaded; another exception raised by the creation leaves the
    function. *)
Theorem transfer_large_file_creation_fails
    (source_key dest_key : string) (size : Z) (p : process W) (e : exn) (w : W) :
  dst_create_multipart_upload (destination_bucket (self p)) dest_key (world p)
    = (Raised e, w) ->
  transfer_large_file source_key dest_key size p =
  (if is_ClientError e then Returned false else Raised e,
   log_call (CreateMultipartUpload (destination_bucket (self p)) dest_key (Raised e))
     (set_world w p)).
Proof.
  intros Hcreate. rewrite transfer_large_file_unfold. cbn zeta.
  unfold create_multipart_upload, invoke. rewrite Hcreate.
  destruct e; reflexivity.
Qed.

(** X5: with a chunk size of 0 every read is empty: a [transfer_large_file]
    that succeeds has uploaded no part, whatever the size of the body, and has
    completed the upload with an empty part list. *)
Theorem transfer_large_file_zero_chunk
    (source_key dest_key : string) (size : Z) (p p' : process W) :
  chunk_size (self p) = 0 ->
  transfer_large_file source_key dest_key size p = (Returned true, p') ->
  exists (upload_id : string) (body : list byte),
    calls p' =
    calls p ++ [CreateMultipartUpload (destination_bucket (self p)) dest_key
                  (Returned upload_id);
                GetObject (source_bucket (self p)) source_key (Returned body);
                CompleteMultipartUpload (destination_bucket (self p)) dest_key upload_id
                  [] (Returned tt)]
    /\ total_uploaded
         [CreateMultipartUpload (destination_bucket (self p)) dest_key (Returned upload_id);
          GetObject (source_bucket (self p)) source_key (Returned body);
          CompleteMultipartUpload (destination_bucket (self p)) dest_key upload_id
            [] (Returned tt)] = 0.
Proof.
  intros Hzero Hrun. rewrite transfer_large_file_unfold in Hrun. cbn zeta in Hrun.
  destruct (create_multipart_upload _ _ p) as [[upload_id|e] p1] eqn:Hcreate.
  2: { destruct e; simpl in Hrun; [|discriminate].
       rewrite abort_and_report_unbound in Hrun. discriminate. }
  destruct (get_object _ _ p1) as [[body|e] p2] eqn:Hget.
  2: { destruct e; simpl in Hrun; [|discriminate].
       rewrite abort_and_report_bound in Hrun.
       destruct (dst_abort_multipart_upload _ _ _ _); discriminate. }
  assert (Hloop : forall q, upload_all_parts (self p) dest_key upload_id body q =
                            match stream_read 0 body q with
                            | (Raised e, q1) => (Raised e, q1)
                            | (Returned _, q1) => (Returned [], q1)
                            end).
  { intros q. unfold upload_all_parts. cbn [upload_parts]. rewrite Hzero.
    destruct (stream_read 0 body q) as [[[chunk rest]|e] q1] eqn:Hread; [|reflexivity].
    apply stream_read_inv in Hread.
    destruct Hread as [(_ & _ & _ & e & [=]) | (Heq & _)].
    cbn in Heq. injection Heq as -> ->. reflexivity. }
  rewrite Hloop in Hrun.
  destruct (stream_read 0 body p2) as [[chunk|e] p3] eqn:Hread.
  2: { destruct e; simpl in Hrun; [|discriminate].
       rewrite abort_and_report_bound in Hrun.
       destruct (dst_abort_multipart_upload _ _ _ _); discriminate. }
  apply stream_read_inv in Hread.
  destruct Hread as [(_ & _ & _ & e & [=]) | (_ & _ & _ & Hc3)].
  destruct (complete_multipart_upload _ _ _ _ p3) as [[[]|e] p4] eqn:Hcomplete.
  2: { destruct e; simpl in Hrun; [|discriminate].
       rewrite abort_and_report_bound in Hrun.
       destruct (dst_abort_multipart_upload _ _ _ _); discriminate. }
  injection Hrun as <-.
  apply invoke_inv in Hcreate as (Hc1 & _). apply invoke_inv in Hget as (Hc2 & _).
  apply invoke_inv in Hcomplete as (Hc4 & _).
  exists upload_id, body. split; [|reflexivity].
  rewrite Hc4, Hc3, Hc2, Hc1, <- !app_assoc. reflexivity.
Qed.

(** ** Planning and accounting *)

(** X6: [should_skip_transfer] decides without changing [self] or the
    progress file; it sends no request when the ledger matches and exactly one
    head request, for the mapped destination key, when it does not; it never
    lets a [ClientError] escape, and raises only what that head request raised
    otherwise. *)
Theorem should_skip_transfer_is_read_only
    (p : process W) (source_key : string) (source_size : Z) :
  let s := self p in
  let dest_key := get_destination_key s source_key in
  let head := dst_head_object (destination_bucket s) dest_key (world p) in
  let done := should_skip_transfer source_key source_size p in
  self (snd done) = s
  /\ progress_file (snd done) = progress_file p
  /\ fst done <> Raised ClientError
  /\ (in_ledger (completed_transfers s) source_key source_size = true ->
      snd done = p)
  /\ (in_ledger (completed_transfers s) source_key source_size = false ->
      calls (snd done) = calls p ++ [HeadObject (destination_bucket s) dest_key (fst head)]
      /\ world (snd done) = snd head
      /\ (fst done = Raised OtherException <-> fst head = Raised OtherException)
      /\ (fst done = Returned false
          <-> fst head = Raised ClientError
              \/ exists n, fst head = Returned n /\ n <> source_size)).
Proof.
  cbn zeta. rewrite should_skip_transfer_cases. cbn zeta.
  destruct (in_ledger _ _ _).
  - cbn [fst snd]. split; [reflexivity|]. split; [reflexivity|].
    split; [discriminate|]. split; [reflexivity | discriminate].
  - destruct (dst_head_object _ _ _) as [[n|[|]] w]; cbn [fst snd];
      (split; [reflexivity|]); (split; [reflexivity|]); (split; [discriminate|]);
      (split; [discriminate|]); intros _; (split; [reflexivity|]);
      (split; [reflexivity|]).
    + split; [split; discriminate|]. split.
      * intros Hn. right. exists n. split; [reflexivity|].
        apply Z.eqb_neq. congruence.
      * intros [Hn | (m & Hm & Hne)]; [discriminate|].
        injection Hm as <-. apply Z.eqb_neq in Hne. rewrite Hne. reflexivity.
    + split; [split; discriminate|]. split; [intros _; left; reflexivity | reflexivity].
    + split; [split; reflexivity|].
      split; [discriminate | intros [Hn | (m & Hm & _)]; discriminate].
Qed.

(** X7: a transfer is counted once.  When [transfer_file] returns [True] it
    has added 1 to [transferred_files] and the size of the object to
    [transferred_size]; when it returns [False] it has added 1 to
    [failed_files]; when it raises it has counted nothing.  The ledger in
    memory and the progress file are changed only by a transfer that returns
    [True], and then at most by the record of that object; the configuration
    and the totals are never changed. *)
Theorem transfer_file_counts_once
    (o : obj) (p p' : process W) (r : result bool) :
  transfer_file o p = (r, p') ->
  let st := self_stats (self p) in
  let st' := self_stats (self p') in
  let ledger := completed_transfers (self p) in
  let ledger' := completed_transfers (self p') in
  same_settings (self p) (self p')
  /\ match r with
     | Returned true =>
         transferred_files st' = transferred_files st + 1
         /\ transferred_size st' = transferred_size st + obj_size o
         /\ failed_files st' = failed_files st
         /\ (ledger' = ledger
             \/ exists t, ledger' = <[obj_key o := mk_record (obj_size o) t]> ledger)
     | Returned false =>
         transferred_files st' = transferred_files st
         /\ transferred_size st' = transferred_size st
         /\ failed_files st' = failed_files st + 1
         /\ ledger' = ledger /\ progress_file p' = progress_file p
     | Raised _ =>
         self p' = self p /\ progress_file p' = progress_file p
     end.
Proof.
  intros Hrun. cbn zeta.
  pose proof (transfer_file_settings _ _ _ _ Hrun) as [Hset _].
  apply transfer_file_effect in Hrun. cbn zeta in Hrun.
  destruct Hrun as (new & _ & [(-> & Hs & Hf & _) | [(-> & t & w1 & Hs & Hf)
                                | [(-> & Hs & Hf) | (e & -> & Hs & Hf)]]]);
    cbn [collected] in Hset.
  - split; [exact Hset|]. rewrite Hs. simpl. repeat split. left. reflexivity.
  - split; [exact Hset|]. rewrite Hs. simpl. repeat split. right. eauto.
  - split; [exact Hset|]. rewrite Hs. simpl. repeat split. exact Hf.
  - split; [rewrite Hs; apply same_settings_refl|]. split; assumption.
Qed.

(** X8: an object that was copied is skipped from then on in the same
    process, whether or not the write of the progress file succeeded: the
    record is in the ledger in memory, so the next [transfer_file] of the same
    object returns [True] without any request. *)
Theorem copied_object_is_skipped_next (o : obj) (p p1 pc : process W) :
  should_skip_transfer (obj_key o) (obj_size o) p = (Returned false, p1) ->
  copy_with (transfer_method (obj_size o)) (obj_key o)
    (get_destination_key (self p) (obj_key o)) (obj_size o) p1 = (Returned true, pc) ->
  let q := snd (transfer_file o p) in
  should_skip_transfer (obj_key o) (obj_size o) q = (Returned true, q)
  /\ transfer_file o q =
     (Returned true,
      set_self (set_stats (count_transferred (obj_size o) (self_stats (self q))) (self q)) q).
Proof.
  intros Hskip Hcopy. cbn zeta.
  rewrite (transfer_file_copied _ _ _ _ Hskip Hcopy).
  destruct (datetime_now (world pc)) as [t w1]. destruct (file_write w1) as [out w2].
  cbn [snd]. set (q := mk_process _ _ w2 (calls pc)).
  assert (Hin : in_ledger (completed_transfers (self q)) (obj_key o) (obj_size o) = true).
  { subst q. simpl. unfold in_ledger. rewrite lookup_insert_eq. apply Z.eqb_refl. }
  assert (Hq : should_skip_transfer (obj_key o) (obj_size o) q = (Returned true, q)).
  { rewrite should_skip_transfer_cases. cbn zeta. rewrite Hin. reflexivity. }
  split; [exact Hq|].
  unfold transfer_file. cbn zeta. unfold bind at 1. unfold get_self at 1.
  unfold bind at 1. rewrite Hq. reflexivity.
Qed.

Lemma collected_counts (o : obj) (p q : process W) (r : result bool) :
  transfer_file o p = (r, q) ->
  let st := self_stats (self p) in
  let st' := self_stats (self (collected r q)) in
  transferred_files st' + failed_files st' = transferred_files st + failed_files st + 1
  /\ transferred_files st <= transferred_files st'
  /\ failed_files st <= failed_files st'.
Proof.
  intros Hrun. apply transfer_file_effect in Hrun. cbn zeta in Hrun.
  destruct Hrun as (new & _ & [(-> & Hs & _) | [(-> & t & w1 & Hs & _)
                                 | [(-> & Hs & _) | (e & -> & Hs & _)]]]);
    cbn zeta; simpl; rewrite Hs; simpl; lia.
Qed.

Lemma run_pool_counts (objects : list obj) :
  forall p : process W,
    let st := self_stats (self p) in
    let st' := self_stats (self (snd (run_pool objects p))) in
    transferred_files st' + failed_files st'
    = transferred_files st + failed_files st + Z.of_nat (length objects)
    /\ transferred_files st <= transferred_files st'
    /\ failed_files st <= failed_files st'.
Proof.
  induction objects as [|o rest IH]; intros p; cbn zeta; [simpl; lia|].
  rewrite run_pool_step, run_pool_single.
  destruct (transfer_file o p) as [r q] eqn:Hrun. cbn [fst snd].
  specialize (IH (collected r q)). cbn zeta in IH.
  pose proof (collected_counts _ _ _ _ Hrun) as Hc. cbn zeta in Hc.
  change (length (o :: rest)) with (S (length rest)).
  rewrite Nat2Z.inj_succ. lia.
Qed.

(** X9: with the transfers run one after the other, the pool counts every
    submitted object exactly once and never raises: after it, [transferred_files + failed_files] has grown by the
    number of objects, whatever each transfer did (an exception of a transfer
    is one failed file); neither counter decreases, the configuration and the
    totals are unchanged, and running a list is running its parts one after
    the other. *)
Theorem run_pool_counts_every_object (objects : list obj) (p : process W) :
  let st := self_stats (self p) in
  let st' := self_stats (self (snd (run_pool objects p))) in
  fst (run_pool objects p) = Returned tt
  /\ transferred_files st' + failed_files st'
     = transferred_files st + failed_files st + Z.of_nat (length objects)
  /\ transferred_files st <= transferred_files st'
  /\ failed_files st <= failed_files st'
  /\ same_settings (self p) (self (snd (run_pool objects p)))
  /\ (forall first second,
        objects = first ++ second ->
        snd (run_pool objects p) = snd (run_pool second (snd (run_pool first p)))).
Proof.
  cbn zeta. split; [apply run_pool_returns|].
  pose proof (run_pool_counts objects p) as (Hsum & Ht & Hf). cbn zeta in Hsum, Ht, Hf.
  split; [exact Hsum|]. split; [exact Ht|]. split; [exact Hf|].
  split; [apply run_pool_settings|].
  clear Hsum Ht Hf. intros first second ->. revert p.
  induction first as [|o first IH]; intros p; [reflexivity|].
  change ((o :: first) ++ second) with (o :: first ++ second).
  rewrite (run_pool_step o (first ++ second)), (run_pool_step o first). apply IH.
Qed.

(** ** Whole runs *)

(** X10: the statistics of a run that returns.  Started from the fresh
    counters of the constructor, a [run_transfer] that returns leaves
    [transferred_files + failed_files = total_files]: every listed object is
    counted as transferred or as failed.  It returns [True] exactly when at
    least one object was listed and all of them are counted as transferred. *)
Theorem run_transfer_accounts_for_every_object
    (p p' : process W) (b : bool) :
  self_stats (self p) = fresh_stats ->
  run_transfer p = (Returned b, p') ->
  let st' := self_stats (self p') in
  transferred_files st' + failed_files st' = total_files st'
  /\ 0 <= transferred_files st' /\ 0 <= failed_files st'
  /\ (b = true <-> 0 < total_files st' /\ transferred_files st' = total_files st').
Proof.
  intros Hfresh Hrun. cbn zeta. rewrite run_transfer_unfold in Hrun.
  destruct (datetime_now (world p)) as [t0 w0]. cbn zeta in Hrun.
  rewrite list_source_objects_run in Hrun.
  cbn [self set_self world set_world source_bucket source_prefix set_stats] in Hrun.
  destruct (src_paginate _ _ w0) as [[pages err] w]. cbn [fst snd] in Hrun.
  set (p2 := log_call _ _) in Hrun.
  assert (Hs2 : self_stats (self p2) = set_start_time t0 fresh_stats).
  { subst p2. simpl. rewrite Hfresh. reflexivity. }
  clearbody p2.
  assert (Hlist : forall objects,
            (match objects with
             | [] => (Returned false, p2)
             | o :: rest =>
                 let p3 := set_self (set_stats (set_totals (o :: rest) (self_stats (self p2)))
                                       (self p2)) p2 in
                 if max_workers (self p2) <=? 0 then (Raised OtherException, p3)
                 else
                   let p4 := snd (run_pool (o :: rest) p3) in
                   let (t1, w1) := datetime_now (world p4) in
                   let p5 := set_self (set_stats (set_end_time t1 (self_stats (self p4)))
                                         (self p4)) (set_world w1 p4) in
                   match fst (print_summary p5) with
                   | Raised e => (Raised e, p5)
                   | Returned _ => (Returned (failed_files (self_stats (self p5)) =? 0), p5)
                   end
             end) = (Returned b, p') ->
            let st' := self_stats (self p') in
            transferred_files st' + failed_files st' = total_files st'
            /\ 0 <= transferred_files st' /\ 0 <= failed_files st'
            /\ (b = true <-> 0 < total_files st' /\ transferred_files st' = total_files st')).
  { intros [|o rest].
    - intros [= <- <-]. cbn zeta. rewrite Hs2. simpl.
      repeat split; try lia; try discriminate.
    - cbn zeta. destruct (max_workers (self p2) <=? 0); [discriminate|].
      set (p3 := set_self _ p2).
      pose proof (run_pool_counts (o :: rest) p3) as (Hsum & Ht & Hf).
      pose proof (run_pool_settings (o :: rest) p3) as [(_ & _ & _ & _ & _ & Htot & _) _].
      cbn zeta in Hsum, Ht, Hf.
      assert (H3 : self_stats (self p3) = set_totals (o :: rest) (set_start_time t0 fresh_stats)).
      { subst p3. simpl. rewrite Hs2. reflexivity. }
      rewrite H3 in Hsum, Ht, Hf, Htot. simpl in Hsum, Ht, Hf, Htot.
      destruct (datetime_now (world _)) as [t1 w1].
      destruct (fst (print_summary _)); [|discriminate].
      intros [= <- <-]. simpl.
      split; [lia|]. split; [lia|]. split; [lia|].
      rewrite Z.eqb_eq. lia. }
  destruct err as [[|]|].
  - apply (Hlist []). exact Hrun.
  - discriminate.
  - apply (Hlist (collect pages)). exact Hrun.
Qed.

(** X11: with object sizes that are not negative and the transfers run one
    after the other, the pool never reports
    more bytes than it was given: [transferred_size] grows by at most the sum
    of the sizes of the submitted objects, and never shrinks. *)
Theorem run_pool_transferred_size_bound (objects : list obj) (p : process W) :
  Forall (fun o => 0 <= obj_size o) objects ->
  let st := self_stats (self p) in
  let st' := self_stats (self (snd (run_pool objects p))) in
  transferred_size st <= transferred_size st'
  /\ transferred_size st' <= transferred_size st + sum_sizes objects.
Proof.
  intros Hsizes. revert p.
  induction Hsizes as [|o rest Ho _ IH]; intros p; cbn zeta; [simpl; lia|].
  rewrite run_pool_step, run_pool_single.
  destruct (transfer_file o p) as [r q] eqn:Hrun. cbn [fst snd].
  specialize (IH (collected r q)). cbn zeta in IH.
  assert (Hq : transferred_size (self_stats (self p))
               <= transferred_size (self_stats (self (collected r q)))
               <= transferred_size (self_stats (self p)) + obj_size o).
  { apply transfer_file_effect in Hrun. cbn zeta in Hrun.
    destruct Hrun as (new & _ & [(-> & Hs & _) | [(-> & t & w1 & Hs & _)
                                   | [(-> & Hs & _) | (e & -> & Hs & _)]]]);
      simpl; rewrite Hs; simpl; lia. }
  simpl sum_sizes. lia.
Qed.

(** X12: the ledger only grows, and only by the objects of the run (the
    transfers run one after the other).  After
    the pool, every key that was in the ledger is still in it, and every
    record of the ledger is either the one that was there before or a record
    of a submitted object, with that object's size. *)
Theorem run_pool_ledger_grows (objects : list obj) (p : process W) :
  let ledger := completed_transfers (self p) in
  let ledger' := completed_transfers (self (snd (run_pool objects p))) in
  (forall k, is_Some (ledger !! k) -> is_Some (ledger' !! k))
  /\ (forall k rec, ledger' !! k = Some rec ->
        ledger !! k = Some rec
        \/ exists o, In o objects /\ obj_key o = k /\ rec_size rec = obj_size o).
Proof.
  cbn zeta. revert p. induction objects as [|o rest IH]; intros p.
  - simpl. split; [tauto | intros; left; assumption].
  - rewrite run_pool_step, run_pool_single.
    destruct (transfer_file o p) as [r q] eqn:Hrun. cbn [fst snd].
    destruct (IH (collected r q)) as [Hkeep Hnew].
    assert (Hq : completed_transfers (self (collected r q)) = completed_transfers (self p)
                 \/ exists t, completed_transfers (self (collected r q))
                              = <[obj_key o := mk_record (obj_size o) t]>
                                  (completed_transfers (self p))).
    { apply transfer_file_effect in Hrun. cbn zeta in Hrun.
      destruct Hrun as (new & _ & [(-> & Hs & _) | [(-> & t & w1 & Hs & _)
                                     | [(-> & Hs & _) | (e & -> & Hs & _)]]]);
        simpl; rewrite Hs; simpl; eauto. }
    split.
    + intros k Hk. apply Hkeep. destruct Hq as [-> | [t ->]]; [exact Hk|].
      destruct (decide (obj_key o = k)) as [<- | Hne].
      * rewrite lookup_insert_eq. eauto.
      * rewrite lookup_insert_ne by exact Hne. exact Hk.
    + intros k rec Hk. destruct (Hnew k rec Hk) as [Hold | (o' & Hin & Hkey & Hsz)].
      * destruct Hq as [Hq | [t Hq]]; rewrite Hq in Hold; [left; exact Hold|].
        destruct (decide (obj_key o = k)) as [<- | Hne].
        -- rewrite lookup_insert_eq in Hold. injection Hold as <-.
           right. exists o. split; [left; reflexivity|]. split; reflexivity.
        -- rewrite lookup_insert_ne in Hold by exact Hne. left. exact Hold.
      * right. exists o'. split; [right; exact Hin|]. split; assumption.
Qed.

(** X13: [save_progress] never raises, and what it records is found again.
    The record is in the ledger in memory whatever the write did, so the same
    process skips the object without a request; the other keys of the ledger
    are untouched.  A write that succeeds leaves a progress file from which a
    new process starts with the same ledger; a file that cannot be opened for
    writing is left as it was. *)
Theorem save_progress_round_trip (key : string) (size : Z) (p : process W) :
  let wrote := fst (file_write (snd (datetime_now (world p)))) in
  let q := snd (save_progress key size p) in
  fst (save_progress key size p) = Returned tt
  /\ should_skip_transfer key size q = (Returned true, q)
  /\ (forall k, k <> key ->
        completed_transfers (self q) !! k = completed_transfers (self p) !! k)
  /\ (wrote = WriteOk ->
      forall (args : Args) (w : W),
        completed_transfers (self (snd (construct args (progress_file q) w)))
        = completed_transfers (self q))
  /\ (wrote = OpenFails -> progress_file q = progress_file p)
  /\ (wrote = DumpFails ->
      forall (args : Args) (w : W),
        completed_transfers (self (snd (construct args (progress_file q) w))) = ∅).
Proof.
  cbn zeta. rewrite save_progress_run.
  destruct (datetime_now (world p)) as [t w1]. cbn [fst snd].
  destruct (file_write w1) as [out w2].
  cbn [fst snd]. split; [reflexivity|]. split.
  { rewrite should_skip_transfer_cases. cbn zeta. simpl.
    unfold in_ledger. rewrite lookup_insert_eq. simpl. rewrite Z.eqb_refl. reflexivity. }
  split.
  { intros k Hk. simpl. apply lookup_insert_ne. congruence. }
  split; [|split].
  - intros ->. intros args w. rewrite construct_run. reflexivity.
  - intros ->. reflexivity.
  - intros ->. intros args w. rewrite construct_run. reflexivity.
Qed.

(** X14: the summary needs time to have passed.  A [run_transfer] that
    reaches the end of the pool stores the end time; if the clock then reads
    the very instant at which the run started, the average speed of
    [print_summary] divides by zero and the exception leaves [run_transfer],
    whatever the transfers did; with any other reading the run returns
    whether no file failed. *)
Theorem run_transfer_needs_elapsed_time
    (p p' : process W) (r : result bool) (t1 : Z) :
  end_time (self_stats (self p)) = None ->
  run_transfer p = (r, p') ->
  end_time (self_stats (self p')) = Some t1 ->
  let t0 := fst (datetime_now (world p)) in
  start_time (self_stats (self p')) = Some t0
  /\ (t1 = t0 -> r = Raised OtherException)
  /\ (t1 <> t0 -> r = Returned (failed_files (self_stats (self p')) =? 0)).
Proof.
  intros Hnone Hrun Hend. cbn zeta. rewrite run_transfer_unfold in Hrun.
  destruct (datetime_now (world p)) as [t0 w0]. cbn zeta in Hrun. cbn [fst].
  rewrite list_source_objects_run in Hrun.
  cbn [self set_self world set_world source_bucket source_prefix set_stats] in Hrun.
  destruct (src_paginate _ _ w0) as [[pages err] w]. cbn [fst snd] in Hrun.
  set (p2 := log_call _ _) in Hrun.
  assert (Hs2 : self_stats (self p2) = set_start_time t0 (self_stats (self p))).
  { subst p2. reflexivity. }
  assert (He2 : end_time (self_stats (self p2)) = None).
  { rewrite Hs2. exact Hnone. }
  clearbody p2.
  assert (Hlist : forall objects,
            (match objects with
             | [] => (Returned false, p2)
             | o :: rest =>
                 let p3 := set_self (set_stats (set_totals (o :: rest) (self_stats (self p2)))
                                       (self p2)) p2 in
                 if max_workers (self p2) <=? 0 then (Raised OtherException, p3)
                 else
                   let p4 := snd (run_pool (o :: rest) p3) in
                   let (t1, w1) := datetime_now (world p4) in
                   let p5 := set_self (set_stats (set_end_time t1 (self_stats (self p4)))
                                         (self p4)) (set_world w1 p4) in
                   match fst (print_summary p5) with
                   | Raised e => (Raised e, p5)
                   | Returned _ => (Returned (failed_files (self_stats (self p5)) =? 0), p5)
                   end
             end) = (r, p') ->
            start_time (self_stats (self p')) = Some t0
            /\ (t1 = t0 -> r = Raised OtherException)
            /\ (t1 <> t0 -> r = Returned (failed_files (self_stats (self p')) =? 0))).
  { intros [|o rest].
    - intros [= <- <-]. rewrite He2 in Hend. discriminate.
    - cbn zeta. destruct (max_workers (self p2) <=? 0).
      + intros [= <- <-]. simpl in Hend. rewrite He2 in Hend. discriminate.
      + set (p3 := set_self _ p2).
        pose proof (run_pool_settings (o :: rest) p3)
          as [(_ & _ & _ & _ & _ & _ & _ & Hst & _) _].
        assert (H3 : start_time (self_stats (self p3)) = Some t0).
        { subst p3. simpl. rewrite Hs2. reflexivity. }
        rewrite H3 in Hst.
        destruct (datetime_now (world _)) as [t1' w1].
        set (p5 := set_self _ _).
        assert (H5s : start_time (self_stats (self p5)) = Some t0).
        { subst p5. simpl. exact Hst. }
        assert (H5e : end_time (self_stats (self p5)) = Some t1').
        { subst p5. reflexivity. }
        assert (Hsum : fst (print_summary p5)
                       = if t1' - t0 =? 0 then Raised OtherException else Returned tt).
        { unfold print_summary, bind, get_self. rewrite H5s, H5e.
          destruct (t1' - t0 =? 0); reflexivity. }
        rewrite Hsum. destruct (t1' - t0 =? 0) eqn:Hd.
        * intros [= <- <-]. rewrite H5e in Hend. injection Hend as <-.
          apply Z.eqb_eq in Hd. split; [exact H5s|]. split; [reflexivity | lia].
        * intros [= <- <-]. rewrite H5e in Hend. injection Hend as <-.
          apply Z.eqb_neq in Hd. split; [exact H5s|]. split; [lia | reflexivity]. }
  destruct err as [[|]|].
  - apply (Hlist []). exact Hrun.
  - injection Hrun as <- <-. rewrite He2 in Hend. discriminate.
  - apply (Hlist (collect pages)). exact Hrun.
Qed.

(** ** Exceptions *)

Lemma contains_ret {A} (a : A) : contains_ClientError (W:=W) (ret a).
Proof. intros p. discriminate. Qed.

Lemma contains_bind {A B} (m : M W A) (k : A -> M W B) :
  contains_ClientError m -> (forall a, contains_ClientError (k a)) ->
  contains_ClientError (bind m k).
Proof.
  intros Hm Hk p. unfold bind. specialize (Hm p).
  destruct (m p) as [[a|e] p1]; [apply Hk|].
  cbn [fst] in *. intros [= ->]. apply Hm. reflexivity.
Qed.

Lemma contains_try_except {A} (body handler : M W A) (catches : exn -> bool) :
  catches ClientError = true ->
  contains_ClientError handler ->
  contains_ClientError (try_except body catches handler).
Proof.
  intros Hc Hh p. unfold try_except.
  destruct (body p) as [[a|[|]] p1]; [discriminate | rewrite Hc; apply Hh |].
  destruct (catches OtherException); [apply Hh | discriminate].
Qed.

Lemma contains_abort_and_report (s : S3BulkTransfer) (dest_key : string)
    (upload_id : option string) :
  contains_ClientError (abort_and_report s dest_key upload_id).
Proof.
  intros p. destruct upload_id as [u|].
  - rewrite abort_and_report_bound. destruct (dst_abort_multipart_upload _ _ _ _).
    discriminate.
  - rewrite abort_and_report_unbound. discriminate.
Qed.

Lemma contains_transfer_small_file (source_key dest_key : string) (size : Z) :
  contains_ClientError (transfer_small_file source_key dest_key size).
Proof.
  unfold transfer_small_file. apply contains_bind; [intros p; discriminate|].
  intros s. apply contains_try_except; [reflexivity | apply contains_ret].
Qed.

Lemma contains_transfer_large_file (source_key dest_key : string) (size : Z) :
  contains_ClientError (transfer_large_file source_key dest_key size).
Proof.
  unfold transfer_large_file. apply contains_bind; [intros p; discriminate|].
  intros s. apply contains_bind; [apply contains_try_except; [reflexivity | apply contains_ret]|].
  intros [u|]; [|apply contains_abort_and_report].
  apply contains_try_except; [reflexivity | apply contains_abort_and_report].
Qed.

Lemma contains_should_skip_transfer (source_key : string) (source_size : Z) :
  contains_ClientError (should_skip_transfer source_key source_size).
Proof.
  intros p. rewrite should_skip_transfer_cases. cbn zeta.
  destruct (in_ledger _ _ _); [discriminate|].
  destruct (dst_head_object _ _ _) as [[n|[|]] w]; discriminate.
Qed.

Lemma contains_settle (source_key : string) (size : Z) (success : bool) :
  contains_ClientError (settle source_key size success).
Proof.
  unfold settle. apply contains_bind; [|intros; apply contains_ret].
  destruct success.
  - apply contains_bind; [intros p; discriminate|].
    intros _ p. rewrite save_progress_run.
    destruct (datetime_now _). destruct (file_write _). discriminate.
  - intros p. discriminate.
Qed.

Lemma contains_transfer_file (o : obj) : contains_ClientError (transfer_file o).
Proof.
  unfold transfer_file. cbn zeta. apply contains_bind; [intros p; discriminate|].
  intros s. apply contains_bind; [apply contains_should_skip_transfer|].
  intros [|].
  - apply contains_bind; [intros p; discriminate | intros; apply contains_ret].
  - apply contains_bind; [|intros; apply contains_settle].
    destruct (transfer_method (obj_size o)); simpl;
      [apply contains_transfer_small_file | apply contains_transfer_large_file].
Qed.

Lemma contains_print_summary : contains_ClientError (W:=W) print_summary.
Proof.
  intros [[sb db sp dp mw cs [tf trf ff ts trs [t0|] [t1|]] m] f w c]; try discriminate.
  unfold print_summary, bind, get_self, raise, ret. simpl.
  destruct (t1 - t0 =? 0); discriminate.
Qed.

(** X15: no [ClientError] leaves the engine.  The planner, both copies, a
    whole transfer, the listing, the access test and the run turn every
    [ClientError] of a request into a return value ([False], or the empty
    list); what can leave them is another kind of exception only. *)
Theorem ClientError_never_leaves_the_engine :
  (forall key size, contains_ClientError (W:=W) (should_skip_transfer key size))
  /\ (forall key dest size, contains_ClientError (W:=W) (transfer_small_file key dest size))
  /\ (forall key dest size, contains_ClientError (W:=W) (transfer_large_file key dest size))
  /\ (forall o, contains_ClientError (W:=W) (transfer_file o))
  /\ contains_ClientError (W:=W) list_source_objects
  /\ contains_ClientError (W:=W) test_source_access
  /\ contains_ClientError (W:=W) run_transfer.
Proof.
  split; [exact contains_should_skip_transfer|].
  split; [exact contains_transfer_small_file|].
  split; [exact contains_transfer_large_file|].
  split; [exact contains_transfer_file|].
  assert (Hlist : contains_ClientError (W:=W) list_source_objects).
  { intros p. rewrite list_source_objects_run.
    destruct (src_paginate _ _ _) as [[pages [[|]|]] w]; discriminate. }
  split; [exact Hlist|]. split.
  - unfold test_source_access. apply contains_try_except; [reflexivity | apply contains_ret].
  - intros p. rewrite run_transfer_unfold. destruct (datetime_now (world p)) as [t0 w0].
    cbn zeta. specialize (Hlist (set_self (set_stats (set_start_time t0 (self_stats (self p)))
                                             (self p)) (set_world w0 p))).
    destruct (list_source_objects _) as [[[|o rest]|e] p2]; cbn [fst] in *;
      [discriminate | | intros [= ->]; apply Hlist; reflexivity].
    destruct (max_workers (self p2) <=? 0); [discriminate|].
    destruct (datetime_now (world _)) as [t1 w1].
    set (p5 := set_self _ _).
    pose proof (contains_print_summary p5) as Hsum.
    destruct (fst (print_summary p5)) as [[]|e]; [discriminate|].
    cbn [fst]. intros [= ->]. apply Hsum. reflexivity.
Qed.

(** ** The parts of a multipart copy *)

Lemma chunking_nil_inv (n : nat) (chunks : list (list byte)) :
  chunking n [] chunks -> chunks = [].
Proof. inversion 1; [reflexivity | contradiction]. Qed.

Lemma chunking_count (n : nat) (body : list byte) (chunks : list (list byte)) :
  (0 < n)%nat -> chunking n body chunks ->
  length chunks = ceil_div (length body) n
  /\ (forall i c, chunks !! i = Some c -> (S i < length chunks)%nat -> length c = n).
Proof.
  intros Hn Hch. induction Hch as [|stream chunks Hne Hch [IHlen IHfull]].
  - split; [|intros i c; rewrite lookup_nil; discriminate].
    unfold ceil_div. simpl. symmetry. apply Nat.div_small. lia.
  - rewrite length_drop in IHlen. unfold ceil_div in *.
    assert (Hlen : (0 < length stream)%nat)
      by (destruct stream; [contradiction | simpl; lia]).
    destruct (Nat.le_gt_cases (length stream) n) as [Hshort | Hlong].
    + rewrite drop_ge in Hch by exact Hshort. apply chunking_nil_inv in Hch. subst chunks.
      split.
      * simpl. replace (length stream + n - 1)%nat with (1 * n + (length stream - 1))%nat by lia.
        rewrite Nat.div_add_l by lia. rewrite Nat.div_small by lia. reflexivity.
      * intros i c _ Hi. simpl in Hi. lia.
    + split.
      * simpl. rewrite IHlen.
        replace (length stream + n - 1)%nat
          with (1 * n + (length stream - n + n - 1))%nat by lia.
        rewrite Nat.div_add_l by lia. reflexivity.
      * intros [|i] c Hc Hi.
        -- simpl in Hc. injection Hc as <-. rewrite length_take. lia.
        -- simpl in Hc, Hi. apply (IHfull i c Hc). lia.
Qed.

(** X16: the number and the sizes of the parts.  A multipart copy that
    succeeds with a positive chunk size uploads [ceil(n / chunk_size)] parts
    for a body of [n] bytes, and every part but the last has exactly
    [chunk_size] bytes. *)
Theorem transfer_large_file_part_sizes
    (source_key dest_key : string) (size : Z) (p p' : process W) :
  0 < chunk_size (self p) ->
  transfer_large_file source_key dest_key size p = (Returned true, p') ->
  exists (upload_id : string) (body : list byte) (chunks : list (list byte))
         (etags : list string),
    let bucket := destination_bucket (self p) in
    calls p' = calls p
               ++ [CreateMultipartUpload bucket dest_key (Returned upload_id);
                   GetObject (source_bucket (self p)) source_key (Returned body)]
               ++ upload_calls bucket dest_key upload_id 1 chunks etags
               ++ [CompleteMultipartUpload bucket dest_key upload_id
                     (numbered_parts 1 etags) (Returned tt)]
    /\ length etags = length chunks
    /\ length chunks = ceil_div (length body) (Z.to_nat (chunk_size (self p)))
    /\ (forall i c, chunks !! i = Some c -> (S i < length chunks)%nat ->
          Z.of_nat (length c) = chunk_size (self p)).
Proof.
  intros Hpos Hrun. rewrite transfer_large_file_unfold in Hrun. cbn zeta in Hrun.
  destruct (create_multipart_upload _ _ p) as [[upload_id|e] p1] eqn:Hcreate.
  2: { destruct e; simpl in Hrun; [|discriminate].
       rewrite abort_and_report_unbound in Hrun. discriminate. }
  destruct (get_object _ _ p1) as [[body|e] p2] eqn:Hget.
  2: { destruct e; simpl in Hrun; [|discriminate].
       rewrite abort_and_report_bound in Hrun.
       destruct (dst_abort_multipart_upload _ _ _ _); discriminate. }
  destruct (upload_all_parts _ _ _ _ p2) as [[parts|e] p3] eqn:Hloop.
  2: { destruct e; simpl in Hrun; [|discriminate].
       rewrite abort_and_report_bound in Hrun.
       destruct (dst_abort_multipart_upload _ _ _ _); discriminate. }
  destruct (complete_multipart_upload _ _ _ _ p3) as [[[]|e] p4] eqn:Hcomplete.
  2: { destruct e; simpl in Hrun; [|discriminate].
       rewrite abort_and_report_bound in Hrun.
       destruct (dst_abort_multipart_upload _ _ _ _); discriminate. }
  injection Hrun as <-.
  apply invoke_inv in Hcreate as (Hc1 & Hs1 & _).
  apply invoke_inv in Hget as (Hc2 & Hs2 & _).
  apply invoke_inv in Hcomplete as (Hc4 & _).
  pose proof (upload_all_parts_run (self p) dest_key upload_id body p2) as Hfuel.
  rewrite Hloop in Hfuel.
  apply (upload_parts_returned _ _ _ _ Hpos) in Hfuel.
  destruct Hfuel as (chunks & etags & Hch & Hlen & -> & Hc3 & _).
  exists upload_id, body, chunks, etags. cbn zeta.
  split; [rewrite Hc4, Hc3, Hc2, Hc1, <- !app_assoc; reflexivity|].
  split; [exact Hlen|].
  destruct (chunking_count (Z.to_nat (chunk_size (self p))) body chunks) as [Hcount Hfull];
    [lia | exact Hch |].
  split; [exact Hcount|].
  intros i c Hc Hi. rewrite (Hfull i c Hc Hi). lia.
Qed.

(** X17: a pool that cannot be created.  With [max_workers] not positive
    the run lists the source and then raises, when it has found objects, at
    the construction of the thread pool: the totals are set, the listing is
    the only request made, nothing is copied and nothing is counted.  With an
    empty listing the run returns [False] as with any number of workers. *)
Theorem run_transfer_without_workers (p : process W) :
  max_workers (self p) <= 0 ->
  let done := run_transfer p in
  let listed := list_source_objects
                  (set_self (set_stats (set_start_time (fst (datetime_now (world p)))
                                          (self_stats (self p))) (self p))
                     (set_world (snd (datetime_now (world p))) p)) in
  (exists pages err,
     calls (snd done) = calls p ++ [PaginateListObjectsV2 (source_bucket (self p))
                                      (source_prefix (self p)) pages err])
  /\ completed_transfers (self (snd done)) = completed_transfers (self p)
  /\ progress_file (snd done) = progress_file p
  /\ transferred_files (self_stats (self (snd done))) = transferred_files (self_stats (self p))
  /\ failed_files (self_stats (self (snd done))) = failed_files (self_stats (self p))
  /\ match fst listed with
     | Returned [] => fst done = Returned false
     | Returned objects =>
         fst done = Raised OtherException
         /\ total_files (self_stats (self (snd done))) = Z.of_nat (length objects)
         /\ total_size (self_stats (self (snd done))) = sum_sizes objects
     | Raised e => fst done = Raised e
     end.
Proof.
  intros Hworkers. cbn zeta. rewrite run_transfer_unfold.
  destruct (datetime_now (world p)) as [t0 w0]. cbn [fst snd]. cbn zeta.
  rewrite list_source_objects_run.
  cbn [self set_self world set_world source_bucket source_prefix set_stats].
  destruct (src_paginate _ _ w0) as [[pages err] w]. cbn [fst snd].
  assert (Hguard : (max_workers (self p) <=? 0) = true) by (apply Z.leb_le; exact Hworkers).
  destruct err as [[|]|]; cbn [fst snd].
  - simpl. repeat split; eauto.
  - simpl. repeat split; eauto.
  - destruct (collect pages) as [|o rest]; cbn [fst snd].
    + simpl. repeat split; eauto.
    + cbn [self set_self log_call set_world max_workers set_stats]. rewrite Hguard.
      cbn [fst snd]. simpl. repeat split; eauto.
Qed.

End MoreEngineFacts.

(** ** Further properties of the destination keys *)

Lemma append_inj_l (a s t : string) : a +:+ s = a +:+ t -> s = t.
Proof.
  induction a as [|c a IH]; [exact id|].
  rewrite !append_cons. intros [= Heq]. apply IH. exact Heq.
Qed.

Lemma skip_all (n : nat) (s : string) :
  (String.length s <= n)%nat -> Str.skip n s = "".
Proof.
  revert s. induction n as [|n IH]; intros [|a s] Hlen; simpl in *;
    try reflexivity; [lia | apply IH; lia].
Qed.

Lemma rstrip_app_separators (c : ascii) (s : string) (n : nat) :
  Str.rstrip c (s +:+ Str.replicate n c) = Str.rstrip c s.
Proof.
  induction s as [|a s IH].
  - rewrite append_nil. apply rstrip_replicate.
  - rewrite append_cons. cbn [Str.rstrip]. rewrite IH. reflexivity.
Qed.

(** X18: two source keys can share a destination key only because of the
    source prefix.  With no source prefix [get_destination_key] is injective;
    with one it never is: the keys [""] and ["/"], for one pair, lose their
    difference when the prefix is cut off and the separators are stripped. *)
Theorem get_destination_key_injective_iff (s : S3BulkTransfer) :
  (forall k k', get_destination_key s k = get_destination_key s k' -> k = k')
  <-> source_prefix s = "".
Proof.
  split.
  - intros Hinj. destruct (source_prefix s) as [|a pre] eqn:Hpre; [reflexivity|].
    assert (Hsame : get_destination_key s "" = get_destination_key s "/").
    { unfold get_destination_key. rewrite Hpre. cbn [Str.truthy].
      rewrite !skip_all by (simpl; lia). reflexivity. }
    apply Hinj in Hsame. discriminate.
  - intros Hpre k k'. unfold get_destination_key. rewrite Hpre. cbn [Str.truthy].
    destruct (Str.truthy (destination_prefix s)); [|exact id].
    intros Heq. apply append_inj_l in Heq. apply append_inj_l in Heq. exact Heq.
Qed.

(** X19: a key that is not longer than a configured source prefix has
    nothing left after the prefix is cut off: whatever its characters, it is
    mapped to the destination prefix followed by ['/'], or to the empty key
    when no destination prefix is configured. *)
Theorem get_destination_key_of_short_key (s : S3BulkTransfer) (source_key : string) :
  source_prefix s <> "" ->
  (String.length source_key <= String.length (source_prefix s))%nat ->
  get_destination_key s source_key =
    if Str.truthy (destination_prefix s) then destination_prefix s +:+ "/" else "".
Proof.
  intros Hpre Hlen. unfold get_destination_key.
  destruct (source_prefix s) as [|a pre] eqn:E; [contradiction|]. cbn [Str.truthy].
  rewrite skip_all by exact Hlen. reflexivity.
Qed.

(** X20: trailing separators of the configured prefixes do not matter.  The
    constructor builds the same object, in the same state, from prefixes that
    differ only in the number of ['/'] at their end; a prefix made of
    separators only is no prefix. *)
Theorem S3BulkTransfer_init_ignores_trailing_separators {W : Type}
    (source_bucket destination_bucket source_prefix destination_prefix : string)
    (max_workers chunk_size : Z) (disk : file (gmap string transfer_record)) (w : W)
    (n m : nat) :
  S3BulkTransfer_init source_bucket destination_bucket
    (source_prefix +:+ Str.replicate n "/") (destination_prefix +:+ Str.replicate m "/")
    max_workers chunk_size disk w
  = S3BulkTransfer_init source_bucket destination_bucket source_prefix destination_prefix
      max_workers chunk_size disk w
  /\ S3BulkTransfer_init source_bucket destination_bucket
       (Str.replicate n "/") (Str.replicate m "/") max_workers chunk_size disk w
     = S3BulkTransfer_init source_bucket destination_bucket "" ""
         max_workers chunk_size disk w.
Proof.
  unfold S3BulkTransfer_init. rewrite !rstrip_app_separators, !rstrip_replicate.
  split; reflexivity.
Qed.

(** ** Further properties of the size formatting *)

Lemma scale_value (remaining : nat) :
  forall (x : Q) (i : nat),
    let y := fst (Monitor.scale remaining x i) in
    let j := snd (Monitor.scale remaining x i) in
    (y * inject_Z (1024 ^ Z.of_nat (j - i)) == x)%Q
    /\ ((j < i + remaining)%nat -> (y < inject_Z 1024)%Q)
    /\ ((1 <= x)%Q -> (1 <= y)%Q).
Proof.
  induction remaining as [|r IH]; intros x i; cbn zeta.
  - simpl. rewrite Nat.sub_diag. simpl.
    split; [apply Qmult_1_r|]. split; [lia | exact id].
  - simpl. destruct (Qle_bool (inject_Z 1024) x) eqn:Hx.
    + apply Qle_bool_iff in Hx.
      destruct (IH (x / inject_Z 1024)%Q (S i)) as (Hval & Hlt & Hge).
      pose proof (scale_index_ge r (x / inject_Z 1024)%Q (S i)) as Hj.
      set (y := fst (Monitor.scale r (x / inject_Z 1024)%Q (S i))) in *.
      set (j := snd (Monitor.scale r (x / inject_Z 1024)%Q (S i))) in *.
      split; [|split].
      * replace (Z.of_nat (j - i)) with (Z.succ (Z.of_nat (j - S i))) by lia.
        rewrite Z.pow_succ_r by lia. rewrite Z.mul_comm, inject_Z_mult.
        rewrite Qmult_assoc, Hval. rewrite Qmult_comm. apply Qmult_div_r.
        discriminate.
      * intros Hlast. apply Hlt. lia.
      * intros _. apply Hge. apply Qle_shift_div_l; [reflexivity|].
        rewrite Qmult_1_l. exact Hx.
    + simpl. rewrite Nat.sub_diag. simpl.
      split; [apply Qmult_1_r|]. split; [|exact id].
      intros _. apply Qnot_le_lt. intros Hle. apply Qle_bool_iff in Hle. congruence.
Qed.

(** X21: what [format_size] shows.  For a byte count [n] with
    [0 < n < 2^53] the function returns the two-decimal rendering of a value
    [x] and the name of the unit of index [i <= 4] with [x * 1024^i = n]
    exactly: the loop only divides.  The value is at least 1, and it is below
    1024 in every unit but the last. *)
Theorem format_size_value (n : Z) :
  0 < n < 2 ^ 53 ->
  exists (x : Q) (i : nat),
    Monitor.scaled n = Some (x, i)
    /\ (i <= 4)%nat
    /\ (x * inject_Z (1024 ^ Z.of_nat i) == inject_Z n)%Q
    /\ (1 <= x)%Q
    /\ ((i < 4)%nat -> (x < inject_Z 1024)%Q)
    /\ Monitor.format_size n
       = Returned (Monitor.format_2f x +:+ " " +:+ nth i Monitor.size_names "").
Proof.
  intros [Hpos Hlt]. unfold Monitor.format_size, Monitor.scaled.
  rewrite float_of_int_exact by lia.
  destruct (n =? 0) eqn:Hz; [apply Z.eqb_eq in Hz; lia|].
  change (length Monitor.size_names - 1)%nat with 4%nat.
  destruct (scale_value 4 (inject_Z n) 0) as (Hval & Hbelow & Hge).
  pose proof (scale_index_le 4 (inject_Z n) 0) as Hle.
  destruct (Monitor.scale 4 (inject_Z n) 0) as [x i]. cbn [fst snd] in *.
  exists x, i. split; [reflexivity|]. split; [lia|].
  split; [rewrite Nat.sub_0_r in Hval; exact Hval|].
  split; [apply Hge; change 1%Q with (inject_Z 1); rewrite <- Zle_Qle; lia|].
  split; [intros Hi; apply Hbelow; lia | reflexivity].
Qed.

(** ** The summary of the monitor *)

Lemma foldr_max_bounds (t : Z) (rest : list Z) :
  In (foldr Z.max t rest) (t :: rest)
  /\ (forall u, In u (t :: rest) -> u <= foldr Z.max t rest).
Proof.
  induction rest as [|a rest [IHin IHle]]; simpl.
  - split; [left; reflexivity | intros u [<- | []]; lia].
  - split.
    + destruct (Z.max_spec a (foldr Z.max t rest)) as [[_ ->] | [_ ->]].
      * simpl in IHin. destruct IHin as [Ht | Hr]; [left; exact Ht | right; right; exact Hr].
      * right. left. reflexivity.
    + intros u [<- | [<- | Hu]].
      * specialize (IHle t (or_introl eq_refl)). lia.
      * lia.
      * specialize (IHle u (or_intror Hu)). lia.
Qed.

Lemma foldr_min_bounds (t : Z) (rest : list Z) :
  In (foldr Z.min t rest) (t :: rest)
  /\ (forall u, In u (t :: rest) -> foldr Z.min t rest <= u).
Proof.
  induction rest as [|a rest [IHin IHle]]; simpl.
  - split; [left; reflexivity | intros u [<- | []]; lia].
  - split.
    + destruct (Z.min_spec a (foldr Z.min t rest)) as [[_ ->] | [_ ->]].
      * right. left. reflexivity.
      * simpl in IHin. destruct IHin as [Ht | Hr]; [left; exact Ht | right; right; exact Hr].
    + intros u [<- | [<- | Hu]].
      * specialize (IHle t (or_introl eq_refl)). lia.
      * lia.
      * specialize (IHle u (or_intror Hu)). lia.
Qed.

Lemma duration_positive (timestamps : list Z) :
  0 <= Summary.duration timestamps
  /\ (0 < Summary.duration timestamps
      <-> exists t u, In t timestamps /\ In u timestamps /\ t <> u).
Proof.
  destruct timestamps as [|t rest]; simpl.
  - split; [lia|]. split; [lia | intros (t & u & [] & _)].
  - destruct (foldr_max_bounds t rest) as [Hmax_in Hmax].
    destruct (foldr_min_bounds t rest) as [Hmin_in Hmin].
    simpl in Hmax_in, Hmin_in.
    split; [specialize (Hmax t (or_introl eq_refl)); specialize (Hmin t (or_introl eq_refl)); lia|].
    split.
    + intros Hd. exists (foldr Z.max t rest), (foldr Z.min t rest).
      split; [exact Hmax_in|]. split; [exact Hmin_in | lia].
    + intros (a & b & Ha & Hb & Hab).
      pose proof (Hmax a Ha). pose proof (Hmax b Hb).
      pose proof (Hmin a Ha). pose proof (Hmin b Hb). lia.
Qed.

Lemma in_timestamps (progress : gmap string transfer_record) (t : Z) :
  In t (rec_timestamp <$> Summary.values progress)
  <-> exists key item, progress !! key = Some item /\ rec_timestamp item = t.
Proof.
  unfold Summary.values. rewrite <- list_elem_of_In, list_elem_of_fmap. split.
  - intros (item & -> & Hitem). apply list_elem_of_fmap in Hitem.
    destruct Hitem as ([key item'] & -> & Hin). apply elem_of_map_to_list in Hin.
    exists key, item'. split; [exact Hin | reflexivity].
  - intros (key & item & Hlook & <-). exists item. split; [reflexivity|].
    apply list_elem_of_fmap. exists (key, item). split; [reflexivity|].
    apply elem_of_map_to_list. exact Hlook.
Qed.

(** X22: what the summary of the monitor prints.  With a progress file
    that is missing, unreadable or empty it prints the one line that no
    progress was found.  Otherwise it reports the number of keys of the file;
    the duration is never negative, and the line of the average speed is
    printed exactly when two records carry different timestamps, so that its
    division is never by zero: a file with a single record has no such line.
    The summary ends with an exception only when [format_size] raises for the
    total size, after three lines. *)
Theorem show_summary_outcome (f : file (gmap string transfer_record)) :
  let progress := Summary.load_progress f in
  let printed := fst (Summary.show_summary f) in
  let d := Summary.duration (rec_timestamp <$> Summary.values progress) in
  (progress = ∅ <-> printed = [Summary.NoProgressFound])
  /\ (f = Missing \/ f = Unreadable -> Summary.show_summary f
                                       = ([Summary.NoProgressFound], Returned tt))
  /\ (progress <> ∅ ->
      In (Summary.TotalFiles (size progress)) printed
      /\ 0 <= d
      /\ (forall total duration,
            In (Summary.AverageSpeed total duration) printed ->
            total = Summary.total_size progress /\ duration = d /\ 0 < duration)
      /\ (In (Summary.AverageSpeed (Summary.total_size progress) d) printed
          <-> snd (Summary.show_summary f) = Returned tt
              /\ exists key key' item item',
                   progress !! key = Some item /\ progress !! key' = Some item'
                   /\ rec_timestamp item <> rec_timestamp item')
      /\ (forall e, snd (Summary.show_summary f) = Raised e ->
            Monitor.format_size (Summary.total_size progress) = Raised e
            /\ printed = [Summary.Heading; Summary.Rule;
                          Summary.TotalFiles (size progress)])).
Proof.
  cbn zeta. unfold Summary.show_summary.
  set (progress := Summary.load_progress f).
  set (d := Summary.duration _).
  destruct (duration_positive (rec_timestamp <$> Summary.values progress)) as [Hd0 Hdpos].
  fold d in Hd0, Hdpos.
  split; [|split].
  - destruct (decide (progress = ∅)) as [He | Hne].
    + rewrite bool_decide_eq_true_2 by exact He. split; [reflexivity | intros _; exact He].
    + rewrite bool_decide_eq_false_2 by exact Hne. split; [contradiction|].
      destruct (Monitor.format_size _); simpl; discriminate.
  - intros [-> | ->]; reflexivity.
  - intros Hne. rewrite bool_decide_eq_false_2 by exact Hne.
    destruct (Monitor.format_size (Summary.total_size progress)) as [rendered|e] eqn:Hfmt;
      cbn [fst snd].
    + split; [simpl; tauto|]. split; [exact Hd0|].
      assert (Hspeed : forall total duration,
                In (Summary.AverageSpeed total duration)
                  ([Summary.Heading; Summary.Rule; Summary.TotalFiles (size progress);
                    Summary.TotalSize rendered; Summary.Duration d]
                   ++ (if 0 <? d then [Summary.AverageSpeed (Summary.total_size progress) d]
                       else [])
                   ++ [Summary.Rule])
                <-> total = Summary.total_size progress /\ duration = d /\ 0 < d).
      { intros total duration. destruct (0 <? d) eqn:Hpos; simpl.
        - apply Z.ltb_lt in Hpos. split.
          + intros [H|[H|[H|[H|[H|[H|[H|[]]]]]]]]; try discriminate.
            injection H as <- <-. auto.
          + intros (-> & -> & _). tauto.
        - apply Z.ltb_ge in Hpos. split.
          + intros [H|[H|[H|[H|[H|[H|[]]]]]]]; discriminate.
          + intros (_ & _ & Hlt). lia. }
      split.
      { intros total duration Hin. apply Hspeed in Hin as (-> & -> & Hlt). auto. }
      split.
      { rewrite Hspeed, Hdpos. split.
        - intros (_ & _ & t & u & Ht & Hu & Hne').
          apply in_timestamps in Ht as (key & item & Hk & <-).
          apply in_timestamps in Hu as (key' & item' & Hk' & <-).
          split; [reflexivity|]. exists key, key', item, item'. auto.
        - intros (_ & key & key' & item & item' & Hk & Hk' & Hne').
          split; [reflexivity|]. split; [reflexivity|].
          exists (rec_timestamp item), (rec_timestamp item').
          split; [apply in_timestamps; eauto|]. split; [apply in_timestamps; eauto|].
          exact Hne'. }
      intros e. discriminate.
    + split; [simpl; tauto|]. split; [exact Hd0|].
      split.
      { intros total duration [H|[H|[H|[]]]]; discriminate. }
      split.
      { split.
        - intros [H|[H|[H|[]]]]; discriminate.
        - intros [Hret _]. discriminate. }
      intros e' [= <-]. split; reflexivity.
Qed.

Section SummaryOfARun.
Context {W : Type} `{Environment W}.

(** X23: the monitor reads what the engine wrote.  After a [save_progress]
    whose write succeeded, the progress file holds the ledger of the process:
    [show_summary] finds progress, and the number of files it reports has
    grown by one exactly when the key was not yet in the ledger; a key saved
    again replaces its record. *)
Theorem show_summary_after_save (key : string) (size_ : Z) (p : process W) :
  fst (file_write (snd (datetime_now (world p)))) = WriteOk ->
  let q := snd (save_progress key size_ p) in
  let progress := Summary.load_progress (progress_file q) in
  progress = completed_transfers (self q)
  /\ progress !! key = Some (mk_record size_ (fst (datetime_now (world p))))
  /\ fst (Summary.show_summary (progress_file q)) <> [Summary.NoProgressFound]
  /\ size progress =
     match completed_transfers (self p) !! key with
     | Some _ => size (completed_transfers (self p))
     | None => S (size (completed_transfers (self p)))
     end.
Proof.
  cbn zeta. rewrite save_progress_run.
  destruct (datetime_now (world p)) as [t w1]. cbn [fst snd].
  destruct (file_write w1) as [out w2]. cbn [fst snd]. intros ->.
  cbn [progress_file self completed_transfers set_completed_transfers Summary.load_progress].
  split; [reflexivity|]. split; [apply lookup_insert_eq|]. split.
  - unfold Summary.show_summary. cbn [Summary.load_progress].
    rewrite bool_decide_eq_false_2 by apply insert_non_empty.
    destruct (Monitor.format_size _); simpl; discriminate.
  - rewrite map_size_insert. destruct (_ !! key); reflexivity.
Qed.

End SummaryOfARun.

(** * The further properties at concrete runs *)

Lemma transfer_small_file_outcome_witness :
  self (snd (@transfer_small_file nat (scripted quiet) "data/2024/file.csv"
               "backup/2024/file.csv" 5 fresh_process)) = self fresh_process
  /\ fst (@transfer_small_file nat (scripted quiet) "data/2024/file.csv"
            "backup/2024/file.csv" 5 fresh_process) <> Raised ClientError.
Proof.
  destruct (@transfer_small_file_outcome nat (scripted quiet) "data/2024/file.csv"
              "backup/2024/file.csv" 5 fresh_process
              (snd (@transfer_small_file nat (scripted quiet) "data/2024/file.csv"
                      "backup/2024/file.csv" 5 fresh_process))
              (fst (@transfer_small_file nat (scripted quiet) "data/2024/file.csv"
                      "backup/2024/file.csv" 5 fresh_process))
              ltac:(vm_compute; reflexivity))
    as (Hself & _ & Hclient & _).
  split; [exact Hself | exact Hclient].
Defined.

Lemma transfer_large_file_creation_fails_witness :
  @transfer_large_file nat (scripted refused_creation) "data/2024/file.csv"
    "backup/2024/file.csv" 5 fresh_process
  = (Returned false,
     log_call (CreateMultipartUpload "dst-bucket" "backup/2024/file.csv"
                 (Raised ClientError))
       (set_world 1%nat fresh_process)).
Proof.
  exact (@transfer_large_file_creation_fails nat (scripted refused_creation)
           "data/2024/file.csv" "backup/2024/file.csv" 5 fresh_process ClientError 1%nat
           ltac:(vm_compute; reflexivity)).
Defined.

Lemma transfer_large_file_zero_chunk_witness :
  exists (upload_id : string) (body : list byte),
    calls (snd (@transfer_large_file nat (scripted quiet) "data/2024/file.csv"
                  "backup/2024/file.csv" 5 zero_chunk_process)) =
    [CreateMultipartUpload "dst-bucket" "backup/2024/file.csv" (Returned upload_id);
     GetObject "src-bucket" "data/2024/file.csv" (Returned body);
     CompleteMultipartUpload "dst-bucket" "backup/2024/file.csv" upload_id []
       (Returned tt)].
Proof.
  destruct (@transfer_large_file_zero_chunk nat (scripted quiet) "data/2024/file.csv"
              "backup/2024/file.csv" 5 zero_chunk_process
              (snd (@transfer_large_file nat (scripted quiet) "data/2024/file.csv"
                      "backup/2024/file.csv" 5 zero_chunk_process))
              ltac:(vm_compute; reflexivity) ltac:(vm_compute; reflexivity))
    as (upload_id & body & Hcalls & _).
  exists upload_id, body. exact Hcalls.
Defined.

Lemma transfer_file_counts_once_witness :
  transferred_files
    (self_stats (self (snd (@transfer_file nat (scripted quiet) small_obj fresh_process))))
  = transferred_files (self_stats (self fresh_process)) + 1
  /\ failed_files
       (self_stats (self (snd (@transfer_file nat (scripted quiet) small_obj fresh_process))))
     = failed_files (self_stats (self fresh_process)).
Proof.
  destruct (@transfer_file_counts_once nat (scripted quiet) small_obj fresh_process
              (snd (@transfer_file nat (scripted quiet) small_obj fresh_process))
              (Returned true) ltac:(vm_compute; reflexivity))
    as (_ & Ht & _ & Hf & _).
  split; [exact Ht | exact Hf].
Defined.

Lemma copied_object_is_skipped_next_witness :
  @should_skip_transfer nat (scripted quiet) (obj_key small_obj) (obj_size small_obj)
    (snd (@transfer_file nat (scripted quiet) small_obj fresh_process))
  = (Returned true, snd (@transfer_file nat (scripted quiet) small_obj fresh_process)).
Proof.
  exact (proj1 (@copied_object_is_skipped_next nat (scripted quiet) small_obj fresh_process
                  (snd (@should_skip_transfer nat (scripted quiet) (obj_key small_obj)
                          (obj_size small_obj) fresh_process))
                  (snd (@transfer_small_file nat (scripted quiet) "data/2024/file.csv"
                          "backup/2024/file.csv" 5
                          (snd (@should_skip_transfer nat (scripted quiet)
                                  (obj_key small_obj) (obj_size small_obj) fresh_process))))
                  ltac:(vm_compute; reflexivity) ltac:(vm_compute; reflexivity))).
Defined.

Lemma run_transfer_accounts_for_every_object_witness :
  transferred_files
    (self_stats (self (snd (@run_transfer nat (scripted quiet) fresh_process))))
  + failed_files
      (self_stats (self (snd (@run_transfer nat (scripted quiet) fresh_process))))
  = total_files (self_stats (self (snd (@run_transfer nat (scripted quiet) fresh_process)))).
Proof.
  exact (proj1 (@run_transfer_accounts_for_every_object nat (scripted quiet) fresh_process
                  (snd (@run_transfer nat (scripted quiet) fresh_process)) true
                  ltac:(vm_compute; reflexivity) ltac:(vm_compute; reflexivity))).
Defined.

Lemma run_pool_transferred_size_bound_witness :
  transferred_size
    (self_stats (self (snd (@run_pool nat (scripted quiet) [small_obj] fresh_process))))
  <= transferred_size (self_stats (self fresh_process)) + sum_sizes [small_obj].
Proof.
  exact (proj2 (@run_pool_transferred_size_bound nat (scripted quiet) [small_obj]
                  fresh_process
                  ltac:(repeat constructor; simpl; lia))).
Defined.

Lemma run_transfer_needs_elapsed_time_witness :
  start_time (self_stats (self (snd (@run_transfer nat (scripted quiet) fresh_process))))
  = Some (fst (@datetime_now nat (scripted quiet) (world fresh_process))).
Proof.
  exact (proj1 (@run_transfer_needs_elapsed_time nat (scripted quiet) fresh_process
                  (snd (@run_transfer nat (scripted quiet) fresh_process))
                  (Returned true) 14
                  ltac:(vm_compute; reflexivity) ltac:(vm_compute; reflexivity)
                  ltac:(vm_compute; reflexivity))).
Defined.

Lemma transfer_large_file_part_sizes_witness :
  exists (body : list byte) (chunks : list (list byte)),
    length chunks = ceil_div (length body) 2
    /\ (forall i c, chunks !! i = Some c -> (S i < length chunks)%nat ->
          Z.of_nat (length c) = 2).
Proof.
  destruct (@transfer_large_file_part_sizes nat (scripted quiet) "data/2024/file.csv"
              "backup/2024/file.csv" 5 fresh_process (snd (large_copy quiet))
              ltac:(vm_compute; reflexivity) ltac:(vm_compute; reflexivity))
    as (upload_id & body & chunks & etags & _ & _ & Hcount & Hfull).
  exists body, chunks. split; [exact Hcount | exact Hfull].
Defined.

Lemma run_transfer_without_workers_witness :
  completed_transfers (self (snd (@run_transfer nat (scripted quiet) idle_process)))
  = completed_transfers (self idle_process)
  /\ progress_file (snd (@run_transfer nat (scripted quiet) idle_process))
     = progress_file idle_process.
Proof.
  destruct (@run_transfer_without_workers nat (scripted quiet) idle_process
              ltac:(vm_compute; discriminate))
    as (_ & Hledger & Hfile & _).
  split; [exact Hledger | exact Hfile].
Defined.

Lemma get_destination_key_of_short_key_witness :
  get_destination_key (example_self "data" "backup" 2 ∅) "dat" = "backup/".
Proof.
  exact (get_destination_key_of_short_key (example_self "data" "backup" 2 ∅) "dat"
           ltac:(simpl; discriminate) ltac:(simpl; lia)).
Defined.

Lemma format_size_value_witness :
  exists (x : Q) (i : nat),
    Monitor.scaled 1536 = Some (x, i)
    /\ (i <= 4)%nat
    /\ (x * inject_Z (1024 ^ Z.of_nat i) == inject_Z 1536)%Q.
Proof.
  destruct (format_size_value 1536 ltac:(split; reflexivity))
    as (x & i & Hs & Hi & Hval & _).
  exists x, i. split; [exact Hs|]. split; [exact Hi | exact Hval].
Defined.

Lemma show_summary_after_save_witness :
  Summary.load_progress
    (progress_file (snd (@save_progress nat (scripted quiet) "data/2024/file.csv" 5
                           fresh_process)))
  = completed_transfers
      (self (snd (@save_progress nat (scripted quiet) "data/2024/file.csv" 5
                    fresh_process))).
Proof.
  exact (proj1 (@show_summary_after_save nat (scripted quiet) "data/2024/file.csv" 5
                  fresh_process ltac:(vm_compute; reflexivity))).
Defined.
